(** * The real-time session hub of the AI cohost server

    A shallow embedding of the WebSocket side of [server/routes.ts], of the
    parts of [server/storage.ts] it calls, and of the chunk accumulator of
    [server/services/audio.ts], followed by the properties proved about
    them.

    Conventions of the embedding:
    - a frame is the JavaScript value [JSON.parse] produced for it; the
      runtime values of the hub are the type [value] below;
    - a handler is a function of the world (registry, storage, accumulator,
      clock) that returns its outcome, the world after it and the messages
      it wrote to sockets, in order;
    - an [await] is not a scheduling point here: a handler runs from the
      arrival of its frame to its last effect without interleaving;
    - the OpenAI calls of [server/services/openai.ts], base64 coding and
      the floating-point arithmetic of a chunk's decibel level are inputs
      of the model ([Env]); a [Buffer] is its bytes and its offset in its
      store, and what the level computation throws is written out. *)

From Stdlib Require Import Floats ZArith String Ascii List Bool Lia Arith.
From Stdlib Require Import Sorted Permutation.
Import ListNotations.
Open Scope string_scope.
Set Warnings "-register-all,-inexact-float".

(** ** JavaScript values *)

Module JS.

(** Identity of a heap object.  [JSON.parse] gives every object and array
    of a frame an identity of its own; [===] on objects compares it. *)
Definition ref := nat.

Inductive value : Type :=
| VUndefined
| VNull
| VBool (b : bool)
| VNum (x : float)
| VStr (s : string)
| VDate (r : ref) (t : Z)
| VArr (r : ref) (xs : list value)
| VObj (r : ref) (fields : list (string * value)).

(** Object and array literals evaluated by the server.  Their identity is
    never observed by the code modelled here (they are serialized or only
    read), so they all carry reference 0. *)
Definition obj (fields : list (string * value)) : value := VObj 0 fields.
Definition arr (xs : list value) : value := VArr 0 xs.

(** ToBoolean. *)
Definition truthy (v : value) : bool :=
  match v with
  | VUndefined | VNull => false
  | VBool b => b
  | VNum x => negb (PrimFloat.is_zero x || PrimFloat.is_nan x)
  | VStr s => negb (String.eqb s "")
  | VDate _ _ | VArr _ _ | VObj _ _ => true
  end.

(** [a || b], on values; the disjunction of propositions stays [\/]. *)
Definition or (a b : value) : value := if truthy a then a else b.

(** [a === b]. *)
Definition strict_eq (a b : value) : bool :=
  match a, b with
  | VUndefined, VUndefined => true
  | VNull, VNull => true
  | VBool x, VBool y => Bool.eqb x y
  | VNum x, VNum y => PrimFloat.eqb x y
  | VStr x, VStr y => String.eqb x y
  | VDate r _, VDate r' _ => Nat.eqb r r'
  | VArr r _, VArr r' _ => Nat.eqb r r'
  | VObj r _, VObj r' _ => Nat.eqb r r'
  | _, _ => false
  end.

(** SameValueZero, the key comparison of [Map]: [===] except that NaN is
    equal to itself. *)
Definition same_value_zero (a b : value) : bool :=
  match a, b with
  | VNum x, VNum y => PrimFloat.eqb x y || (PrimFloat.is_nan x && PrimFloat.is_nan y)
  | _, _ => strict_eq a b
  end.

Definition nullish (v : value) : bool :=
  match v with VUndefined | VNull => true | _ => false end.

Fixpoint assoc (k : string) (fields : list (string * value)) : value :=
  match fields with
  | [] => VUndefined
  | (k', v) :: rest => if String.eqb k k' then v else assoc k rest
  end.

(** [v.k] for a [v] that is neither [undefined] nor [null] and a property
    name [k] that no prototype defines (all the names the hub reads:
    type, source, data, timestamp, sessionId, ...): an own property of an
    object, [undefined] on anything else. *)
Definition prop (v : value) (k : string) : value :=
  match v with
  | VObj _ fields => assoc k fields
  | _ => VUndefined
  end.

(** [v?.k]. *)
Definition opt_prop (v : value) (k : string) : value :=
  if nullish v then VUndefined else prop v k.

(** Assignment of one property: in place when the key exists, appended
    otherwise. *)
Fixpoint set_field (k : string) (v : value) (fields : list (string * value))
  : list (string * value) :=
  match fields with
  | [] => [(k, v)]
  | (k', v') :: rest =>
      if String.eqb k k' then (k, v) :: rest else (k', v') :: set_field k v rest
  end.

Definition set_fields (news fields : list (string * value)) : list (string * value) :=
  fold_left (fun acc kv => set_field (fst kv) (snd kv) acc) news fields.

(** Decimal rendering of an array index. *)
Definition digit (n : nat) : ascii := ascii_of_nat (48 + n mod 10).

Fixpoint decimal_fuel (fuel n : nat) (acc : string) : string :=
  match fuel with
  | O => acc
  | S fuel' =>
      let acc' := String (digit n) acc in
      if Nat.ltb n 10 then acc' else decimal_fuel fuel' (n / 10) acc'
  end.

Definition decimal (n : nat) : string := decimal_fuel (S n) n "".

Fixpoint indexed (i : nat) (xs : list value) : list (string * value) :=
  match xs with
  | [] => []
  | x :: rest => (decimal i, x) :: indexed (S i) rest
  end.

Fixpoint chars (s : string) : list value :=
  match s with
  | EmptyString => []
  | String c rest => VStr (String c EmptyString) :: chars rest
  end.

(** The own enumerable properties copied by a spread [{...v}].  A string
    spreads into its characters (code units in JavaScript; exact here for
    ASCII text, strings being byte strings). *)
Definition own_props (v : value) : list (string * value) :=
  match v with
  | VObj _ fields => fields
  | VArr _ xs => indexed 0 xs
  | VStr s => indexed 0 (chars s)
  | _ => []
  end.

End JS.
Export JS.

(** ** [Date.prototype.toISOString] *)

Module Date.

Definition pad (width : nat) (n : Z) : string :=
  (fix go (w : nat) (n : Z) (acc : string) : string :=
     match w with
     | O => acc
     | S w' => go w' (n / 10)%Z (String (digit (Z.to_nat (n mod 10)%Z)) acc)
     end) width n "".

(** Civil date of a day count from 1970-01-01 (proleptic Gregorian). *)
Definition civil (days : Z) : Z * Z * Z :=
  let z := (days + 719468)%Z in
  let era := (z / 146097)%Z in
  let doe := (z - era * 146097)%Z in
  let yoe := ((doe - doe / 1460 + doe / 36524 - doe / 146096) / 365)%Z in
  let doy := (doe - (365 * yoe + yoe / 4 - yoe / 100))%Z in
  let mp := ((5 * doy + 2) / 153)%Z in
  let d := (doy - (153 * mp + 2) / 5 + 1)%Z in
  let m := (if mp <? 10 then mp + 3 else mp - 9)%Z in
  let y := (yoe + era * 400 + (if m <=? 2 then 1 else 0))%Z in
  (y, m, d).

Definition year_string (y : Z) : string :=
  if Z.leb 0 y && Z.leb y 9999 then pad 4 y
  else (if Z.ltb y 0 then "-" else "+") ++ pad 6 (Z.abs y).

(** [new Date(t).toISOString()] for [t] milliseconds since the epoch. *)
Definition toISOString (t : Z) : string :=
  let day := (t / 86400000)%Z in
  let ms := (t mod 86400000)%Z in
  let '(y, m, d) := civil day in
  year_string y ++ "-" ++ pad 2 m ++ "-" ++ pad 2 d ++ "T" ++
  pad 2 (ms / 3600000) ++ ":" ++ pad 2 (ms / 60000 mod 60) ++ ":" ++
  pad 2 (ms / 1000 mod 60) ++ "." ++ pad 3 (ms mod 1000) ++ "Z".

End Date.

Arguments Date.toISOString : simpl never.


(** ** [JSON.stringify] *)

Module JSON.

(** The value a peer decodes from [JSON.stringify v]: a property whose
    value is [undefined] is left out, an [undefined] array element and a
    number that is not finite become [null], a zero loses its sign, a
    [Date] becomes its ISO string.  [VUndefined] stands for "no text". *)
Fixpoint stringify (v : value) : value :=
  match v with
  | VUndefined => VUndefined
  | VNull => VNull
  | VBool b => VBool b
  | VNum x =>
      if PrimFloat.is_zero x then VNum 0
      else if PrimFloat.is_finite x then VNum x else VNull
  | VStr s => VStr s
  | VDate _ t => VStr (Date.toISOString t)
  | VArr _ xs =>
      arr (map (fun x => match stringify x with VUndefined => VNull | j => j end) xs)
  | VObj _ fields =>
      obj ((fix members (fs : list (string * value)) : list (string * value) :=
              match fs with
              | [] => []
              | (k, x) :: rest =>
                  match stringify x with
                  | VUndefined => members rest
                  | j => (k, j) :: members rest
                  end
              end) fields)
  end.

End JSON.

(** ** Exceptions *)

Inductive exn : Type :=
| Error (message : string)      (* an instance of Error *)
| Thrown (v : value).           (* any other thrown value *)

Inductive result (A : Type) : Type :=
| Ok (a : A)
| Throw (e : exn).
Arguments Ok {A} a.
Arguments Throw {A} e.

(** [error instanceof Error ? error.message : 'Unknown error'] *)
Definition error_message (e : exn) : string :=
  match e with
  | Error m => m
  | Thrown _ => "Unknown error"
  end.

(** ** The chunk accumulator, [server/services/audio.ts] *)

(** A Node [Buffer] is a view of an [ArrayBuffer]: the bytes it holds and
    the offset in the underlying store at which they start.  Its [length]
    and its [byteLength] are the number of bytes it holds. *)
Record Buffer := { byteOffset : N; bytes : list Byte.byte }.

(** [Buffer.concat(list)]: the bytes of the members, in order, copied to a
    new store.  A result of 4096 bytes or more, as every one that
    [processAudioChunk] hands off is, starts that store. *)
Definition Buffer_concat (chunks : list Buffer) : Buffer :=
  {| byteOffset := 0; bytes := concat (map bytes chunks) |}.

Module AudioProcessor.

(** What an [emit] hands to the listeners. *)
Inductive event : Type :=
| processingStarted
| processingStopped
| audioLevel (level : float)
| audioReady (audioData : Buffer).

Record t := { isProcessing : bool; audioBuffer : list Buffer }.

Definition CHUNK_SIZE : Z := 4096.

(** The instance as constructed. *)
Definition init : t := {| isProcessing := false; audioBuffer := [] |}.

Definition startProcessing (s : t) : t * list event :=
  ({| isProcessing := true; audioBuffer := audioBuffer s |}, [processingStarted]).

Definition stopProcessing (s : t) : t * list event :=
  ({| isProcessing := false; audioBuffer := [] |}, [processingStopped]).

Definition getTotalBufferSize (s : t) : Z :=
  fold_left (fun total chunk => (total + Z.of_nat (length (bytes chunk)))%Z)
            (audioBuffer s) 0%Z.

Definition processBufferedAudio (s : t) : t * list event :=
  let audioData := Buffer_concat (audioBuffer s) in
  ({| isProcessing := isProcessing s; audioBuffer := [] |}, [audioReady audioData]).

Section Level.

(** Lines 42 to 53 of [calculateAudioLevel]: the RMS of the 16-bit samples
    in decibels, floating point with [Math.sqrt] and [Math.log10]; taken
    as given. *)
Variable decibels : Buffer -> float.

(** [calculateAudioLevel].  Line 41,
    [new Int16Array(buffer.buffer, buffer.byteOffset, buffer.byteLength / 2)],
    throws a [RangeError] when the view does not start at a multiple of
    the two bytes of a sample; a fractional length is truncated. *)
Definition calculateAudioLevel (buffer : Buffer) : result float :=
  if N.even (byteOffset buffer) then Ok (decibels buffer)
  else Throw (Error "start offset of Int16Array should be a multiple of 2").

(** [processAudioChunk]: what the call returns or throws, the state it
    leaves and the events it has emitted, to listeners that return.  The
    chunk is pushed before its level is computed, so a call that throws
    there leaves the chunk held, with no event and no look at the
    threshold. *)
Definition processAudioChunk (chunk : Buffer) (s : t) : result unit * (t * list event) :=
  if negb (isProcessing s) then (Ok tt, (s, []))
  else
    let s1 := {| isProcessing := isProcessing s;
                 audioBuffer := (audioBuffer s ++ [chunk])%list |} in
    match calculateAudioLevel chunk with
    | Throw e => (Throw e, (s1, []))
    | Ok level =>
        if (CHUNK_SIZE * 10 <=? getTotalBufferSize s1)%Z then
          let (s2, events) := processBufferedAudio s1 in
          (Ok tt, (s2, audioLevel level :: events))
        else (Ok tt, (s1, [audioLevel level]))
    end.

(** The public operations, and a run of them from a given state by a
    caller that carries on after a call that throws. *)
Inductive op : Type :=
| Start
| Stop
| Chunk (chunk : Buffer).

Definition apply (o : op) (s : t) : t * list event :=
  match o with
  | Start => startProcessing s
  | Stop => stopProcessing s
  | Chunk chunk => snd (processAudioChunk chunk s)
  end.

Fixpoint run (ops : list op) (s : t) : t * list event :=
  match ops with
  | [] => (s, [])
  | o :: rest =>
      let (s1, e1) := apply o s in
      let (s2, e2) := run rest s1 in
      (s2, (e1 ++ e2)%list)
  end.

End Level.

(** The payloads of the "audioReady" events of a trace. *)
Fixpoint ready (events : list event) : list Buffer :=
  match events with
  | [] => []
  | audioReady d :: rest => d :: ready rest
  | _ :: rest => ready rest
  end.

End AudioProcessor.

(** ** The entities of [shared/schema.ts] and the repository of
       [server/storage.ts]

    Entities that only validated REST input and the hub's own typed
    records reach follow their TypeScript types.  A [sessionId] that the
    hub copies from a connection is a [value]: the frame it came from is
    typed [any].  An AI personality is a plain object, because
    [handlePersonalityUpdate] spreads an arbitrary frame property into
    it. *)

Module Speaker.
Record t := {
  id : string; sessionId : string; name : string; handle : option string;
  isHost : option bool; isGuest : option bool; isAI : option bool;
  avatar : option string; joinedAt : option Z }.
End Speaker.

Module Message.
Record t := {
  id : string; sessionId : value; speakerId : string; content : string;
  timestamp : Z; confidence : option float; isAIGenerated : option bool;
  metadata : value }.

(** The object [JSON.stringify] sees. *)
Definition to_value (m : t) : value :=
  obj [("sessionId", sessionId m); ("speakerId", VStr (speakerId m));
       ("content", VStr (content m));
       ("confidence", match confidence m with Some x => VNum x | None => VNull end);
       ("isAIGenerated", match isAIGenerated m with Some b => VBool b | None => VNull end);
       ("id", VStr (id m)); ("timestamp", VDate 0 (timestamp m));
       ("metadata", metadata m)].
End Message.

Module InsertMessage.
Record t := {
  sessionId : value; speakerId : string; content : string;
  confidence : option float; isAIGenerated : option bool; metadata : value }.
End InsertMessage.

Module SessionMemory.
Record t := {
  id : string; sessionId : value; topics : value; speakerNotes : value;
  runningJokes : option (list string); clipMoments : value;
  updatedAt : option Z }.
End SessionMemory.

Module Analytics.
Record t := {
  id : string; sessionId : value;
  aiSpeakingTime : option float; totalResponses : option float;
  avgResponseTime : option float; interrupts : option float;
  jokeSuccessRate : option float; updatedAt : option Z }.
End Analytics.

Module InsertAnalytics.
Record t := {
  sessionId : value;
  aiSpeakingTime : option float; totalResponses : option float;
  avgResponseTime : option float; interrupts : option float;
  jokeSuccessRate : option float }.
End InsertAnalytics.

(** [x || d] on a [number | null | undefined]. *)
Definition num_or (x : option float) (d : float) : float :=
  match x with
  | Some n => if truthy (VNum n) then n else d
  | None => d
  end.

(** [x || null] on a [number | null | undefined]. *)
Definition num_or_null (x : option float) : option float :=
  match x with
  | Some n => if truthy (VNum n) then Some n else None
  | None => None
  end.

(** A [Map], in insertion order. *)
Module Map.
Section Ops.
Context {K V : Type} (eqb : K -> K -> bool).

Fixpoint get (k : K) (m : list (K * V)) : option V :=
  match m with
  | [] => None
  | (k', v) :: rest => if eqb k' k then Some v else get k rest
  end.

Fixpoint set (k : K) (v : V) (m : list (K * V)) : list (K * V) :=
  match m with
  | [] => [(k, v)]
  | (k', v') :: rest => if eqb k' k then (k', v) :: rest else (k', v') :: set k v rest
  end.

Fixpoint delete (k : K) (m : list (K * V)) : list (K * V) :=
  match m with
  | [] => []
  | (k', v') :: rest => if eqb k' k then rest else (k', v') :: delete k rest
  end.

End Ops.
End Map.

Module MemStorage.
Record t := {
  speakers : list (string * Speaker.t);
  messages : list (string * Message.t);
  sessionMemories : list (value * SessionMemory.t);
  aiPersonalities : list (value * value);
  analytics : list (value * Analytics.t) }.

Definition empty : t :=
  {| speakers := []; messages := []; sessionMemories := [];
     aiPersonalities := []; analytics := [] |}.
End MemStorage.

(** ** The context handed to the response generator ([ConversationContext]
       of [server/services/openai.ts]) *)

Module ConversationContext.
Record Personality := {
  voiceType : value; comedyLevel : value; researchLevel : value;
  energyLevel : value; responseStyle : value }.

Record RecentMessage := { speaker : string; content : string; timestamp : Z }.

Record t := {
  topics : value; speakerNotes : value; runningJokes : list string;
  recentMessages : list RecentMessage; personality : Personality }.
End ConversationContext.

(** ** What the hub takes from outside *)

Record Env := {
  (* server/services/openai.ts, at their TypeScript signatures *)
  generateAIResponse : value -> ConversationContext.t -> result (string * float);
  synthesizeSpeech : string -> value -> result Buffer;
  transcribeAudio : Buffer -> result (string * option float);
  (* Buffer.from(x, 'base64') and buffer.toString('base64') *)
  Buffer_from_base64 : value -> result Buffer;
  Buffer_to_base64 : Buffer -> string;
  (* the arithmetic of AudioProcessor.calculateAudioLevel *)
  decibels : Buffer -> float;
  (* the n-th result of randomUUID() *)
  randomUUID : nat -> string;
  (* milliseconds that pass before the n-th reading of the clock *)
  elapsed : nat -> N }.

(** ** The registry and the world *)

Inductive readyState : Type := CONNECTING | OPEN | CLOSING | CLOSED.

Definition is_OPEN (s : readyState) : bool :=
  match s with OPEN => true | _ => false end.

(** [WebSocketClient]; [ws] is the state of the socket, an optional field
    that was never assigned is [VUndefined]. *)
Module WebSocketClient.
Record t := {
  ws : readyState;
  sessionId : value;
  isHost : value;
  clientType : value;
  clientId : string }.
End WebSocketClient.

(** A call to one of the functions of [server/services/openai.ts]. *)
Inductive call : Type :=
| GenerateAIResponse (recentTranscript : value) (context : ConversationContext.t)
| SynthesizeSpeech (text : string) (voiceType : value)
| TranscribeAudio (audioBuffer : Buffer).

Record World := {
  clients : list (string * WebSocketClient.t);   (* const clients = new Map() *)
  storage : MemStorage.t;
  audioProcessor : AudioProcessor.t;
  clock : Z;             (* the time when the handler is entered, then of its last reading *)
  reads : nat;           (* clock readings so far *)
  uuids : nat;           (* randomUUID() calls so far *)
  calls : list call }.   (* the calls made to the OpenAI services, oldest first *)

(** A write to a socket: the connection it belongs to and the message. *)
Definition delivery : Type := string * value.

(** ** Handlers: state, output and exceptions *)

#[projections(primitive)]
Record Run (A : Type) := {
  ret : result A;
  after : World;
  sent : list delivery }.
Arguments ret {A} r.
Arguments after {A} r.
Arguments sent {A} r.

Definition M (A : Type) : Type := World -> Run A.

Definition pure {A} (a : A) : M A :=
  fun w => {| ret := Ok a; after := w; sent := [] |}.

Definition throw {A} (e : exn) : M A :=
  fun w => {| ret := Throw e; after := w; sent := [] |}.

Definition lift {A} (r : result A) : M A :=
  fun w => {| ret := r; after := w; sent := [] |}.

Definition bind {A B} (m : M A) (f : A -> M B) : M B :=
  fun w =>
    let r := m w in
    match ret r with
    | Ok a =>
        let r' := f a (after r) in
        {| ret := ret r'; after := after r'; sent := (sent r ++ sent r')%list |}
    | Throw e => {| ret := Throw e; after := after r; sent := sent r |}
    end.

(** [try { m } catch (e) { h e }] *)
Definition try_catch {A} (m : M A) (h : exn -> M A) : M A :=
  fun w =>
    let r := m w in
    match ret r with
    | Ok _ => r
    | Throw e =>
        let r' := h e (after r) in
        {| ret := ret r'; after := after r'; sent := (sent r ++ sent r')%list |}
    end.

Notation "x <- m ;; k" := (bind m (fun x => k))
  (at level 61, m at next level, right associativity).
Notation "m ;;; k" := (bind m (fun _ => k))
  (at level 61, right associativity).

Definition get_world : M World :=
  fun w => {| ret := Ok w; after := w; sent := [] |}.

Definition put_world (w' : World) : M unit :=
  fun _ => {| ret := Ok tt; after := w'; sent := [] |}.

(** [ws.send(JSON.stringify(message))] on the socket of connection [to]. *)
Definition send (to : string) (message : value) : M unit :=
  fun w => {| ret := Ok tt; after := w; sent := [(to, JSON.stringify message)] |}.

Definition send_all (recipients : list string) (message : value) : M unit :=
  fun w => {| ret := Ok tt; after := w;
              sent := map (fun to => (to, JSON.stringify message)) recipients |}.

Definition with_clients (cs : list (string * WebSocketClient.t)) (w : World) : World :=
  {| clients := cs; storage := storage w; audioProcessor := audioProcessor w;
     clock := clock w; reads := reads w; uuids := uuids w; calls := calls w |}.

Definition with_storage (s : MemStorage.t) (w : World) : World :=
  {| clients := clients w; storage := s; audioProcessor := audioProcessor w;
     clock := clock w; reads := reads w; uuids := uuids w; calls := calls w |}.

Definition with_audioProcessor (a : AudioProcessor.t) (w : World) : World :=
  {| clients := clients w; storage := storage w; audioProcessor := a;
     clock := clock w; reads := reads w; uuids := uuids w; calls := calls w |}.

(** Stable sort by [timestamp], as [Array.prototype.sort] with the
    comparator [a.timestamp.getTime() - b.timestamp.getTime()]. *)
Fixpoint insert_by_timestamp (m : Message.t) (sorted : list Message.t) : list Message.t :=
  match sorted with
  | [] => [m]
  | m' :: rest =>
      if (Message.timestamp m <=? Message.timestamp m')%Z then m :: m' :: rest
      else m' :: insert_by_timestamp m rest
  end.

Definition sort_by_timestamp (ms : list Message.t) : list Message.t :=
  fold_right insert_by_timestamp [] ms.

(** [xs.slice(-n)] *)
Definition slice_last {A} (n : nat) (xs : list A) : list A :=
  skipn (length xs - n) xs.

(** JavaScript's white space, in UTF-8: [blank s] when [s.trim()] is the
    empty string. *)
Definition white3 (a b c : nat) : bool :=
  ((a =? 225)%nat && (b =? 154)%nat && (c =? 128)%nat) ||                  (* U+1680 *)
  ((a =? 226)%nat && (b =? 128)%nat && (128 <=? c)%nat && (c <=? 138)%nat) ||  (* U+2000 - U+200A *)
  ((a =? 226)%nat && (b =? 128)%nat && ((c =? 168)%nat || (c =? 169)%nat || (c =? 175)%nat)) ||
  ((a =? 226)%nat && (b =? 129)%nat && (c =? 159)%nat) ||                  (* U+205F *)
  ((a =? 227)%nat && (b =? 128)%nat && (c =? 128)%nat) ||                  (* U+3000 *)
  ((a =? 239)%nat && (b =? 187)%nat && (c =? 191)%nat).                    (* U+FEFF *)

Fixpoint blank (s : string) : bool :=
  match s with
  | EmptyString => true
  | String c1 r1 =>
      let a := nat_of_ascii c1 in
      if ((9 <=? a)%nat && (a <=? 13)%nat) || (a =? 32)%nat then blank r1
      else
        match r1 with
        | EmptyString => false
        | String c2 r2 =>
            let b := nat_of_ascii c2 in
            if (a =? 194)%nat && (b =? 160)%nat then blank r2            (* U+00A0 *)
            else
              match r2 with
              | EmptyString => false
              | String c3 r3 =>
                  if white3 a b (nat_of_ascii c3) then blank r3 else false
              end
        end
  end.

(** ** The hub, [server/routes.ts] *)

Section Hub.

Variable env : Env.

(** [new Date()]: the clock moves on by what elapsed since its last
    reading. *)
Definition Date_now : M Z :=
  fun w =>
    let t := (clock w + Z.of_N (elapsed env (reads w)))%Z in
    {| ret := Ok t;
       after := {| clients := clients w; storage := storage w;
                   audioProcessor := audioProcessor w;
                   clock := t; reads := S (reads w); uuids := uuids w; calls := calls w |};
       sent := [] |}.

Definition fresh_uuid : M string :=
  fun w =>
    {| ret := Ok (randomUUID env (uuids w));
       after := {| clients := clients w; storage := storage w;
                   audioProcessor := audioProcessor w;
                   clock := clock w; reads := reads w; uuids := S (uuids w); calls := calls w |};
       sent := [] |}.

(** A call to an OpenAI service: logged, then answered by [env]. *)
Definition call_service {A} (c : call) (answer : result A) : M A :=
  fun w =>
    {| ret := answer;
       after := {| clients := clients w; storage := storage w;
                   audioProcessor := audioProcessor w;
                   clock := clock w; reads := reads w; uuids := uuids w;
                   calls := (calls w ++ [c])%list |};
       sent := [] |}.

(** *** The methods of [MemStorage] the hub calls *)

Definition getSessionMessages (sessionId : value) : M (list Message.t) :=
  w <- get_world ;;
  pure (sort_by_timestamp
          (filter (fun m => strict_eq (Message.sessionId m) sessionId)
                  (map snd (MemStorage.messages (storage w))))).

Definition getSessionSpeakers (sessionId : value) : M (list Speaker.t) :=
  w <- get_world ;;
  pure (filter (fun s => strict_eq (VStr (Speaker.sessionId s)) sessionId)
               (map snd (MemStorage.speakers (storage w)))).

Definition getSessionMemory (sessionId : value) : M (option SessionMemory.t) :=
  w <- get_world ;;
  pure (Map.get same_value_zero sessionId (MemStorage.sessionMemories (storage w))).

(** [undefined] when there is none. *)
Definition getAIPersonality (sessionId : value) : M value :=
  w <- get_world ;;
  pure (match Map.get same_value_zero sessionId (MemStorage.aiPersonalities (storage w)) with
        | Some p => p
        | None => VUndefined
        end).

Definition getAnalytics (sessionId : value) : M (option Analytics.t) :=
  w <- get_world ;;
  pure (Map.get same_value_zero sessionId (MemStorage.analytics (storage w))).

Definition createMessage (insertMessage : InsertMessage.t) : M Message.t :=
  id <- fresh_uuid ;;
  now <- Date_now ;;
  let message :=
    {| Message.id := id;
       Message.sessionId := InsertMessage.sessionId insertMessage;
       Message.speakerId := InsertMessage.speakerId insertMessage;
       Message.content := InsertMessage.content insertMessage;
       Message.timestamp := now;
       Message.metadata := or (InsertMessage.metadata insertMessage) VNull;
       Message.confidence := num_or_null (InsertMessage.confidence insertMessage);
       Message.isAIGenerated :=
         Some (match InsertMessage.isAIGenerated insertMessage with
               | Some b => b
               | None => false
               end) |} in
  w <- get_world ;;
  let s := storage w in
  put_world (with_storage
    {| MemStorage.speakers := MemStorage.speakers s;
       MemStorage.messages := Map.set String.eqb id message (MemStorage.messages s);
       MemStorage.sessionMemories := MemStorage.sessionMemories s;
       MemStorage.aiPersonalities := MemStorage.aiPersonalities s;
       MemStorage.analytics := MemStorage.analytics s |} w) ;;;
  pure message.

Definition upsertAnalytics (insertAnalytics : InsertAnalytics.t) : M Analytics.t :=
  w0 <- get_world ;;
  let key := InsertAnalytics.sessionId insertAnalytics in
  let existing := Map.get same_value_zero key (MemStorage.analytics (storage w0)) in
  id <- (match existing with
         | Some a => if String.eqb (Analytics.id a) "" then fresh_uuid else pure (Analytics.id a)
         | None => fresh_uuid
         end) ;;
  now <- Date_now ;;
  let analytics :=
    {| Analytics.id := id;
       Analytics.sessionId := key;
       Analytics.updatedAt := Some now;
       Analytics.aiSpeakingTime := Some (num_or (InsertAnalytics.aiSpeakingTime insertAnalytics) 0);
       Analytics.totalResponses := Some (num_or (InsertAnalytics.totalResponses insertAnalytics) 0);
       Analytics.avgResponseTime := Some (num_or (InsertAnalytics.avgResponseTime insertAnalytics) 0);
       Analytics.interrupts := Some (num_or (InsertAnalytics.interrupts insertAnalytics) 0);
       Analytics.jokeSuccessRate := Some (num_or (InsertAnalytics.jokeSuccessRate insertAnalytics) 0) |} in
  w <- get_world ;;
  let s := storage w in
  put_world (with_storage
    {| MemStorage.speakers := MemStorage.speakers s;
       MemStorage.messages := MemStorage.messages s;
       MemStorage.sessionMemories := MemStorage.sessionMemories s;
       MemStorage.aiPersonalities := MemStorage.aiPersonalities s;
       MemStorage.analytics := Map.set same_value_zero key analytics (MemStorage.analytics s) |} w) ;;;
  pure analytics.

Definition upsertAIPersonality (insertPersonality : value) : M value :=
  w0 <- get_world ;;
  let key := prop insertPersonality "sessionId" in
  let existing :=
    match Map.get same_value_zero key (MemStorage.aiPersonalities (storage w0)) with
    | Some p => p
    | None => VUndefined
    end in
  id <- (if truthy (opt_prop existing "id") then pure (opt_prop existing "id")
         else (u <- fresh_uuid ;; pure (VStr u))) ;;
  now <- Date_now ;;
  let personality :=
    obj (set_fields
           [("id", id);
            ("updatedAt", VDate 0 now);
            ("voiceType", or (prop insertPersonality "voiceType") (VStr "energetic-podcaster"));
            ("comedyLevel", or (prop insertPersonality "comedyLevel") (VNum 60));
            ("researchLevel", or (prop insertPersonality "researchLevel") (VNum 40));
            ("energyLevel", or (prop insertPersonality "energyLevel") (VNum 75));
            ("responseStyle", or (prop insertPersonality "responseStyle") (VStr "conversational"))]
           (own_props insertPersonality)) in
  w <- get_world ;;
  let s := storage w in
  put_world (with_storage
    {| MemStorage.speakers := MemStorage.speakers s;
       MemStorage.messages := MemStorage.messages s;
       MemStorage.sessionMemories := MemStorage.sessionMemories s;
       MemStorage.aiPersonalities :=
         Map.set same_value_zero key personality (MemStorage.aiPersonalities s);
       MemStorage.analytics := MemStorage.analytics s |} w) ;;;
  pure personality.

(** *** Fan-out *)

Definition in_session (sessionId : value) (entry : string * WebSocketClient.t) : bool :=
  strict_eq (WebSocketClient.sessionId (snd entry)) sessionId && is_OPEN (WebSocketClient.ws (snd entry)).

Definition not_excluded (excludeClientId : option string) (entry : string * WebSocketClient.t) : bool :=
  match excludeClientId with
  | Some e => negb (String.eqb (fst entry) e)
  | None => true
  end.

Definition of_kind (kind : string) (entry : string * WebSocketClient.t) : bool :=
  strict_eq (WebSocketClient.clientType (snd entry)) (VStr kind).

Definition broadcast (message : value) : M unit :=
  w <- get_world ;;
  send_all (map fst (filter (fun entry => is_OPEN (WebSocketClient.ws (snd entry))) (clients w))) message.

Definition broadcastToSession (sessionId : value) (message : value)
    (excludeClientId : option string) : M unit :=
  w <- get_world ;;
  send_all
    (map fst (filter (fun entry => in_session sessionId entry && not_excluded excludeClientId entry)
                     (clients w)))
    message.

Definition broadcastToBrowserClients (sessionId : value) (message : value) : M unit :=
  w <- get_world ;;
  send_all
    (map fst (filter (fun entry =>
                        strict_eq (WebSocketClient.sessionId (snd entry)) sessionId &&
                        of_kind "browser" entry && is_OPEN (WebSocketClient.ws (snd entry)))
                     (clients w)))
    message.

Definition broadcastToDesktopClients (sessionId : value) (message : value) : M unit :=
  w <- get_world ;;
  send_all
    (map fst (filter (fun entry =>
                        strict_eq (WebSocketClient.sessionId (snd entry)) sessionId &&
                        of_kind "desktop" entry && is_OPEN (WebSocketClient.ws (snd entry)))
                     (clients w)))
    message.

(** *** The AI response orchestrator *)

(** [const context = { ... }] of [handleAIResponseRequest]. *)
Definition conversation_context (recentMessages : list Message.t) (personality : value)
    (memory : option SessionMemory.t) : ConversationContext.t :=
  {| ConversationContext.topics :=
       or (match memory with Some m => SessionMemory.topics m | None => VUndefined end)
          (arr []);
     ConversationContext.speakerNotes :=
       or (match memory with Some m => SessionMemory.speakerNotes m | None => VUndefined end)
          (obj []);
     ConversationContext.runningJokes :=
       match memory with
       | Some m => match SessionMemory.runningJokes m with Some jokes => jokes | None => [] end
       | None => []
       end;
     ConversationContext.recentMessages :=
       map (fun m => {| ConversationContext.speaker := Message.speakerId m;
                        ConversationContext.content := Message.content m;
                        ConversationContext.timestamp := Message.timestamp m |})
           recentMessages;
     ConversationContext.personality :=
       {| ConversationContext.voiceType :=
            or (opt_prop personality "voiceType") (VStr "energetic-podcaster");
          ConversationContext.comedyLevel := or (opt_prop personality "comedyLevel") (VNum 60);
          ConversationContext.researchLevel := or (opt_prop personality "researchLevel") (VNum 40);
          ConversationContext.energyLevel := or (opt_prop personality "energyLevel") (VNum 75);
          ConversationContext.responseStyle :=
            or (opt_prop personality "responseStyle") (VStr "conversational") |} |}.

(** The steps of [handleAIResponseRequest] that follow the generation:
    persist the reply, synthesize it, broadcast it, update the analytics. *)
Definition respond_with (sessionId : value) (context : ConversationContext.t)
    (generated : string * float) : M unit :=
  let response := fst generated in
  let confidence := snd generated in
  (* Create AI message *)
  speakers <- getSessionSpeakers sessionId ;;
  match find (fun s => match Speaker.isAI s with Some b => b | None => false end) speakers with
  | Some aiSpeaker =>
      aiMessage <- createMessage
        {| InsertMessage.sessionId := sessionId;
           InsertMessage.speakerId := Speaker.id aiSpeaker;
           InsertMessage.content := response;
           InsertMessage.confidence := Some confidence;
           InsertMessage.isAIGenerated := Some true;
           InsertMessage.metadata := VUndefined |} ;;
      (* Generate speech audio *)
      let voice := ConversationContext.voiceType (ConversationContext.personality context) in
      audioBuffer <- call_service (SynthesizeSpeech response voice)
                       (synthesizeSpeech env response voice) ;;
      broadcastToSession sessionId
        (obj [("type", VStr "aiResponse");
              ("data", obj [("message", Message.to_value aiMessage);
                            ("audio", VStr (Buffer_to_base64 env audioBuffer))])])
        None ;;;
      (* Update analytics *)
      analytics <- getAnalytics sessionId ;;
      match analytics with
      | Some a =>
          upsertAnalytics
            {| InsertAnalytics.sessionId := sessionId;
               InsertAnalytics.totalResponses :=
                 Some (num_or (Analytics.totalResponses a) 0 + 1)%float;
               InsertAnalytics.avgResponseTime := Some (confidence * 2)%float;
               InsertAnalytics.aiSpeakingTime := Analytics.aiSpeakingTime a;
               InsertAnalytics.interrupts := Analytics.interrupts a;
               InsertAnalytics.jokeSuccessRate := Analytics.jokeSuccessRate a |} ;;;
          pure tt
      | None => pure tt
      end
  | None => pure tt
  end.

Definition handleAIResponseRequest (client : WebSocketClient.t) (message : value) : M unit :=
  let sessionId := WebSocketClient.sessionId client in
  if negb (truthy sessionId) then pure tt
  else
    try_catch
      (messages <- getSessionMessages sessionId ;;
       let recentMessages := slice_last 10 messages in
       personality <- getAIPersonality sessionId ;;
       memory <- getSessionMemory sessionId ;;
       let context := conversation_context recentMessages personality memory in
       let recentTranscript := or (prop message "transcript") (VStr "") in
       generated <- call_service (GenerateAIResponse recentTranscript context)
                      (generateAIResponse env recentTranscript context) ;;
       respond_with sessionId context generated)
      (fun error =>
         send (WebSocketClient.clientId client)
              (obj [("type", VStr "error"); ("message", VStr (error_message error))])).

Definition handleHotkey (client : WebSocketClient.t) (message : value) : M unit :=
  let sessionId := WebSocketClient.sessionId client in
  if negb (truthy sessionId) then pure tt
  else
    let key := prop message "key" in
    let command := prop message "command" in
    broadcastToSession sessionId
      (obj [("type", VStr "hotkeyTriggered");
            ("data", obj [("key", key); ("command", command)])])
      None ;;;
    (* Handle specific hotkey commands *)
    if strict_eq command (VStr "riff") then
      handleAIResponseRequest client
        (obj [("transcript", VStr "Continue with a creative riff on the current topic")])
    else if strict_eq command (VStr "oneLiner") then
      handleAIResponseRequest client
        (obj [("transcript", VStr "Respond with just a quick one-liner")])
    else if strict_eq command (VStr "wrap") then
      handleAIResponseRequest client
        (obj [("transcript", VStr "Help wrap up this topic in the next 10 seconds")])
    else pure tt.

Definition handlePersonalityUpdate (client : WebSocketClient.t) (message : value) : M unit :=
  let sessionId := WebSocketClient.sessionId client in
  if negb (truthy sessionId) then pure tt
  else
    try_catch
      (personality <- upsertAIPersonality
         (obj (set_fields (own_props (prop message "personality")) [("sessionId", sessionId)])) ;;
       broadcastToSession sessionId
         (obj [("type", VStr "personalityUpdated"); ("data", personality)])
         None)
      (fun _ => pure tt).

(** *** The listeners on the audio processor *)

Fixpoint for_each {A} (f : A -> M unit) (xs : list A) : M unit :=
  match xs with
  | [] => pure tt
  | x :: rest => f x ;;; for_each f rest
  end.

Definition on_audio_event (e : AudioProcessor.event) : M unit :=
  match e with
  | AudioProcessor.audioLevel level =>
      broadcast (obj [("type", VStr "audioLevel"); ("data", VNum level)])
  | AudioProcessor.audioReady audioData =>
      try_catch
        (transcribed <- call_service (TranscribeAudio audioData) (transcribeAudio env audioData) ;;
         let text := fst transcribed in
         let confidence := snd transcribed in
         if negb (blank text) then
           broadcast
             (obj [("type", VStr "transcription");
                   ("data", obj [("text", VStr text);
                                 ("confidence",
                                  match confidence with Some c => VNum c | None => VUndefined end)])])
         else pure tt)
        (fun _ => pure tt)
  | _ => pure tt
  end.

(** [audioProcessor.processAudioChunk(chunk)], its listeners included. *)
Definition processAudioChunk (chunk : Buffer) : M unit :=
  w <- get_world ;;
  let '(returned, (a, events)) :=
    AudioProcessor.processAudioChunk (decibels env) chunk (audioProcessor w) in
  put_world (with_audioProcessor a w) ;;;
  for_each on_audio_event events ;;;
  lift returned.

(** *** Ingress *)

Definition type_is (message : value) (t : string) : bool :=
  strict_eq (prop message "type") (VStr t).

Definition set_client (clientId : string) (client : WebSocketClient.t) : M unit :=
  w <- get_world ;;
  put_world (with_clients (Map.set String.eqb clientId client (clients w)) w).

(** The legacy dialect: neither [source] nor [timestamp]. *)
Definition is_legacy (message : value) : bool :=
  negb (truthy (prop message "source")) && negb (truthy (prop message "timestamp")).

(** "Convert legacy format to new protocol format". *)
Definition normalize (client : WebSocketClient.t) (message : value) : M value :=
  if is_legacy message then
    let legacyMessage := message in
    now <- Date_now ;;
    pure (obj [("type", prop legacyMessage "type");
               ("source", or (WebSocketClient.clientType client) (VStr "browser"));
               ("data", or (prop legacyMessage "data") legacyMessage);
               ("timestamp", VStr (Date.toISOString now))])
  else pure message.

(** [message.timestamp || new Date().toISOString()] *)
Definition timestamp_or_now (message : value) : M value :=
  if truthy (prop message "timestamp") then pure (prop message "timestamp")
  else (now <- Date_now ;; pure (VStr (Date.toISOString now))).

(** [{ type, source, data: message.data, timestamp: message.timestamp || now }] *)
Definition forwarded (type : string) (source : value) (message : value) : M value :=
  stamp <- timestamp_or_now message ;;
  pure (obj [("type", VStr type); ("source", source);
             ("data", prop message "data"); ("timestamp", stamp)]).

Definition with_join (sessionId isHost clientType : value) (client : WebSocketClient.t)
  : WebSocketClient.t :=
  {| WebSocketClient.ws := WebSocketClient.ws client;
     WebSocketClient.sessionId := sessionId;
     WebSocketClient.isHost := isHost;
     WebSocketClient.clientType := clientType;
     WebSocketClient.clientId := WebSocketClient.clientId client |}.

(** The [switch (message.type)] of [handleWebSocketMessage], on the
    normalized message. *)
Definition dispatch (clientId : string) (client : WebSocketClient.t) (message : value) : M unit :=
  if type_is message "joinSession" then
    let client' :=
      with_join
        (or (prop message "sessionId") (opt_prop (prop message "data") "sessionId"))
        (or (or (prop message "isHost") (opt_prop (prop message "data") "isHost")) (VBool false))
        (or (or (prop message "clientType") (opt_prop (prop message "data") "clientType"))
            (VStr "browser"))
        client in
    set_client clientId client' ;;;
    (* Notify other clients about new connection *)
    if truthy (WebSocketClient.sessionId client') then
      now <- Date_now ;;
      broadcastToSession (WebSocketClient.sessionId client')
        (obj [("type", VStr "status"); ("source", VStr "server");
              ("data", obj [("status", VStr "client_connected");
                            ("clientType", WebSocketClient.clientType client');
                            ("clientId", VStr clientId)]);
              ("timestamp", VStr (Date.toISOString now))])
        (Some clientId)
    else pure tt
  else if type_is message "desktop_connect" then
    (* Desktop client connection *)
    let client' :=
      with_join (opt_prop (prop message "data") "sessionId")
                (WebSocketClient.isHost client) (VStr "desktop") client in
    set_client clientId client' ;;;
    (* Notify browser clients about desktop connection *)
    if truthy (WebSocketClient.sessionId client') then
      now <- Date_now ;;
      broadcastToBrowserClients (WebSocketClient.sessionId client')
        (obj [("type", VStr "status"); ("source", VStr "server");
              ("data", obj [("status", VStr "desktop_connected");
                            ("sessionId", WebSocketClient.sessionId client')]);
              ("timestamp", VStr (Date.toISOString now))])
    else pure tt
  else if type_is message "transcript" then
    (* Desktop sends transcript -> forward to browser *)
    if strict_eq (WebSocketClient.clientType client) (VStr "desktop")
       && truthy (WebSocketClient.sessionId client) then
      transcriptMessage <- forwarded "transcript" (VStr "desktop") message ;;
      broadcastToBrowserClients (WebSocketClient.sessionId client) transcriptMessage
    else pure tt
  else if type_is message "ai_response" then
    (* Browser sends AI response -> forward to desktop for TTS *)
    if strict_eq (WebSocketClient.clientType client) (VStr "browser")
       && truthy (WebSocketClient.sessionId client) then
      aiResponseMessage <- forwarded "ai_response" (VStr "browser") message ;;
      broadcastToDesktopClients (WebSocketClient.sessionId client) aiResponseMessage
    else pure tt
  else if type_is message "control_command" then
    (* Browser sends control command -> forward to desktop *)
    if strict_eq (WebSocketClient.clientType client) (VStr "browser")
       && truthy (WebSocketClient.sessionId client) then
      controlMessage <- forwarded "control_command" (VStr "browser") message ;;
      broadcastToDesktopClients (WebSocketClient.sessionId client) controlMessage
    else pure tt
  else if type_is message "audio_levels" then
    (* Desktop sends audio levels -> forward to browser *)
    if strict_eq (WebSocketClient.clientType client) (VStr "desktop")
       && truthy (WebSocketClient.sessionId client) then
      audioLevelMessage <- forwarded "audio_levels" (VStr "desktop") message ;;
      broadcastToBrowserClients (WebSocketClient.sessionId client) audioLevelMessage
    else pure tt
  else if type_is message "status" then
    (* Forward status updates between clients *)
    if truthy (WebSocketClient.sessionId client) then
      statusMessage <- forwarded "status"
        (or (or (prop message "source") (WebSocketClient.clientType client)) (VStr "browser"))
        message ;;
      broadcastToSession (WebSocketClient.sessionId client) statusMessage (Some clientId)
    else pure tt
  (* Legacy message types for backwards compatibility *)
  else if type_is message "audioData" then
    if truthy (prop message "data") then
      audioBuffer <- lift (Buffer_from_base64 env (prop message "data")) ;;
      processAudioChunk audioBuffer
    else pure tt
  else if type_is message "requestAIResponse" then
    handleAIResponseRequest client message
  else if type_is message "hotkey" then
    handleHotkey client message
  else if type_is message "updatePersonality" then
    handlePersonalityUpdate client message
  else pure tt.

Definition handleWebSocketMessage (clientId : string) (message : value) : M unit :=
  w <- get_world ;;
  match Map.get String.eqb clientId (clients w) with
  | None => pure tt
  | Some client =>
      if negb (is_OPEN (WebSocketClient.ws client)) then pure tt
      else if nullish message then
        (* message.source on null *)
        throw (Error "Cannot read properties of null (reading 'source')")
      else
        (* Handle legacy message format for backwards compatibility *)
        message' <- normalize client message ;;
        dispatch clientId client message'
  end.

(** [ws.on('message', ...)]: [data] is the outcome of
    [JSON.parse(data.toString())]. *)
Definition on_message (clientId : string) (data : result value) : M unit :=
  try_catch
    (message <- lift data ;;
     handleWebSocketMessage clientId message)
    (fun error =>
       now <- Date_now ;;
       send clientId
         (obj [("type", VStr "error"); ("source", VStr "server");
               ("data", obj [("message", VStr (error_message error))]);
               ("timestamp", VStr (Date.toISOString now))])).

(** [ws.on('close', ...)] *)
Definition on_close (clientId : string) : M unit :=
  w <- get_world ;;
  match Map.get String.eqb clientId (clients w) with
  | Some client =>
      (if truthy (WebSocketClient.sessionId client) then
         (* Notify other clients about disconnection *)
         now <- Date_now ;;
         broadcastToSession (WebSocketClient.sessionId client)
           (obj [("type", VStr "status"); ("source", VStr "server");
                 ("data", obj [("status", VStr "client_disconnected");
                               ("clientType", WebSocketClient.clientType client);
                               ("clientId", VStr clientId)]);
                 ("timestamp", VStr (Date.toISOString now))])
           (Some clientId)
       else pure tt)
  | None => pure tt
  end ;;;
  w' <- get_world ;;
  put_world (with_clients (Map.delete String.eqb clientId (clients w')) w').

(** [wss.on('connection', ...)], for the identifier drawn for the new
    connection. *)
Definition on_connection (clientId : string) : M unit :=
  set_client clientId
    {| WebSocketClient.ws := OPEN;
       WebSocketClient.sessionId := VUndefined;
       WebSocketClient.isHost := VUndefined;
       WebSocketClient.clientType := VUndefined;
       WebSocketClient.clientId := clientId |} ;;;
  (* Send connection confirmation *)
  now <- Date_now ;;
  send clientId
    (obj [("type", VStr "connected"); ("source", VStr "server");
          ("data", obj [("clientId", VStr clientId)]);
          ("timestamp", VStr (Date.toISOString now))]).

(** What reaches the hub from a transport. *)
Inductive input : Type :=
| Connection (clientId : string)
| Frame (clientId : string) (data : result value)
| Close (clientId : string).

Definition step (i : input) : M unit :=
  match i with
  | Connection clientId => on_connection clientId
  | Frame clientId data => on_message clientId data
  | Close clientId => on_close clientId
  end.

End Hub.

(** ** Vocabulary of the statements *)

(** The messages written to the socket of connection [k], in order. *)
Definition deliveries_to (k : string) (ds : list delivery) : list value :=
  map snd (filter (fun d => String.eqb (fst d) k) ds).

(** Whether the registry entry filed under [k] satisfies [p]. *)
Definition registered (cs : list (string * WebSocketClient.t))
    (p : string * WebSocketClient.t -> bool) (k : string) : bool :=
  match Map.get String.eqb k cs with
  | Some c => p (k, c)
  | None => false
  end.

(** What normalization leaves in [data]. *)
Definition payload (frame : value) : value :=
  if is_legacy frame then or (prop frame "data") frame else prop frame "data".

(** The registry is a [Map]: one entry per key. *)
Definition wf_registry (cs : list (string * WebSocketClient.t)) : Prop :=
  NoDup (map fst cs).

(** Only the clock moved between two worlds. *)
Definition ticked (w w1 : World) : Prop :=
  clients w1 = clients w /\ storage w1 = storage w /\
  audioProcessor w1 = audioProcessor w /\ uuids w1 = uuids w /\
  calls w1 = calls w /\ (clock w <= clock w1)%Z.

(** The message [dispatch] sees for a frame read at time [now]. *)
Definition normalized (client : WebSocketClient.t) (frame : value) (now : Z) : value :=
  if is_legacy frame then
    obj [("type", prop frame "type");
         ("source", or (WebSocketClient.clientType client) (VStr "browser"));
         ("data", or (prop frame "data") frame);
         ("timestamp", VStr (Date.toISOString now))]
  else frame.

(** The number of bytes held in a sequence of chunks, and the bytes. *)
Definition total (chunks : list Buffer) : Z :=
  fold_left (fun total chunk => (total + Z.of_nat (length (bytes chunk)))%Z) chunks 0%Z.

Definition contents (chunks : list Buffer) : list Byte.byte := concat (map bytes chunks).

(** A chunk whose level can be computed: it starts at a multiple of the
    two bytes of a sample. *)
Definition aligned (chunk : Buffer) : bool := N.even (byteOffset chunk).

(** A chunk of [n] bytes [b] at the start of a store of its own, as
    [Buffer.alloc(n, b)] gives, and one that starts at the second byte of
    its store, as [Buffer.alloc(n + 1, b).subarray(1)] gives. *)
Definition chunk_of (n : N) (b : Byte.byte) : Buffer :=
  {| byteOffset := 0; bytes := repeat b (N.to_nat n) |}.

Definition odd_chunk_of (n : N) (b : Byte.byte) : Buffer :=
  {| byteOffset := 1; bytes := repeat b (N.to_nat n) |}.

(** The bound on what the accumulator holds. *)
Definition bounded (s : AudioProcessor.t) : Prop :=
  (AudioProcessor.getTotalBufferSize s < AudioProcessor.CHUNK_SIZE * 10)%Z.

(** An operation whose chunk, if it has one, is aligned. *)
Definition aligned_op (o : AudioProcessor.op) : bool :=
  match o with AudioProcessor.Chunk chunk => aligned chunk | _ => true end.

(** An accumulator that is not processing holds nothing. *)
Definition idle_empty (s : AudioProcessor.t) : Prop :=
  AudioProcessor.isProcessing s = false -> AudioProcessor.audioBuffer s = [].

(** What line 41 of [calculateAudioLevel] throws at a chunk that is not
    aligned. *)
Definition unaligned_error : exn :=
  Error "start offset of Int16Array should be a multiple of 2".

(** ** Scenarios *)

(** A connection that has joined [session] as [kind], and one that has
    not joined yet. *)
Definition joined (id kind session : string) : WebSocketClient.t :=
  {| WebSocketClient.ws := OPEN;
     WebSocketClient.sessionId := VStr session;
     WebSocketClient.isHost := VBool false;
     WebSocketClient.clientType := VStr kind;
     WebSocketClient.clientId := id |}.

Definition unjoined (id : string) : WebSocketClient.t :=
  {| WebSocketClient.ws := OPEN;
     WebSocketClient.sessionId := VUndefined;
     WebSocketClient.isHost := VUndefined;
     WebSocketClient.clientType := VUndefined;
     WebSocketClient.clientId := id |}.

(** A repository holding the AI speaker of session "s1". *)
Definition one_ai_speaker : MemStorage.t :=
  {| MemStorage.speakers :=
       [("sp-ai",
         {| Speaker.id := "sp-ai"; Speaker.sessionId := "s1"; Speaker.name := "AI Cohost";
            Speaker.handle := Some "@aicohost"; Speaker.isHost := Some false;
            Speaker.isGuest := Some false; Speaker.isAI := Some true;
            Speaker.avatar := None; Speaker.joinedAt := Some 1762041000000%Z |})];
     MemStorage.messages := [];
     MemStorage.sessionMemories := [];
     MemStorage.aiPersonalities := [];
     MemStorage.analytics := [] |}.

(** Desktop A and browser B in session "s1", browser C in session "s2",
    D connected but not joined; 2025-11-02T00:00:00Z. *)
Definition studio : World :=
  {| clients := [("A", joined "A" "desktop" "s1"); ("B", joined "B" "browser" "s1");
                 ("C", joined "C" "browser" "s2"); ("D", unjoined "D")];
     storage := one_ai_speaker;
     audioProcessor := AudioProcessor.init;
     clock := 1762041600000;
     reads := 0; uuids := 0; calls := [] |}.

(** Services that answer, and services whose generator is down. *)
Definition answering : Env :=
  {| generateAIResponse := fun _ _ => Ok ("I see what you mean!", 0.8%float);
     synthesizeSpeech :=
       fun _ _ => Ok {| byteOffset := 0; bytes := [Byte.x52; Byte.x49; Byte.x46; Byte.x46] |};
     transcribeAudio := fun _ => Ok ("hello", Some 0.95%float);
     Buffer_from_base64 := fun _ => Ok {| byteOffset := 0; bytes := [] |};
     Buffer_to_base64 := fun _ => "UklGRg==";
     decibels := fun _ => (-60)%float;
     randomUUID := fun n => String.append "uuid-" (decimal n);
     elapsed := fun _ => 1%N |}.

Definition generator_down : Env :=
  {| generateAIResponse :=
       fun _ _ => Throw (Error "Failed to generate AI response: Connection error.");
     synthesizeSpeech := synthesizeSpeech answering;
     transcribeAudio := transcribeAudio answering;
     Buffer_from_base64 := Buffer_from_base64 answering;
     Buffer_to_base64 := Buffer_to_base64 answering;
     decibels := decibels answering;
     randomUUID := randomUUID answering;
     elapsed := elapsed answering |}.

(** Frames, as [JSON.parse] returns them. *)

(** [{type:"status", status:"x"}] *)
Definition status_x_frame : value :=
  VObj 1 [("type", VStr "status"); ("status", VStr "x")].

(** [{type:"audioData", data:""}] *)
Definition empty_audio_frame : value :=
  VObj 1 [("type", VStr "audioData"); ("data", VStr "")].

(** A [joinSession] in the typed dialect with other values at the top
    level than in [data]. *)
Definition hybrid_join_frame : value :=
  VObj 1 [("type", VStr "joinSession"); ("source", VStr "browser");
          ("timestamp", VStr "2025-11-02T00:00:00.000Z");
          ("sessionId", VStr "s2"); ("clientType", VStr "desktop"); ("isHost", VBool true);
          ("data", VObj 2 [("sessionId", VStr "s1"); ("clientType", VStr "browser");
                           ("isHost", VBool false)])].

(** The join the browser hook sends:
    [{type:"joinSession", sessionId:"s1", clientType:"browser", isHost:true}] *)
Definition join_s1_frame : value :=
  VObj 1 [("type", VStr "joinSession"); ("sessionId", VStr "s1");
          ("clientType", VStr "browser"); ("isHost", VBool true)].

(** [{type:"desktop_connect", source:"desktop", data:{sessionId:"s1"}, timestamp}] *)
Definition desktop_connect_frame : value :=
  VObj 1 [("type", VStr "desktop_connect"); ("source", VStr "desktop");
          ("data", VObj 2 [("sessionId", VStr "s1")]);
          ("timestamp", VStr "2025-11-02T00:00:00.000Z")].

(** [{type:"transcript", source:"desktop", data:{text:"hello", confidence:0.9}, timestamp}] *)
Definition transcript_frame : value :=
  VObj 1 [("type", VStr "transcript"); ("source", VStr "desktop");
          ("data", VObj 2 [("text", VStr "hello"); ("confidence", VNum 0.9)]);
          ("timestamp", VStr "2025-11-02T00:00:00.000Z")].

(** [{type:"requestAIResponse", transcript:"What makes a great podcast?"}] *)
Definition request_frame : value :=
  VObj 1 [("type", VStr "requestAIResponse");
          ("transcript", VStr "What makes a great podcast?")].

(** [{type:"hotkey", source:"browser", timestamp, key:"F1", command:"mute"}] *)
Definition hotkey_frame : value :=
  VObj 1 [("type", VStr "hotkey"); ("source", VStr "browser");
          ("timestamp", VStr "2025-11-02T00:00:00.000Z");
          ("key", VStr "F1"); ("command", VStr "mute")].

(** The context [handleAIResponseRequest] builds from the repository for a
    session, and the transcript it passes on for a message. *)
Definition context_at (s : MemStorage.t) (sessionId : value) : ConversationContext.t :=
  conversation_context
    (slice_last 10
       (sort_by_timestamp
          (filter (fun m => strict_eq (Message.sessionId m) sessionId)
                  (map snd (MemStorage.messages s)))))
    (match Map.get same_value_zero sessionId (MemStorage.aiPersonalities s) with
     | Some p => p
     | None => VUndefined
     end)
    (Map.get same_value_zero sessionId (MemStorage.sessionMemories s)).

Definition transcript_of (message : value) : value :=
  or (prop message "transcript") (VStr "").

(** The world after one more call to a service. *)
Definition logged (c : call) (w : World) : World :=
  {| clients := clients w; storage := storage w; audioProcessor := audioProcessor w;
     clock := clock w; reads := reads w; uuids := uuids w;
     calls := calls w ++ [c] |}.

(** The transcript the generator is given for a frame: the top-level
    [transcript] of a frame that carries [source] or [timestamp]; a frame
    of the legacy dialect is replaced by its envelope, which has none. *)
Definition requested_transcript (frame : value) : value :=
  if is_legacy frame then VStr "" else transcript_of frame.

(** Every message a handler sends satisfies [Q]; a handler only adds to
    the log of service calls. *)
Definition sends_only {A} (Q : value -> Prop) (m : M A) : Prop :=
  forall w, Forall (fun d : delivery => Q (snd d)) (sent (m w)).

Definition calls_grow {A} (m : M A) : Prop :=
  forall w, exists rest, calls (after (m w)) = (calls w ++ rest)%list.

(** A field of a decoded message is there, or is not. *)
Definition present (p : value) (k : string) : Prop := prop p k <> VUndefined.
Definition absent (p : value) (k : string) : Prop := prop p k = VUndefined.

(** The types of the envelopes sent through [ProtocolMessage] objects, and
    of those sent as bare [{type, data}] objects. *)
Definition typed_types : list string :=
  ["connected"; "error"; "status"; "transcript"; "audio_levels"; "ai_response";
   "control_command"].

Definition legacy_types : list string :=
  ["aiResponse"; "hotkeyTriggered"; "personalityUpdated"; "audioLevel"; "transcription"].

(** The input is a frame of the typed dialect that has no [data]. *)
Definition frame_without_data (i : input) : Prop :=
  match i with
  | Frame _ (Ok frame) => is_legacy frame = false /\ prop frame "data" = VUndefined
  | _ => False
  end.

(** The fields of a message the hub sends while it handles input [i]. *)
Definition envelope_for (i : input) (p : value) : Prop :=
  exists type,
    prop p "type" = VStr type /\
    ((In type typed_types /\ present p "source" /\ present p "timestamp" /\
      (present p "data" \/ frame_without_data i)) \/
     (In type legacy_types /\ absent p "source" /\ absent p "timestamp" /\
      present p "data") \/
     (type = "error" /\ absent p "source" /\ absent p "timestamp" /\
      absent p "data" /\ present p "message")).

(** The [hotkeyTriggered] envelopes among some messages. *)
Definition triggered (messages : list value) : list value :=
  filter (fun p => strict_eq (prop p "type") (VStr "hotkeyTriggered")) messages.

(** ** Further parts of the source *)

(** *** Voice activity, [server/services/audio.ts]

    [voiceActivityBuffer] is a field of the same [AudioProcessor]; no other
    method reads or writes it, so it is carried here on its own. *)

Module VoiceActivity.

Definition SPEECH_THRESHOLD : float := (-40)%float.
Definition VAD_BUFFER_SIZE : nat := 10.

(** [audioLevel > SPEECH_THRESHOLD] *)
Definition detectSpeechActivity (audioLevel : float) : bool :=
  PrimFloat.ltb SPEECH_THRESHOLD audioLevel.

(** An array length as a number. *)
Definition number_of_length (n : nat) : float :=
  PrimFloat.of_uint63 (Uint63.of_Z (Z.of_nat n)).

Definition updateVoiceActivity (audioLevel : float) (voiceActivityBuffer : list float)
  : list float * bool :=
  let pushed := (voiceActivityBuffer ++ [audioLevel])%list in
  let window := if Nat.ltb VAD_BUFFER_SIZE (length pushed) then tl pushed else pushed in
  (* Consider speech active if recent average is above threshold *)
  let avgLevel :=
    (fold_left PrimFloat.add window 0 / number_of_length (length window))%float in
  (window, detectSpeechActivity avgLevel).

(** The window after a sequence of levels. *)
Definition feed (audioLevels : list float) (voiceActivityBuffer : list float) : list float :=
  fold_left (fun window audioLevel => fst (updateVoiceActivity audioLevel window))
            audioLevels voiceActivityBuffer.

End VoiceActivity.

(** The levels of the "audioLevel" events of a trace. *)
Fixpoint levels (events : list AudioProcessor.event) : list float :=
  match events with
  | [] => []
  | AudioProcessor.audioLevel l :: rest => l :: levels rest
  | _ :: rest => levels rest
  end.

(** *** The other methods of [MemStorage], [server/storage.ts] *)

Module InsertSpeaker.
Record t := {
  sessionId : string; name : string; handle : option string;
  isHost : option bool; isGuest : option bool; isAI : option bool;
  avatar : option string }.
End InsertSpeaker.

Module InsertSessionMemory.
Record t := {
  sessionId : value; topics : value; speakerNotes : value;
  runningJokes : option (list string); clipMoments : value }.
End InsertSessionMemory.

(** [x || null] on a [string | null | undefined]. *)
Definition str_or_null (x : option string) : option string :=
  match x with
  | Some s => if truthy (VStr s) then Some s else None
  | None => None
  end.

(** [x || false] on a [boolean | null | undefined]. *)
Definition bool_or_false (x : option bool) : bool :=
  match x with
  | Some b => b
  | None => false
  end.

Section Repository.

Variable env : Env.

Definition getMessage (id : string) : M (option Message.t) :=
  w <- get_world ;;
  pure (Map.get String.eqb id (MemStorage.messages (storage w))).

Definition getSpeaker (id : string) : M (option Speaker.t) :=
  w <- get_world ;;
  pure (Map.get String.eqb id (MemStorage.speakers (storage w))).

Definition createSpeaker (insertSpeaker : InsertSpeaker.t) : M Speaker.t :=
  id <- fresh_uuid env ;;
  now <- Date_now env ;;
  let speaker :=
    {| Speaker.id := id;
       Speaker.sessionId := InsertSpeaker.sessionId insertSpeaker;
       Speaker.name := InsertSpeaker.name insertSpeaker;
       Speaker.joinedAt := Some now;
       Speaker.handle := str_or_null (InsertSpeaker.handle insertSpeaker);
       Speaker.isHost := Some (bool_or_false (InsertSpeaker.isHost insertSpeaker));
       Speaker.isGuest := Some (bool_or_false (InsertSpeaker.isGuest insertSpeaker));
       Speaker.isAI := Some (bool_or_false (InsertSpeaker.isAI insertSpeaker));
       Speaker.avatar := str_or_null (InsertSpeaker.avatar insertSpeaker) |} in
  w <- get_world ;;
  let s := storage w in
  put_world (with_storage
    {| MemStorage.speakers := Map.set String.eqb id speaker (MemStorage.speakers s);
       MemStorage.messages := MemStorage.messages s;
       MemStorage.sessionMemories := MemStorage.sessionMemories s;
       MemStorage.aiPersonalities := MemStorage.aiPersonalities s;
       MemStorage.analytics := MemStorage.analytics s |} w) ;;;
  pure speaker.

Definition upsertSessionMemory (insertMemory : InsertSessionMemory.t) : M SessionMemory.t :=
  w0 <- get_world ;;
  let key := InsertSessionMemory.sessionId insertMemory in
  let existing := Map.get same_value_zero key (MemStorage.sessionMemories (storage w0)) in
  id <- (match existing with
         | Some m => if String.eqb (SessionMemory.id m) "" then fresh_uuid env
                     else pure (SessionMemory.id m)
         | None => fresh_uuid env
         end) ;;
  now <- Date_now env ;;
  let memory :=
    {| SessionMemory.id := id;
       SessionMemory.sessionId := key;
       SessionMemory.updatedAt := Some now;
       SessionMemory.topics := or (InsertSessionMemory.topics insertMemory) VNull;
       SessionMemory.speakerNotes := or (InsertSessionMemory.speakerNotes insertMemory) VNull;
       SessionMemory.clipMoments := or (InsertSessionMemory.clipMoments insertMemory) VNull;
       SessionMemory.runningJokes := InsertSessionMemory.runningJokes insertMemory |} in
  w <- get_world ;;
  let s := storage w in
  put_world (with_storage
    {| MemStorage.speakers := MemStorage.speakers s;
       MemStorage.messages := MemStorage.messages s;
       MemStorage.sessionMemories :=
         Map.set same_value_zero key memory (MemStorage.sessionMemories s);
       MemStorage.aiPersonalities := MemStorage.aiPersonalities s;
       MemStorage.analytics := MemStorage.analytics s |} w) ;;;
  pure memory.

End Repository.

(** *** Sessions, [server/storage.ts]

    The map of sessions is read and written by these four methods and
    seeded at start-up; the hub never touches it.  It is carried on its
    own, with the id [randomUUID] draws and the time [new Date()] reads
    as arguments.  A session is a plain object: [updateSession] spreads
    an arbitrary request body into it. *)

Module Sessions.

Definition t : Type := list (string * value).

(** [undefined] when there is none. *)
Definition getSession (id : string) (sessions : t) : value :=
  match Map.get String.eqb id sessions with
  | Some session => session
  | None => VUndefined
  end.

Definition createSession (id : string) (now : Z) (insertSession : value) (sessions : t)
  : t * value :=
  let session :=
    obj (set_fields
           [("id", VStr id);
            ("startTime", VDate 0 now);
            ("endTime", VNull);
            ("listeners", VNum 0);
            ("duration", VNum 0);
            ("metadata", or (prop insertSession "metadata") VNull);
            ("status", or (prop insertSession "status") (VStr "waiting"))]
           (own_props insertSession)) in
  (Map.set String.eqb id session sessions, session).

Definition updateSession (id : string) (updates : value) (sessions : t) : t * value :=
  let session := getSession id sessions in
  if negb (truthy session) then (sessions, VUndefined)
  else
    let updatedSession := obj (set_fields (own_props updates) (own_props session)) in
    (Map.set String.eqb id updatedSession sessions, updatedSession).

Definition getAllSessions (sessions : t) : list value := map snd sessions.

End Sessions.

(** *** The demo data, [server/routes.ts]

    [initializeDemoData] runs once at start-up, before any connection.  It
    takes the map of sessions and returns it as it leaves it.  What
    precedes the first call that could throw is outside the [try] here:
    the [catch] only logs, so the map stays as the assignment left it. *)

Section Demo.

Variable env : Env.

Definition demoSessionId : string := "demo-session-1".

(** [const demoSession = { ... }], created at time [now]. *)
Definition demo_session (now : Z) : value :=
  obj [("id", VStr demoSessionId);
       ("title", VStr "AI Cohost Demo Space");
       ("status", VStr "live");
       ("startTime", VDate 0 now);
       ("endTime", VNull);
       ("listeners", VNum 3);
       ("duration", VNum 0);
       ("metadata", VNull)].

Definition initializeDemoData (sessions : Sessions.t) : M Sessions.t :=
  let existingSession := Sessions.getSession demoSessionId sessions in
  if negb (truthy existingSession) then
    (* Create demo session directly with the ID we want *)
    now <- Date_now env ;;
    let demoSession := demo_session now in
    (* Store directly in memory *)
    let sessions' := Map.set String.eqb demoSessionId demoSession sessions in
    try_catch
      ((* Create demo speakers *)
       hostSpeaker <- createSpeaker env
         {| InsertSpeaker.sessionId := demoSessionId;
            InsertSpeaker.name := "Demo Host";
            InsertSpeaker.handle := Some "@demohost";
            InsertSpeaker.isHost := Some true;
            InsertSpeaker.isGuest := Some false;
            InsertSpeaker.isAI := Some false;
            InsertSpeaker.avatar := None |} ;;
       aiSpeaker <- createSpeaker env
         {| InsertSpeaker.sessionId := demoSessionId;
            InsertSpeaker.name := "AI Cohost";
            InsertSpeaker.handle := Some "@aicohost";
            InsertSpeaker.isHost := Some false;
            InsertSpeaker.isGuest := Some false;
            InsertSpeaker.isAI := Some true;
            InsertSpeaker.avatar := None |} ;;
       (* Initialize AI personality *)
       upsertAIPersonality env
         (obj [("sessionId", VStr demoSessionId);
               ("voiceType", VStr "energetic-podcaster");
               ("comedyLevel", VNum 60);
               ("researchLevel", VNum 40);
               ("energyLevel", VNum 75);
               ("responseStyle", VStr "conversational")]) ;;;
       (* Initialize analytics *)
       upsertAnalytics env
         {| InsertAnalytics.sessionId := VStr demoSessionId;
            InsertAnalytics.aiSpeakingTime := Some 0.25%float;
            InsertAnalytics.totalResponses := Some 5%float;
            InsertAnalytics.avgResponseTime := Some 1.8%float;
            InsertAnalytics.interrupts := Some 1%float;
            InsertAnalytics.jokeSuccessRate := Some 0.8%float |} ;;;
       (* Initialize session memory *)
       upsertSessionMemory env
         {| InsertSessionMemory.sessionId := VStr demoSessionId;
            InsertSessionMemory.topics :=
              arr [obj [("name", VStr "AI Technology"); ("mentions", VNum 3)];
                   obj [("name", VStr "Twitter Spaces"); ("mentions", VNum 2)];
                   obj [("name", VStr "Voice Technology"); ("mentions", VNum 1)]];
            InsertSessionMemory.speakerNotes :=
              obj (set_fields
                     [(Speaker.id hostSpeaker, VStr "Interested in AI applications");
                      (Speaker.id aiSpeaker, VStr "AI cohost personality active")]
                     []);
            InsertSessionMemory.runningJokes :=
              Some ["The AI that never runs out of coffee";
                    "Better response time than humans"];
            InsertSessionMemory.clipMoments :=
              arr [obj [("topic", VStr "AI Technology"); ("timestamp", VStr "00:05:23")];
                   obj [("topic", VStr "Future of Voice"); ("timestamp", VStr "00:12:45")]] |} ;;;
       (* Add some demo messages *)
       createMessage env
         {| InsertMessage.sessionId := VStr demoSessionId;
            InsertMessage.speakerId := Speaker.id hostSpeaker;
            InsertMessage.content :=
              "Welcome everyone to our AI Cohost demo! Today we're exploring the future of voice-enabled AI assistants.";
            InsertMessage.confidence := Some 0.95%float;
            InsertMessage.isAIGenerated := Some false;
            InsertMessage.metadata := VNull |} ;;;
       createMessage env
         {| InsertMessage.sessionId := VStr demoSessionId;
            InsertMessage.speakerId := Speaker.id aiSpeaker;
            InsertMessage.content :=
              "Thanks for having me! I'm excited to demonstrate how AI can enhance live conversations with real-time insights and engaging responses.";
            InsertMessage.confidence := Some 0.92%float;
            InsertMessage.isAIGenerated := Some true;
            InsertMessage.metadata := VNull |} ;;;
       pure sessions')
      (fun _ => pure sessions')
  else pure sessions.

End Demo.

(** *** The hub over a sequence of inputs *)

(** The process as it starts: nobody connected, an empty repository, the
    accumulator as constructed. *)
Definition boot (now : Z) : World :=
  {| clients := []; storage := MemStorage.empty; audioProcessor := AudioProcessor.init;
     clock := now; reads := 0; uuids := 0; calls := [] |}.

Section Inputs.

Variable env : Env.

(** Every input is handled in the world its predecessor left, whatever
    that one's outcome was; the messages sent are collected in order. *)
Fixpoint handle_all (inputs : list input) (w : World) : World * list delivery :=
  match inputs with
  | [] => (w, [])
  | i :: rest =>
      let r := step env i w in
      let (w', later) := handle_all rest (after r) in
      (w', (sent r ++ later)%list)
  end.

End Inputs.

(** ** Further vocabulary *)

(** Every entry of the registry is filed under its own [clientId]. *)
Definition filed (cs : list (string * WebSocketClient.t)) : Prop :=
  Forall (fun entry => WebSocketClient.clientId (snd entry) = fst entry) cs.

(** A handler leaves every world in relation [R] with the world after it. *)
Definition keeps {A} (R : World -> World -> Prop) (m : M A) : Prop :=
  forall w, R w (after (m w)).

(** The order of messages by time. *)
Definition by_timestamp (a b : Message.t) : Prop :=
  (Message.timestamp a <= Message.timestamp b)%Z.

(** The types [handleWebSocketMessage] has a case for. *)
Definition handled_types : list string :=
  ["joinSession"; "desktop_connect"; "transcript"; "ai_response"; "control_command";
   "audio_levels"; "status"; "audioData"; "requestAIResponse"; "hotkey";
   "updatePersonality"].

(** The registry is as it was. *)
Definition same_registry (w w1 : World) : Prop := clients w1 = clients w.

(** If the accumulator was not processing, it is as it was and no audio
    has been sent to transcription since. *)
Definition stays_idle (w w1 : World) : Prop :=
  AudioProcessor.isProcessing (audioProcessor w) = false ->
  audioProcessor w1 = audioProcessor w /\
  forall audioBuffer,
    In (TranscribeAudio audioBuffer) (calls w1) -> In (TranscribeAudio audioBuffer) (calls w).

(** The speakers and the session memories are as they were, and every
    message that was not stored before is marked as generated by the AI.
    The personalities and the analytics are left free. *)
Definition new_messages_ai_marked (w w1 : World) : Prop :=
  MemStorage.speakers (storage w1) = MemStorage.speakers (storage w) /\
  MemStorage.sessionMemories (storage w1) = MemStorage.sessionMemories (storage w) /\
  forall id m,
    Map.get String.eqb id (MemStorage.messages (storage w1)) = Some m ->
    Map.get String.eqb id (MemStorage.messages (storage w)) = Some m \/
    Message.isAIGenerated m = Some true.

(** The registry, the accumulator and the log of service calls are as they
    were. *)
Definition apart (w w1 : World) : Prop :=
  clients w1 = clients w /\ audioProcessor w1 = audioProcessor w /\ calls w1 = calls w.

(** The envelope of the message listener's reply to a failure. *)
Definition error_envelope (message : string) (now : Z) : value :=
  obj [("type", VStr "error"); ("source", VStr "server");
       ("data", obj [("message", VStr message)]);
       ("timestamp", VStr (Date.toISOString now))].

(** The cases of the switch that forward between kinds, besides
    [transcript]: the type, the kind that may send it and the kind it is
    sent to. *)
Definition forwarders : list (string * string * string) :=
  [("ai_response", "browser", "desktop");
   ("control_command", "browser", "desktop");
   ("audio_levels", "desktop", "browser")].

(** The speakers [getSessionSpeakers] returns for a session, and the test
    of the orchestrator's search for the AI speaker among them. *)
Definition session_speakers (s : MemStorage.t) (sessionId : value) : list Speaker.t :=
  filter (fun speaker => strict_eq (VStr (Speaker.sessionId speaker)) sessionId)
         (map snd (MemStorage.speakers s)).

Definition is_ai (speaker : Speaker.t) : bool :=
  match Speaker.isAI speaker with
  | Some b => b
  | None => false
  end.

(** The message [createMessage] makes of a reply in world [w]. *)
Definition reply_message (env : Env) (w : World) (sessionId : value) (aiSpeaker : Speaker.t)
    (response : string) (confidence : float) : Message.t :=
  {| Message.id := randomUUID env (uuids w);
     Message.sessionId := sessionId;
     Message.speakerId := Speaker.id aiSpeaker;
     Message.content := response;
     Message.timestamp := (clock w + Z.of_N (elapsed env (reads w)))%Z;
     Message.metadata := VNull;
     Message.confidence := num_or_null (Some confidence);
     Message.isAIGenerated := Some true |}.

(** What the switch finds under a top-level name [k] of a frame that is
    not one of the envelope's: the frame's own field in the typed dialect;
    nothing in the legacy dialect, where the frame has been replaced by
    its envelope. *)
Definition top_level (frame : value) (k : string) : value :=
  if is_legacy frame then VUndefined else prop frame k.

(** The transcript [handleHotkey] requests a reply for, by command. *)
Definition hotkey_prompt (command : value) : option string :=
  if strict_eq command (VStr "riff") then
    Some "Continue with a creative riff on the current topic"
  else if strict_eq command (VStr "oneLiner") then
    Some "Respond with just a quick one-liner"
  else if strict_eq command (VStr "wrap") then
    Some "Help wrap up this topic in the next 10 seconds"
  else None.

(** The object [handlePersonalityUpdate] passes to the repository:
    [{ sessionId: client.sessionId, ...personality }]. *)
Definition personality_insert (sessionId personality : value) : value :=
  obj (set_fields (own_props personality) [("sessionId", sessionId)]).

(** The record [upsertAIPersonality] builds, for the id it settles on. *)
Definition personality_record (id : value) (now : Z) (insertPersonality : value) : value :=
  obj (set_fields
         [("id", id);
          ("updatedAt", VDate 0 now);
          ("voiceType", or (prop insertPersonality "voiceType") (VStr "energetic-podcaster"));
          ("comedyLevel", or (prop insertPersonality "comedyLevel") (VNum 60));
          ("researchLevel", or (prop insertPersonality "researchLevel") (VNum 40));
          ("energyLevel", or (prop insertPersonality "energyLevel") (VNum 75));
          ("responseStyle", or (prop insertPersonality "responseStyle") (VStr "conversational"))]
         (own_props insertPersonality)).


(** ** Further scenarios *)

(** The studio with a counted record for session "s1". *)
Definition counted : Analytics.t :=
  {| Analytics.id := "an-1"; Analytics.sessionId := VStr "s1";
     Analytics.aiSpeakingTime := Some 0.25%float; Analytics.totalResponses := Some 5%float;
     Analytics.avgResponseTime := Some 1.8%float; Analytics.interrupts := Some 1%float;
     Analytics.jokeSuccessRate := Some 0.8%float; Analytics.updatedAt := Some 1762041000000%Z |}.

Definition with_analytics : World :=
  with_storage
    {| MemStorage.speakers := MemStorage.speakers one_ai_speaker;
       MemStorage.messages := [];
       MemStorage.sessionMemories := [];
       MemStorage.aiPersonalities := [];
       MemStorage.analytics := [(VStr "s1", counted)] |} studio.


(** The AI speaker of [one_ai_speaker]. *)
Definition ai_cohost : Speaker.t :=
  {| Speaker.id := "sp-ai"; Speaker.sessionId := "s1"; Speaker.name := "AI Cohost";
     Speaker.handle := Some "@aicohost"; Speaker.isHost := Some false;
     Speaker.isGuest := Some false; Speaker.isAI := Some true;
     Speaker.avatar := None; Speaker.joinedAt := Some 1762041000000%Z |}.

(** [{type:"hotkey", source:"browser", timestamp, key:"F2", command:"riff"}]
    and the same request in the legacy dialect, its fields under [data]. *)
Definition riff_frame : value :=
  VObj 1 [("type", VStr "hotkey"); ("source", VStr "browser");
          ("timestamp", VStr "2025-11-02T00:00:00.000Z");
          ("key", VStr "F2"); ("command", VStr "riff")].

Definition legacy_riff_frame : value :=
  VObj 1 [("type", VStr "hotkey");
          ("data", VObj 2 [("key", VStr "F2"); ("command", VStr "riff")])].

(** An update of the personality that names another session and a comedy
    level of 0. *)
Definition foreign_personality_frame : value :=
  VObj 1 [("type", VStr "updatePersonality"); ("source", VStr "browser");
          ("timestamp", VStr "2025-11-02T00:00:00.000Z");
          ("personality", VObj 2 [("sessionId", VStr "s2"); ("comedyLevel", VNum 0)])].

(** Services whose synthesizer is down. *)
Definition voiceless : Env :=
  {| generateAIResponse := generateAIResponse answering;
     synthesizeSpeech :=
       fun _ _ => Throw (Error "Failed to synthesize speech: Connection error.");
     transcribeAudio := transcribeAudio answering;
     Buffer_from_base64 := Buffer_from_base64 answering;
     Buffer_to_base64 := Buffer_to_base64 answering;
     decibels := decibels answering;
     randomUUID := randomUUID answering;
     elapsed := elapsed answering |}.
(** * Properties *)

Open Scope list_scope.

(** ** The date rendering on known instants *)

Example iso_epoch : Date.toISOString 0 = "1970-01-01T00:00:00.000Z".
Proof. reflexivity. Qed.

Example iso_2001 : Date.toISOString 1000000000123 = "2001-09-09T01:46:40.123Z".
Proof. reflexivity. Qed.

Example iso_leap_day : Date.toISOString 951782400000 = "2000-02-29T00:00:00.000Z".
Proof. reflexivity. Qed.

Example iso_before_epoch : Date.toISOString (-1) = "1969-12-31T23:59:59.999Z".
Proof. reflexivity. Qed.

(** ** The chunk accumulator *)

Module AudioFacts.
Import AudioProcessor.

Lemma fold_size_shift (chunks : list Buffer) (a : Z) :
  fold_left (fun total chunk => (total + Z.of_nat (length (bytes chunk)))%Z) chunks a
  = (a + total chunks)%Z.
Proof.
  unfold total. revert a.
  induction chunks as [|c chunks IH]; intros a; simpl.
  - lia.
  - rewrite IH, (IH (Z.of_nat (length (bytes c)))). lia.
Qed.

Lemma total_snoc (chunks : list Buffer) (c : Buffer) :
  total (chunks ++ [c]) = (total chunks + Z.of_nat (length (bytes c)))%Z.
Proof.
  unfold total at 1. rewrite fold_left_app. simpl.
  rewrite fold_size_shift. reflexivity.
Qed.

Lemma total_nonneg (chunks : list Buffer) : (0 <= total chunks)%Z.
Proof.
  induction chunks as [|c chunks IH] using rev_ind.
  - unfold total; simpl; lia.
  - rewrite total_snoc. lia.
Qed.

Lemma total_uniform (chunks : list Buffer) (n : Z) :
  Forall (fun c => Z.of_nat (length (bytes c)) = n) chunks ->
  total chunks = (n * Z.of_nat (length chunks))%Z.
Proof.
  induction chunks as [|c chunks IH] using rev_ind; intros H.
  - unfold total; simpl; lia.
  - apply Forall_app in H as [H1 H2]. inversion H2; subst.
    rewrite total_snoc, IH by assumption.
    rewrite length_app. simpl. lia.
Qed.

Lemma size_total (s : t) : getTotalBufferSize s = total (audioBuffer s).
Proof. reflexivity. Qed.

Lemma odd_chunk_length (n : N) (b : Byte.byte) :
  Z.of_nat (length (bytes (odd_chunk_of n b))) = Z.of_N n.
Proof. cbn [odd_chunk_of bytes]. rewrite repeat_length. apply N_nat_Z. Qed.

Section Level.
Variable level : Buffer -> float.

(** The level of an aligned chunk is computed; at any other chunk the
    computation throws. *)
Lemma level_aligned (c : Buffer) :
  aligned c = true -> calculateAudioLevel level c = Ok (level c).
Proof. unfold aligned, calculateAudioLevel. intros ->. reflexivity. Qed.

Lemma level_throws (c : Buffer) :
  aligned c = false -> calculateAudioLevel level c = Throw unaligned_error.
Proof. unfold aligned, calculateAudioLevel. intros ->. reflexivity. Qed.

(** While the accumulator is not processing a chunk is dropped. *)
Lemma chunk_idle (s : t) (c : Buffer) :
  isProcessing s = false -> processAudioChunk level c s = (Ok tt, (s, [])).
Proof. intros Hp. unfold processAudioChunk. rewrite Hp. reflexivity. Qed.

(** One aligned chunk below the threshold is buffered; one that reaches it
    flushes everything buffered, in order. *)
Lemma chunk_buffered (s : t) (c : Buffer) :
  isProcessing s = true ->
  aligned c = true ->
  (total (audioBuffer s ++ [c]) < CHUNK_SIZE * 10)%Z ->
  processAudioChunk level c s
  = (Ok tt,
     ({| isProcessing := true; audioBuffer := audioBuffer s ++ [c] |}, [audioLevel (level c)])).
Proof.
  intros Hp Ha Hlt. unfold processAudioChunk. rewrite Hp, (level_aligned c Ha).
  simpl negb. cbv iota.
  unfold getTotalBufferSize. cbn [audioBuffer]. fold (total (audioBuffer s ++ [c])).
  destruct (Z.leb_spec (CHUNK_SIZE * 10) (total (audioBuffer s ++ [c]))); [lia|].
  reflexivity.
Qed.

Lemma chunk_flushes (s : t) (c : Buffer) :
  isProcessing s = true ->
  aligned c = true ->
  (CHUNK_SIZE * 10 <= total (audioBuffer s ++ [c]))%Z ->
  processAudioChunk level c s
  = (Ok tt,
     ({| isProcessing := true; audioBuffer := [] |},
      [audioLevel (level c); audioReady (Buffer_concat (audioBuffer s ++ [c]))])).
Proof.
  intros Hp Ha Hge. unfold processAudioChunk. rewrite Hp, (level_aligned c Ha).
  simpl negb. cbv iota.
  unfold getTotalBufferSize. cbn [audioBuffer]. fold (total (audioBuffer s ++ [c])).
  destruct (Z.leb_spec (CHUNK_SIZE * 10) (total (audioBuffer s ++ [c]))); [|lia].
  reflexivity.
Qed.

(** A chunk that is not aligned is pushed, and the call throws: no event,
    no flush, whatever is held. *)
Lemma chunk_throws (s : t) (c : Buffer) :
  isProcessing s = true ->
  aligned c = false ->
  processAudioChunk level c s
  = (Throw unaligned_error,
     ({| isProcessing := true; audioBuffer := audioBuffer s ++ [c] |}, [])).
Proof.
  intros Hp Ha. unfold processAudioChunk. rewrite Hp, (level_throws c Ha). reflexivity.
Qed.

Lemma run_app (ops1 ops2 : list op) (s : t) :
  run level (ops1 ++ ops2) s
  = (fst (run level ops2 (fst (run level ops1 s))),
     snd (run level ops1 s) ++ snd (run level ops2 (fst (run level ops1 s)))).
Proof.
  revert s. induction ops1 as [|o ops1 IH]; intros s; simpl.
  - destruct (run level ops2 s); reflexivity.
  - destruct (apply level o s) as [s1 e1]. rewrite IH.
    destruct (run level ops1 s1) as [s2 e2]. simpl.
    rewrite app_assoc. reflexivity.
Qed.

Lemma ready_app (e1 e2 : list event) : ready (e1 ++ e2) = ready e1 ++ ready e2.
Proof.
  induction e1 as [|e e1 IH]; simpl; [reflexivity|].
  destruct e; simpl; rewrite ?IH; reflexivity.
Qed.

(** A chunk that leaves the total below the threshold is held, aligned or
    not, and hands nothing off. *)
Lemma chunk_held (s : t) (c : Buffer) :
  isProcessing s = true ->
  (total (audioBuffer s ++ [c]) < CHUNK_SIZE * 10)%Z ->
  fst (snd (processAudioChunk level c s))
  = {| isProcessing := true; audioBuffer := audioBuffer s ++ [c] |} /\
  ready (snd (snd (processAudioChunk level c s))) = [].
Proof.
  intros Hp Hlt. destruct (aligned c) eqn:Ha.
  - rewrite chunk_buffered by assumption. split; reflexivity.
  - rewrite chunk_throws by assumption. split; reflexivity.
Qed.

(** Feeding fewer chunks of the configured size than the threshold holds
    only buffers them. *)
Lemma run_below_threshold (chunks held : list Buffer) :
  Forall (fun c => Z.of_nat (length (bytes c)) = CHUNK_SIZE) held ->
  Forall (fun c => Z.of_nat (length (bytes c)) = CHUNK_SIZE) chunks ->
  (length held + length chunks < 10)%nat ->
  let r := run level (map Chunk chunks) {| isProcessing := true; audioBuffer := held |} in
  fst r = {| isProcessing := true; audioBuffer := held ++ chunks |} /\ ready (snd r) = [].
Proof.
  revert held.
  induction chunks as [|c chunks IH]; intros held Hheld Hchunks Hlen; simpl.
  - rewrite app_nil_r. split; reflexivity.
  - inversion Hchunks as [|? ? Hc Hrest]; subst.
    assert (Hall : Forall (fun c => Z.of_nat (length (bytes c)) = CHUNK_SIZE) (held ++ [c])).
    { apply Forall_app. split; [assumption | constructor; [assumption | constructor]]. }
    destruct (chunk_held {| isProcessing := true; audioBuffer := held |} c eq_refl)
      as [Hstate Hready].
    { cbn [audioBuffer]. rewrite (total_uniform _ CHUNK_SIZE Hall).
      rewrite length_app. cbn [length] in *. unfold CHUNK_SIZE. lia. }
    destruct (snd (processAudioChunk level c _)) as [s1 e1]. cbn [fst snd] in Hstate, Hready.
    subst s1. cbn [audioBuffer].
    specialize (IH (held ++ [c]) Hall Hrest).
    simpl in IH. rewrite length_app in IH. simpl in IH, Hlen.
    destruct IH as [IH1 IH2]; [lia|].
    destruct (run level (map Chunk chunks) _) as [s2 e2]. simpl in *.
    rewrite IH1, <- app_assoc. split; [reflexivity|].
    rewrite ready_app, Hready, IH2. reflexivity.
Qed.

(** Chunks that are not aligned are only ever held, whatever their number
    and size. *)
Lemma run_unaligned (chunks held : list Buffer) :
  Forall (fun c => aligned c = false) chunks ->
  run level (map Chunk chunks) {| isProcessing := true; audioBuffer := held |}
  = ({| isProcessing := true; audioBuffer := held ++ chunks |}, []).
Proof.
  revert held. induction chunks as [|c chunks IH]; intros held Hall; simpl.
  - rewrite app_nil_r. reflexivity.
  - inversion Hall as [|? ? Hc Hrest]; subst.
    rewrite chunk_throws by (reflexivity || exact Hc).
    cbn [snd audioBuffer]. rewrite (IH _ Hrest), <- app_assoc. reflexivity.
Qed.

(** Only processing accumulators hold anything. *)
Lemma apply_idle_empty (o : op) (s : t) : idle_empty s -> idle_empty (fst (apply level o s)).
Proof.
  unfold idle_empty. destruct o as [| |c]; cbn [apply startProcessing stopProcessing fst].
  - intros _ H. discriminate H.
  - intros _ _. reflexivity.
  - intros Hs. destruct (isProcessing s) eqn:Hp.
    + unfold processAudioChunk. rewrite Hp. cbn [negb].
      destruct (calculateAudioLevel level c); [|intros H; discriminate H].
      destruct (_ <=? _)%Z; cbn; intros H; discriminate H.
    + rewrite chunk_idle by exact Hp. cbn. intros _. apply Hs. reflexivity.
Qed.

Lemma run_idle_empty (ops : list op) (s : t) : idle_empty s -> idle_empty (fst (run level ops s)).
Proof.
  revert s. induction ops as [|o ops IH]; intros s Hs; simpl; [exact Hs|].
  pose proof (apply_idle_empty o s Hs) as H1.
  destruct (apply level o s) as [s1 e1]. simpl in H1.
  specialize (IH s1 H1).
  destruct (run level ops s1) as [s2 e2]. exact IH.
Qed.

(** A call that returns leaves less than the threshold, whatever was
    held. *)
Lemma processAudioChunk_returns_bounded (c : Buffer) (s : t) :
  idle_empty s ->
  fst (processAudioChunk level c s) = Ok tt ->
  bounded (fst (snd (processAudioChunk level c s))).
Proof.
  unfold bounded, idle_empty. intros Hs.
  destruct (isProcessing s) eqn:Hp.
  - unfold processAudioChunk. rewrite Hp. cbn [negb].
    destruct (calculateAudioLevel level c); [|intros H; discriminate H].
    intros _.
    destruct (Z.leb_spec (CHUNK_SIZE * 10)
                (getTotalBufferSize
                   {| isProcessing := true; audioBuffer := audioBuffer s ++ [c] |})) as [H|H].
    + cbn. unfold CHUNK_SIZE. lia.
    + cbn [snd fst]. exact H.
  - rewrite chunk_idle by exact Hp. cbn [fst snd]. intros _.
    rewrite size_total, (Hs eq_refl). unfold total, CHUNK_SIZE. simpl. lia.
Qed.

(** With aligned chunks the bound is kept by every operation. *)
Lemma processAudioChunk_bounded (c : Buffer) (s : t) :
  aligned c = true -> bounded s -> bounded (fst (snd (processAudioChunk level c s))).
Proof.
  unfold bounded. intros Ha Hs.
  destruct (isProcessing s) eqn:Hp; [|rewrite chunk_idle by exact Hp; exact Hs].
  destruct (Z.leb_spec (CHUNK_SIZE * 10) (total (audioBuffer s ++ [c]))) as [H|H].
  - rewrite chunk_flushes by assumption. cbn. unfold CHUNK_SIZE. lia.
  - rewrite chunk_buffered by assumption. cbn [snd fst]. exact H.
Qed.

Lemma apply_bounded (o : op) (s : t) :
  aligned_op o = true -> bounded s -> bounded (fst (apply level o s)).
Proof.
  destruct o; simpl; intros Ha Hs.
  - exact Hs.
  - unfold bounded, getTotalBufferSize, CHUNK_SIZE. simpl. lia.
  - apply processAudioChunk_bounded; assumption.
Qed.

Lemma run_bounded (ops : list op) (s : t) :
  Forall (fun o => aligned_op o = true) ops -> bounded s -> bounded (fst (run level ops s)).
Proof.
  revert s. induction ops as [|o ops IH]; intros s Hall Hs; simpl; [exact Hs|].
  inversion Hall as [|? ? Ho Hrest]; subst.
  pose proof (apply_bounded o s Ho Hs) as H1.
  destruct (apply level o s) as [s1 e1]. simpl in H1.
  specialize (IH s1 Hrest H1).
  destruct (run level ops s1) as [s2 e2]. exact IH.
Qed.

(** Ten chunks of the configured size, fed to the empty accumulator while
    it is processing: the first nine are held, and the tenth decides. *)
Lemma nine_chunks_held (chunks : list Buffer) (n : nat) :
  Forall (fun c => Z.of_nat (length (bytes c)) = CHUNK_SIZE) chunks ->
  (n < 10)%nat ->
  let r := run level (map Chunk (firstn n chunks)) (fst (startProcessing init)) in
  fst r = {| isProcessing := true; audioBuffer := firstn n chunks |} /\ ready (snd r) = [].
Proof.
  intros Hall Hn.
  apply (run_below_threshold (firstn n chunks) []).
  - constructor.
  - rewrite <- (firstn_skipn n chunks) in Hall.
    apply Forall_app in Hall. apply Hall.
  - simpl. rewrite length_firstn. lia.
Qed.

Lemma firstn_nine (nine : list Buffer) (tenth : Buffer) :
  length nine = 9%nat -> firstn 9 (nine ++ [tenth]) = nine.
Proof.
  intros Hlen. rewrite <- Hlen, firstn_app, Nat.sub_diag, firstn_all. apply app_nil_r.
Qed.

Lemma tenth_aligned (nine : list Buffer) (tenth : Buffer) :
  length nine = 9%nat ->
  Forall (fun c => Z.of_nat (length (bytes c)) = CHUNK_SIZE) (nine ++ [tenth]) ->
  aligned tenth = true ->
  let r := run level (map Chunk (nine ++ [tenth])) (fst (startProcessing init)) in
  getTotalBufferSize (fst r) = 0%Z /\
  ready (snd r) = [Buffer_concat (nine ++ [tenth])].
Proof.
  intros Hlen Hall Ha. cbv zeta.
  destruct (nine_chunks_held (nine ++ [tenth]) 9 Hall ltac:(lia)) as [Hst Hr].
  rewrite (firstn_nine nine tenth Hlen) in Hst, Hr.
  rewrite map_app, run_app, Hst. cbn [map run apply].
  rewrite chunk_flushes.
  - cbn [snd fst audioBuffer]. rewrite ready_app, Hr. split; reflexivity.
  - reflexivity.
  - exact Ha.
  - cbn [audioBuffer]. rewrite (total_uniform _ _ Hall), length_app, Hlen.
    unfold CHUNK_SIZE. simpl. lia.
Qed.

Lemma tenth_unaligned (nine : list Buffer) (tenth : Buffer) :
  length nine = 9%nat ->
  Forall (fun c => Z.of_nat (length (bytes c)) = CHUNK_SIZE) (nine ++ [tenth]) ->
  aligned tenth = false ->
  let held := fst (run level (map Chunk nine) (fst (startProcessing init))) in
  let r := run level (map Chunk (nine ++ [tenth])) (fst (startProcessing init)) in
  fst (processAudioChunk level tenth held) = Throw unaligned_error /\
  audioBuffer (fst r) = nine ++ [tenth] /\
  getTotalBufferSize (fst r) = 40960%Z /\
  ready (snd r) = [].
Proof.
  intros Hlen Hall Ha. cbv zeta.
  destruct (nine_chunks_held (nine ++ [tenth]) 9 Hall ltac:(lia)) as [Hst Hr].
  rewrite (firstn_nine nine tenth Hlen) in Hst, Hr.
  rewrite map_app, run_app, Hst. cbn [map run apply].
  rewrite chunk_throws by (reflexivity || exact Ha).
  cbn [snd fst audioBuffer]. rewrite app_nil_r.
  split; [reflexivity|]. split; [reflexivity|]. split; [|exact Hr].
  rewrite size_total. cbn [audioBuffer].
  rewrite (total_uniform _ _ Hall), length_app, Hlen. unfold CHUNK_SIZE. simpl. lia.
Qed.

End Level.
End AudioFacts.

(** C7.  From an empty accumulator with processing enabled, ten chunks of
    the configured size (4096 bytes) are fed one after the other.  No
    "audioReady" is emitted while fewer than ten have been fed.  When the
    tenth chunk is aligned, its call leaves nothing buffered and emits
    "audioReady" exactly once, carrying the ten chunks concatenated in
    order.  When the tenth chunk is not aligned, its call throws at the
    level computation after it has pushed the chunk: the ten chunks stay
    held, 40960 bytes, and no "audioReady" is emitted. *)
Theorem ten_chunks_flush_unless_tenth_throws
    (level : Buffer -> float) (nine : list Buffer) (tenth : Buffer) :
  length nine = 9%nat ->
  Forall (fun c => Z.of_nat (length (bytes c)) = AudioProcessor.CHUNK_SIZE) (nine ++ [tenth]) ->
  let chunks := nine ++ [tenth] in
  let start := fst (AudioProcessor.startProcessing AudioProcessor.init) in
  let feed cs := AudioProcessor.run level (map AudioProcessor.Chunk cs) start in
  (forall n, (n < 10)%nat -> AudioProcessor.ready (snd (feed (firstn n chunks))) = []) /\
  (aligned tenth = true ->
   AudioProcessor.getTotalBufferSize (fst (feed chunks)) = 0%Z /\
   AudioProcessor.ready (snd (feed chunks)) = [Buffer_concat chunks]) /\
  (aligned tenth = false ->
   fst (AudioProcessor.processAudioChunk level tenth (fst (feed nine))) = Throw unaligned_error /\
   AudioProcessor.audioBuffer (fst (feed chunks)) = chunks /\
   AudioProcessor.getTotalBufferSize (fst (feed chunks)) = 40960%Z /\
   AudioProcessor.ready (snd (feed chunks)) = []).
Proof.
  intros Hlen Hall. cbv zeta. split; [|split].
  - intros n Hn. apply (AudioFacts.nine_chunks_held level (nine ++ [tenth]) n Hall Hn).
  - intros Ha. exact (AudioFacts.tenth_aligned level nine tenth Hlen Hall Ha).
  - intros Ha. exact (AudioFacts.tenth_unaligned level nine tenth Hlen Hall Ha).
Qed.

(** Ten chunks of 4096 bytes that start at byte 1 of their stores are all
    held and nothing at all is emitted; ten aligned ones are flushed by
    the tenth call. *)
Lemma ten_chunks_flush_unless_tenth_throws_witness :
  (let chunk := odd_chunk_of 4096 Byte.x00 in
   let r := AudioProcessor.run (fun _ => 0%float)
              (map AudioProcessor.Chunk (repeat chunk 10))
              (fst (AudioProcessor.startProcessing AudioProcessor.init)) in
   AudioProcessor.audioBuffer (fst r) = repeat chunk 10 /\
   AudioProcessor.getTotalBufferSize (fst r) = 40960%Z /\
   AudioProcessor.ready (snd r) = []) /\
  (let chunks :=
     map (chunk_of 4096)
         [Byte.x00; Byte.x01; Byte.x02; Byte.x03; Byte.x04;
          Byte.x05; Byte.x06; Byte.x07; Byte.x08; Byte.x09] in
   let r := AudioProcessor.run (fun _ => 0%float) (map AudioProcessor.Chunk chunks)
              (fst (AudioProcessor.startProcessing AudioProcessor.init)) in
   AudioProcessor.getTotalBufferSize (fst r) = 0%Z /\
   AudioProcessor.ready (snd r) = [Buffer_concat chunks]).
Proof.
  split.
  - destruct (ten_chunks_flush_unless_tenth_throws (fun _ => 0%float)
                (repeat (odd_chunk_of 4096 Byte.x00) 9) (odd_chunk_of 4096 Byte.x00)
                eq_refl) as (_ & _ & Hheld).
    + repeat constructor.
    + destruct (Hheld eq_refl) as (_ & Hbuffer & Hsize & Hready).
      split; [exact Hbuffer|]. split; [exact Hsize | exact Hready].
  - destruct (ten_chunks_flush_unless_tenth_throws (fun _ => 0%float)
                (map (chunk_of 4096)
                     [Byte.x00; Byte.x01; Byte.x02; Byte.x03; Byte.x04;
                      Byte.x05; Byte.x06; Byte.x07; Byte.x08])
                (chunk_of 4096 Byte.x09) eq_refl) as (_ & Hflush & _).
    + repeat constructor.
    + exact (Hflush eq_refl).
Defined.

(** C9.  From the accumulator as constructed, after any sequence of
    [startProcessing], [stopProcessing] and [processAudioChunk] calls:
    every [processAudioChunk] that returns leaves strictly fewer bytes
    held than ten times the configured chunk size (40960); while every
    chunk fed is aligned, what is held is below that bound after every
    operation; and an aligned chunk that brings the total to the threshold
    or beyond is flushed, with all that was held, by the call that
    received it.  A chunk that is not aligned is pushed while the
    accumulator is processing and its call then throws at the level
    computation, with no event and no flush: what is held grows by the
    chunk, whatever the total. *)
Theorem buffer_bound_unless_chunk_throws
    (level : Buffer -> float) (ops : list AudioProcessor.op) (chunk : Buffer) :
  let s := fst (AudioProcessor.run level ops AudioProcessor.init) in
  let r := AudioProcessor.processAudioChunk level chunk s in
  (fst r = Ok tt -> (AudioProcessor.getTotalBufferSize (fst (snd r)) < 40960)%Z) /\
  (Forall (fun o => aligned_op o = true) ops ->
   (AudioProcessor.getTotalBufferSize s < 40960)%Z) /\
  (AudioProcessor.isProcessing s = true ->
   aligned chunk = true ->
   (40960 <= total (AudioProcessor.audioBuffer s ++ [chunk]))%Z ->
   fst r = Ok tt /\
   AudioProcessor.getTotalBufferSize (fst (snd r)) = 0%Z /\
   AudioProcessor.ready (snd (snd r))
   = [Buffer_concat (AudioProcessor.audioBuffer s ++ [chunk])]) /\
  (AudioProcessor.isProcessing s = true ->
   aligned chunk = false ->
   fst r = Throw unaligned_error /\
   AudioProcessor.audioBuffer (fst (snd r)) = AudioProcessor.audioBuffer s ++ [chunk] /\
   AudioProcessor.getTotalBufferSize (fst (snd r))
   = (AudioProcessor.getTotalBufferSize s + Z.of_nat (length (bytes chunk)))%Z /\
   snd (snd r) = []).
Proof.
  assert (Hinit : bounded AudioProcessor.init)
    by (unfold bounded, AudioProcessor.getTotalBufferSize,
          AudioProcessor.CHUNK_SIZE; simpl; lia).
  assert (Hempty : idle_empty AudioProcessor.init) by (intros _; reflexivity).
  cbv zeta. split; [|split; [|split]].
  - apply (AudioFacts.processAudioChunk_returns_bounded level chunk).
    apply AudioFacts.run_idle_empty. exact Hempty.
  - intros Hall. exact (AudioFacts.run_bounded level ops _ Hall Hinit).
  - intros Hp Ha Hge. rewrite AudioFacts.chunk_flushes by assumption.
    split; [reflexivity|]. split; reflexivity.
  - intros Hp Ha. rewrite AudioFacts.chunk_throws by assumption.
    cbn [fst snd AudioProcessor.audioBuffer].
    split; [reflexivity|]. split; [reflexivity|]. split; [|reflexivity].
    rewrite !AudioFacts.size_total. cbn [AudioProcessor.audioBuffer].
    apply AudioFacts.total_snoc.
Qed.

(** Fed 50000 bytes that start at byte 1 of their store, the started
    accumulator throws and holds the 50000 bytes, with nothing emitted. *)
Lemma buffer_bound_unless_chunk_throws_witness :
  let chunk := odd_chunk_of 50000 Byte.x00 in
  let r := AudioProcessor.processAudioChunk (fun _ => 0%float) chunk
             (fst (AudioProcessor.run (fun _ => 0%float) [AudioProcessor.Start]
                     AudioProcessor.init)) in
  fst r = Throw unaligned_error /\
  AudioProcessor.getTotalBufferSize (fst (snd r)) = 50000%Z /\
  snd (snd r) = [].
Proof.
  destruct (buffer_bound_unless_chunk_throws (fun _ => 0%float) [AudioProcessor.Start]
              (odd_chunk_of 50000 Byte.x00)) as (_ & _ & _ & Hthrows).
  destruct (Hthrows eq_refl eq_refl) as (Hret & _ & Hsize & Hevents).
  split; [exact Hret|]. split; [|exact Hevents].
  rewrite Hsize, AudioFacts.odd_chunk_length. reflexivity.
Defined.

(** ** The hub: general facts *)

Module HubFacts.

Lemma deliveries_to_app (k : string) (d1 d2 : list delivery) :
  deliveries_to k (d1 ++ d2) = deliveries_to k d1 ++ deliveries_to k d2.
Proof. unfold deliveries_to. rewrite filter_app, map_app. reflexivity. Qed.

Lemma deliveries_to_absent (cs : list (string * WebSocketClient.t))
    (p : string * WebSocketClient.t -> bool) (m : value) (k : string) :
  ~ In k (map fst cs) ->
  deliveries_to k (map (fun to => (to, m)) (map fst (filter p cs))) = [].
Proof.
  induction cs as [|[k' c'] cs IH]; intros Hk; simpl; [reflexivity|].
  simpl in Hk.
  destruct (p (k', c')); simpl.
  - unfold deliveries_to in *. simpl.
    destruct (String.eqb_spec k' k) as [->|Hne]; [tauto|].
    apply IH. tauto.
  - apply IH. tauto.
Qed.

(** A fan-out over the registry reaches each selected entry once. *)
Lemma deliveries_to_fanout (cs : list (string * WebSocketClient.t))
    (p : string * WebSocketClient.t -> bool) (m : value) (k : string) :
  wf_registry cs ->
  deliveries_to k (map (fun to => (to, m)) (map fst (filter p cs)))
  = if registered cs p k then [m] else [].
Proof.
  unfold wf_registry, registered.
  induction cs as [|[k' c'] cs IH]; intros Hnd; simpl; [reflexivity|].
  inversion Hnd as [|? ? Hnotin Hnd']; subst.
  destruct (String.eqb_spec k' k) as [->|Hne].
  - destruct (p (k, c')); simpl.
    + unfold deliveries_to at 1. simpl. rewrite String.eqb_refl. simpl.
      fold (deliveries_to k (map (fun to => (to, m)) (map fst (filter p cs)))).
      rewrite deliveries_to_absent by assumption. reflexivity.
    + apply deliveries_to_absent. assumption.
  - destruct (p (k', c')); simpl.
    + unfold deliveries_to at 1. simpl.
      destruct (String.eqb_spec k' k); [contradiction|].
      apply IH. assumption.
    + apply IH. assumption.
Qed.

End HubFacts.

(** ** The hub: evaluation of handlers *)

Lemma bind_eval {A B} (m : M A) (f : A -> M B) (w w1 : World) (a : A) (s1 : list delivery) :
  m w = {| ret := Ok a; after := w1; sent := s1 |} ->
  bind m f w = {| ret := ret (f a w1); after := after (f a w1); sent := s1 ++ sent (f a w1) |}.
Proof. intros H. unfold bind. rewrite H. reflexivity. Qed.

Lemma bind_throw {A B} (m : M A) (f : A -> M B) (w w1 : World) (e : exn) (s1 : list delivery) :
  m w = {| ret := Throw e; after := w1; sent := s1 |} ->
  bind m f w = {| ret := Throw e; after := w1; sent := s1 |}.
Proof. intros H. unfold bind. rewrite H. reflexivity. Qed.

Lemma try_catch_ok {A} (m : M A) (h : exn -> M A) (w : World) (a : A) :
  ret (m w) = Ok a -> try_catch m h w = m w.
Proof. intros H. unfold try_catch. rewrite H. reflexivity. Qed.

Lemma ticked_refl (w : World) : ticked w w.
Proof. unfold ticked. repeat split; lia. Qed.

Lemma ticked_trans (w w1 w2 : World) : ticked w w1 -> ticked w1 w2 -> ticked w w2.
Proof.
  unfold ticked. intros (H1 & H2 & H3 & H4 & H5 & H6) (G1 & G2 & G3 & G4 & G5 & G6).
  repeat split; try congruence. lia.
Qed.

Module Eval.
Section Env.
Variable env : Env.

Lemma Date_now_ticked (w : World) : ticked w (after (Date_now env w)).
Proof. unfold ticked. cbn. repeat split; lia. Qed.

Lemma on_message_parsed (cid : string) (frame : value) (w : World) :
  on_message env cid (Ok frame) w
  = try_catch (handleWebSocketMessage env cid frame)
      (fun error =>
         now <- Date_now env ;;
         send cid
           (obj [("type", VStr "error"); ("source", VStr "server");
                 ("data", obj [("message", VStr (error_message error))]);
                 ("timestamp", VStr (Date.toISOString now))])) w.
Proof. reflexivity. Qed.

Lemma handle_open (cid : string) (client : WebSocketClient.t) (frame : value) (w : World) :
  Map.get String.eqb cid (clients w) = Some client ->
  WebSocketClient.ws client = OPEN ->
  nullish frame = false ->
  handleWebSocketMessage env cid frame w
  = (message <- normalize env client frame ;; dispatch env cid client message) w.
Proof.
  intros Hget Hopen Hnull.
  unfold handleWebSocketMessage at 1, bind at 1, get_world. cbn.
  rewrite Hget, Hopen, Hnull. cbn. reflexivity.
Qed.

Lemma normalize_eval (client : WebSocketClient.t) (frame : value) (w : World) :
  exists w1 now,
    normalize env client frame w
    = {| ret := Ok (normalized client frame now); after := w1; sent := [] |} /\
    ticked w w1 /\ (clock w <= now)%Z.
Proof.
  unfold normalize, normalized. destruct (is_legacy frame) eqn:Hleg.
  - eexists _, _. split; [reflexivity|]. split; [apply Date_now_ticked | cbn; lia].
  - exists w, (clock w). split; [reflexivity|]. split; [apply ticked_refl | lia].
Qed.

Lemma normalized_type (client : WebSocketClient.t) (frame : value) (now : Z) :
  prop (normalized client frame now) "type" = prop frame "type".
Proof. unfold normalized. destruct (is_legacy frame); reflexivity. Qed.

Lemma normalized_data (client : WebSocketClient.t) (frame : value) (now : Z) :
  prop (normalized client frame now) "data" = payload frame.
Proof. unfold normalized, payload. destruct (is_legacy frame); reflexivity. Qed.

Lemma timestamp_or_now_eval (m : value) (w : World) :
  exists stamp w1,
    timestamp_or_now env m w = {| ret := Ok stamp; after := w1; sent := [] |} /\
    ticked w w1 /\ truthy stamp = true.
Proof.
  unfold timestamp_or_now. destruct (truthy (prop m "timestamp")) eqn:Ht.
  - exists (prop m "timestamp"), w. split; [reflexivity|]. split; [apply ticked_refl | exact Ht].
  - eexists _, _. split; [reflexivity|]. split; [apply Date_now_ticked|].
    cbn. unfold Date.toISOString.
    destruct (Date.civil _) as [[y mo] d].
    destruct (Date.year_string y); reflexivity.
Qed.

Lemma forwarded_eval (type : string) (source m : value) (w : World) :
  exists stamp w1,
    forwarded env type source m w
    = {| ret := Ok (obj [("type", VStr type); ("source", source);
                         ("data", prop m "data"); ("timestamp", stamp)]);
         after := w1; sent := [] |} /\
    ticked w w1 /\ truthy stamp = true.
Proof.
  destruct (timestamp_or_now_eval m w) as (stamp & w1 & Heq & Hticked & Hstamp).
  exists stamp, w1. split; [|split; assumption].
  unfold forwarded. rewrite (bind_eval _ _ _ _ _ _ Heq). reflexivity.
Qed.

End Env.
End Eval.

(** ** Normalization *)

(** C5, as the code has it.  A frame that lacks both [source] and
    [timestamp] is rewritten into an envelope with the frame's [type], the
    connection's recorded kind as [source] ("browser" when none is
    recorded), a time stamp read from the clock no earlier than the
    handler was entered, and as [data] the frame's nested [data] when that
    is truthy, the whole frame otherwise (also when [data] is present but
    [null], [false], [0] or the empty string); nothing else in the world
    changes and nothing is sent.  On a registered open connection this
    envelope is what the routing switch receives.  For
    [{type:"status", status:"x"}] the envelope has [data.status === "x"]. *)
Theorem legacy_frame_normalized (env : Env) (w : World) (cid : string)
    (client : WebSocketClient.t) (frame : value) :
  prop frame "source" = VUndefined ->
  prop frame "timestamp" = VUndefined ->
  exists now w1,
    (clock w <= now)%Z /\ ticked w w1 /\
    let envelope :=
      obj [("type", prop frame "type");
           ("source", if truthy (WebSocketClient.clientType client)
                      then WebSocketClient.clientType client else VStr "browser");
           ("data", if truthy (prop frame "data") then prop frame "data" else frame);
           ("timestamp", VStr (Date.toISOString now))] in
    normalize env client frame w = {| ret := Ok envelope; after := w1; sent := [] |} /\
    (Map.get String.eqb cid (clients w) = Some client ->
     WebSocketClient.ws client = OPEN ->
     nullish frame = false ->
     handleWebSocketMessage env cid frame w = dispatch env cid client envelope w1) /\
    (forall r, frame = VObj r [("type", VStr "status"); ("status", VStr "x")] ->
               prop (prop envelope "data") "status" = VStr "x").
Proof.
  intros Hsource Hstamp.
  assert (Hleg : is_legacy frame = true)
    by (unfold is_legacy; rewrite Hsource, Hstamp; reflexivity).
  destruct (Eval.normalize_eval env client frame w) as (w1 & now & Heq & Hticked & Hnow).
  unfold normalized in Heq. rewrite Hleg in Heq.
  exists now, w1. split; [exact Hnow|]. split; [exact Hticked|].
  cbv zeta. split; [exact Heq|]. split.
  - intros Hget Hopen Hnull.
    rewrite (Eval.handle_open env cid client frame w Hget Hopen Hnull).
    rewrite (bind_eval _ _ _ _ _ _ Heq). reflexivity.
  - intros r ->. reflexivity.
Qed.

(** The status frame of the claim, sent by the connection D of the studio
    before it joined. *)
Lemma legacy_frame_normalized_witness :
  prop status_x_frame "source" = VUndefined /\
  prop status_x_frame "timestamp" = VUndefined /\
  exists now envelope,
    (clock studio <= now)%Z /\
    ret (normalize answering (unjoined "D") status_x_frame studio) = Ok envelope /\
    prop envelope "source" = VStr "browser" /\
    prop envelope "timestamp" = VStr (Date.toISOString now) /\
    prop (prop envelope "data") "status" = VStr "x".
Proof.
  split; [reflexivity|]. split; [reflexivity|].
  destruct (legacy_frame_normalized answering studio "D" (unjoined "D") status_x_frame
              eq_refl eq_refl)
    as (now & w1 & Hnow & _ & Heq & _ & Hx).
  exists now. eexists. split; [exact Hnow|].
  rewrite Heq. repeat split.
Defined.

(** C5 as stated fails where [data] is present and falsy: for the legacy
    frame [{type:"audioData", data:""}] the envelope's [data] is the whole
    frame, not the nested field. *)
Lemma legacy_frame_falsy_data_counterexample :
  prop empty_audio_frame "source" = VUndefined /\
  prop empty_audio_frame "timestamp" = VUndefined /\
  prop empty_audio_frame "data" = VStr "" /\
  exists envelope,
    ret (normalize answering (unjoined "D") empty_audio_frame studio) = Ok envelope /\
    prop envelope "data" = empty_audio_frame /\
    prop envelope "data" <> prop empty_audio_frame "data".
Proof.
  repeat split.
  eexists. split; [reflexivity|]. split; [reflexivity|]. discriminate.
Qed.

(** ** Joining a session *)

Module MapFacts.

Lemma get_set_same {V} (k : string) (v : V) (m : list (string * V)) :
  Map.get String.eqb k (Map.set String.eqb k v m) = Some v.
Proof.
  induction m as [|[k' v'] m IH]; simpl.
  - rewrite String.eqb_refl. reflexivity.
  - destruct (String.eqb k' k) eqn:E; simpl; rewrite E; [reflexivity | exact IH].
Qed.

Lemma get_set_other {V} (k k' : string) (v : V) (m : list (string * V)) :
  k' <> k ->
  Map.get String.eqb k' (Map.set String.eqb k v m) = Map.get String.eqb k' m.
Proof.
  intros Hne. induction m as [|[k0 v0] m IH]; simpl.
  - destruct (String.eqb_spec k k'); [congruence | reflexivity].
  - destruct (String.eqb_spec k0 k) as [->|E]; simpl.
    + destruct (String.eqb_spec k k'); [congruence | reflexivity].
    + destruct (String.eqb k0 k'); [reflexivity | exact IH].
Qed.

Lemma keys_set_present {V} (k : string) (v v0 : V) (m : list (string * V)) :
  Map.get String.eqb k m = Some v0 ->
  map fst (Map.set String.eqb k v m) = map fst m.
Proof.
  induction m as [|[k' v'] m IH]; simpl; [discriminate|].
  destruct (String.eqb k' k) eqn:E; simpl; intros H.
  - reflexivity.
  - rewrite IH by exact H. reflexivity.
Qed.

End MapFacts.

Module Join.
Section Env.
Variable env : Env.

Lemma dispatch_joinSession (cid : string) (client : WebSocketClient.t) (m : value) (w : World) :
  prop m "type" = VStr "joinSession" ->
  let sessionId := or (prop m "sessionId") (opt_prop (prop m "data") "sessionId") in
  let isHost := or (or (prop m "isHost") (opt_prop (prop m "data") "isHost")) (VBool false) in
  let clientType :=
    or (or (prop m "clientType") (opt_prop (prop m "data") "clientType")) (VStr "browser") in
  let registry :=
    Map.set String.eqb cid (with_join sessionId isHost clientType client) (clients w) in
  exists now w2,
    (clock w <= now)%Z /\
    ticked (with_clients registry w) w2 /\
    dispatch env cid client m w
    = {| ret := Ok tt; after := w2;
         sent :=
           if truthy sessionId then
             map (fun to =>
                    (to, JSON.stringify
                           (obj [("type", VStr "status"); ("source", VStr "server");
                                 ("data", obj [("status", VStr "client_connected");
                                               ("clientType", clientType);
                                               ("clientId", VStr cid)]);
                                 ("timestamp", VStr (Date.toISOString now))])))
                (map fst (filter (fun entry => in_session sessionId entry
                                               && not_excluded (Some cid) entry)
                                 registry))
           else [] |}.
Proof.
  intros Htype. cbv zeta.
  unfold dispatch, type_is. rewrite Htype.
  change (strict_eq (VStr "joinSession") (VStr "joinSession")) with true. cbv iota.
  cbn [WebSocketClient.sessionId with_join WebSocketClient.clientType].
  destruct (truthy (or (prop m "sessionId") (opt_prop (prop m "data") "sessionId"))).
  - eexists _, _. split; [|split; [|reflexivity]].
    + cbn. lia.
    + unfold ticked. cbn. repeat split; lia.
  - exists (clock w). eexists. split; [lia|]. split; [|reflexivity].
    apply ticked_refl.
Qed.

Lemma dispatch_desktop_connect (cid : string) (client : WebSocketClient.t) (m : value) (w : World) :
  prop m "type" = VStr "desktop_connect" ->
  let sessionId := opt_prop (prop m "data") "sessionId" in
  let registry :=
    Map.set String.eqb cid
      (with_join sessionId (WebSocketClient.isHost client) (VStr "desktop") client) (clients w) in
  exists now w2,
    (clock w <= now)%Z /\
    ticked (with_clients registry w) w2 /\
    dispatch env cid client m w
    = {| ret := Ok tt; after := w2;
         sent :=
           if truthy sessionId then
             map (fun to =>
                    (to, JSON.stringify
                           (obj [("type", VStr "status"); ("source", VStr "server");
                                 ("data", obj [("status", VStr "desktop_connected");
                                               ("sessionId", sessionId)]);
                                 ("timestamp", VStr (Date.toISOString now))])))
                (map fst (filter (fun entry =>
                                    strict_eq (WebSocketClient.sessionId (snd entry)) sessionId
                                    && of_kind "browser" entry
                                    && is_OPEN (WebSocketClient.ws (snd entry)))
                                 registry))
           else [] |}.
Proof.
  intros Htype. cbv zeta.
  unfold dispatch, type_is. rewrite Htype.
  change (strict_eq (VStr "desktop_connect") (VStr "joinSession")) with false.
  change (strict_eq (VStr "desktop_connect") (VStr "desktop_connect")) with true. cbv iota.
  cbn [WebSocketClient.sessionId with_join WebSocketClient.clientType].
  destruct (truthy (opt_prop (prop m "data") "sessionId")).
  - eexists _, _. split; [|split; [|reflexivity]].
    + cbn. lia.
    + unfold ticked. cbn. repeat split; lia.
  - exists (clock w). eexists. split; [lia|]. split; [|reflexivity].
    apply ticked_refl.
Qed.

End Env.
End Join.

Module Ingress.
Section Env.
Variable env : Env.

(** A frame from a registered open connection reaches the routing switch
    normalized. *)
Lemma handle_dispatch (cid : string) (client : WebSocketClient.t) (frame : value) (w : World) :
  Map.get String.eqb cid (clients w) = Some client ->
  WebSocketClient.ws client = OPEN ->
  nullish frame = false ->
  exists now w1,
    (clock w <= now)%Z /\ ticked w w1 /\
    handleWebSocketMessage env cid frame w
    = dispatch env cid client (normalized client frame now) w1.
Proof.
  intros Hget Hopen Hnull.
  destruct (Eval.normalize_eval env client frame w) as (w1 & now & Heq & Hticked & Hnow).
  exists now, w1. split; [exact Hnow|]. split; [exact Hticked|].
  rewrite (Eval.handle_open env cid client frame w Hget Hopen Hnull).
  rewrite (bind_eval _ _ _ _ _ _ Heq). reflexivity.
Qed.

(** When the handler does not throw, the listener adds nothing to it. *)
Lemma on_message_returns (cid : string) (frame : value) (w : World) :
  ret (handleWebSocketMessage env cid frame w) = Ok tt ->
  on_message env cid (Ok frame) w = handleWebSocketMessage env cid frame w.
Proof.
  intros H. rewrite Eval.on_message_parsed. apply (try_catch_ok _ _ _ tt H).
Qed.

Lemma typed_frame_not_nullish (frame : value) (t : string) :
  prop frame "type" = VStr t -> nullish frame = false.
Proof. destruct frame; simpl; try discriminate; reflexivity. Qed.

Lemma on_message_dispatch (cid : string) (client : WebSocketClient.t) (frame : value) (w : World) :
  Map.get String.eqb cid (clients w) = Some client ->
  WebSocketClient.ws client = OPEN ->
  nullish frame = false ->
  exists now w1,
    (clock w <= now)%Z /\ ticked w w1 /\
    (ret (dispatch env cid client (normalized client frame now) w1) = Ok tt ->
     on_message env cid (Ok frame) w
     = dispatch env cid client (normalized client frame now) w1).
Proof.
  intros Hget Hopen Hnull.
  destruct (handle_dispatch cid client frame w Hget Hopen Hnull)
    as (now & w1 & Hnow & Hticked & Heq).
  exists now, w1. split; [exact Hnow|]. split; [exact Hticked|].
  intros Hret. rewrite <- Heq in *. apply on_message_returns. exact Hret.
Qed.

End Env.
End Ingress.


(** C2, as the code has it.  What a join records for the connection:
    - a [joinSession] frame that carries [source] or [timestamp] records,
      for each of [sessionId], [isHost] and [clientType], the top-level
      field when it is truthy and the field of [data] otherwise (then
      [false] and "browser" for the last two);
    - a [joinSession] frame in the legacy dialect with a truthy nested
      [data] records the fields of [data] and ignores the top-level ones;
    - a [desktop_connect] frame records the [sessionId] of the normalized
      [data], always records the kind "desktop", and leaves [isHost] as it
      was. *)
Theorem join_records_fields (env : Env) (w : World) (cid : string)
    (client : WebSocketClient.t) (frame : value) :
  Map.get String.eqb cid (clients w) = Some client ->
  WebSocketClient.ws client = OPEN ->
  let recorded := Map.get String.eqb cid (clients (after (on_message env cid (Ok frame) w))) in
  let data := prop frame "data" in
  (prop frame "type" = VStr "joinSession" -> is_legacy frame = false ->
   recorded =
     Some (with_join
             (or (prop frame "sessionId") (opt_prop data "sessionId"))
             (or (or (prop frame "isHost") (opt_prop data "isHost")) (VBool false))
             (or (or (prop frame "clientType") (opt_prop data "clientType")) (VStr "browser"))
             client)) /\
  (prop frame "type" = VStr "joinSession" -> is_legacy frame = true -> truthy data = true ->
   recorded =
     Some (with_join
             (prop data "sessionId")
             (or (prop data "isHost") (VBool false))
             (or (prop data "clientType") (VStr "browser"))
             client)) /\
  (prop frame "type" = VStr "desktop_connect" ->
   recorded =
     Some (with_join (opt_prop (payload frame) "sessionId")
                     (WebSocketClient.isHost client) (VStr "desktop") client)).
Proof.
  intros Hget Hopen. cbv zeta.
  assert (Hjoin : forall now w1 m,
            ticked w w1 -> m = normalized client frame now ->
            prop m "type" = VStr "joinSession" ->
            (ret (dispatch env cid client m w1) = Ok tt ->
             on_message env cid (Ok frame) w = dispatch env cid client m w1) ->
            Map.get String.eqb cid (clients (after (on_message env cid (Ok frame) w)))
            = Some (with_join
                      (or (prop m "sessionId") (opt_prop (prop m "data") "sessionId"))
                      (or (or (prop m "isHost") (opt_prop (prop m "data") "isHost")) (VBool false))
                      (or (or (prop m "clientType") (opt_prop (prop m "data") "clientType"))
                          (VStr "browser"))
                      client)).
  { intros now w1 m Hticked Hm Htype Hrun.
    destruct (Join.dispatch_joinSession env cid client m w1 Htype)
      as (now' & w2 & _ & Hticked2 & Heq).
    rewrite Hrun by (rewrite Heq; reflexivity).
    rewrite Heq. cbn [after].
    destruct Hticked2 as (Hclients & _). rewrite Hclients. cbn [clients with_clients].
    apply MapFacts.get_set_same. }
  split; [|split].
  - intros Htype Hleg.
    destruct (Ingress.on_message_dispatch env cid client frame w Hget Hopen
                (Ingress.typed_frame_not_nullish frame _ Htype))
      as (now & w1 & _ & Hticked & Hrun).
    rewrite (Hjoin now w1 _ Hticked eq_refl); [| rewrite Eval.normalized_type; exact Htype | exact Hrun].
    unfold normalized. rewrite Hleg. reflexivity.
  - intros Htype Hleg Hdata.
    destruct (Ingress.on_message_dispatch env cid client frame w Hget Hopen
                (Ingress.typed_frame_not_nullish frame _ Htype))
      as (now & w1 & _ & Hticked & Hrun).
    rewrite (Hjoin now w1 _ Hticked eq_refl); [| rewrite Eval.normalized_type; exact Htype | exact Hrun].
    unfold normalized. rewrite Hleg.
    assert (Hor : or (prop frame "data") frame = prop frame "data")
      by (unfold or; rewrite Hdata; reflexivity).
    assert (Hn : nullish (prop frame "data") = false)
      by (destruct (prop frame "data"); simpl in *; congruence).
    cbn [prop assoc obj String.eqb Ascii.eqb Bool.eqb].
    rewrite Hor. unfold opt_prop. rewrite Hn. reflexivity.
  - intros Htype.
    destruct (Ingress.on_message_dispatch env cid client frame w Hget Hopen
                (Ingress.typed_frame_not_nullish frame _ Htype))
      as (now & w1 & _ & Hticked & Hrun).
    assert (Htype' : prop (normalized client frame now) "type" = VStr "desktop_connect")
      by (rewrite Eval.normalized_type; exact Htype).
    destruct (Join.dispatch_desktop_connect env cid client _ w1 Htype')
      as (now' & w2 & _ & Hticked2 & Heq).
    rewrite Hrun by (rewrite Heq; reflexivity).
    rewrite Heq. cbn [after].
    destruct Hticked2 as (Hclients & _). rewrite Hclients. cbn [clients with_clients].
    rewrite MapFacts.get_set_same, Eval.normalized_data. reflexivity.
Qed.

(** The studio's connection D joins with different values at the top level
    and in [data]. *)
Lemma join_records_fields_witness :
  Map.get String.eqb "D" (clients studio) = Some (unjoined "D") /\
  WebSocketClient.ws (unjoined "D") = OPEN /\
  Map.get String.eqb "D"
    (clients (after (on_message answering "D" (Ok hybrid_join_frame) studio)))
  = Some (with_join (VStr "s2") (VBool true) (VStr "desktop") (unjoined "D")).
Proof.
  split; [reflexivity|]. split; [reflexivity|].
  pose proof (join_records_fields answering studio "D" (unjoined "D") hybrid_join_frame
                eq_refl eq_refl) as [Htyped _].
  exact (Htyped eq_refl eq_refl).
Defined.

(** C2 as stated fails on a [joinSession] frame of the typed dialect: with
    "s2"/"desktop"/[true] at the top level and "s1"/"browser"/[false] in
    [data], the registry records the top-level values. *)
Lemma join_typed_precedence_counterexample :
  prop (prop hybrid_join_frame "data") "sessionId" = VStr "s1" /\
  prop (prop hybrid_join_frame "data") "clientType" = VStr "browser" /\
  prop (prop hybrid_join_frame "data") "isHost" = VBool false /\
  Map.get String.eqb "D"
    (clients (after (on_message answering "D" (Ok hybrid_join_frame) studio)))
  = Some {| WebSocketClient.ws := OPEN;
            WebSocketClient.sessionId := VStr "s2";
            WebSocketClient.isHost := VBool true;
            WebSocketClient.clientType := VStr "desktop";
            WebSocketClient.clientId := "D" |}.
Proof. repeat split. Qed.

Module Recipients.

Lemma registered_set_self (cs : list (string * WebSocketClient.t))
    (p : string * WebSocketClient.t -> bool) (cid : string) (c : WebSocketClient.t) :
  registered (Map.set String.eqb cid c cs) p cid = p (cid, c).
Proof. unfold registered. rewrite MapFacts.get_set_same. reflexivity. Qed.

Lemma registered_set_other (cs : list (string * WebSocketClient.t))
    (p : string * WebSocketClient.t -> bool) (cid k : string) (c : WebSocketClient.t) :
  k <> cid ->
  registered (Map.set String.eqb cid c cs) p k = registered cs p k.
Proof. intros H. unfold registered. rewrite MapFacts.get_set_other by exact H. reflexivity. Qed.

Lemma wf_set (cs : list (string * WebSocketClient.t)) (cid : string)
    (c c0 : WebSocketClient.t) :
  Map.get String.eqb cid cs = Some c0 ->
  wf_registry cs -> wf_registry (Map.set String.eqb cid c cs).
Proof.
  unfold wf_registry. intros Hget Hwf.
  rewrite (MapFacts.keys_set_present cid c c0 cs Hget). exact Hwf.
Qed.

Lemma registered_ext (cs : list (string * WebSocketClient.t))
    (p q : string * WebSocketClient.t -> bool) (k : string) :
  (forall c, p (k, c) = q (k, c)) -> registered cs p k = registered cs q k.
Proof. intros H. unfold registered. destruct (Map.get String.eqb k cs); [apply H | reflexivity]. Qed.

End Recipients.

(** C6, as the code has it.  When a join leaves connection C recorded in
    session S:
    - for [joinSession], every open connection recorded in S other than C
      receives exactly one [status] envelope from "server" whose data is
      [{status:"client_connected", clientType, clientId}] with C's
      recorded kind and identifier, and nobody else receives anything;
    - for [desktop_connect], every open connection of kind "browser"
      recorded in S other than C receives exactly one [status] envelope
      from "server" whose data is [{status:"desktop_connected",
      sessionId}], and nobody else (C, and the desktop connections of S)
      receives anything. *)
Theorem join_status_broadcast (env : Env) (w : World) (cid : string)
    (client joined_client : WebSocketClient.t) (frame : value) :
  wf_registry (clients w) ->
  Map.get String.eqb cid (clients w) = Some client ->
  WebSocketClient.ws client = OPEN ->
  let r := on_message env cid (Ok frame) w in
  let S := WebSocketClient.sessionId joined_client in
  Map.get String.eqb cid (clients (after r)) = Some joined_client ->
  truthy S = true ->
  (prop frame "type" = VStr "joinSession" ->
   exists now,
     (clock w <= now)%Z /\
     forall k,
       deliveries_to k (sent r)
       = if registered (clients w) (in_session S) k && negb (String.eqb k cid)
         then [JSON.stringify
                 (obj [("type", VStr "status"); ("source", VStr "server");
                       ("data", obj [("status", VStr "client_connected");
                                     ("clientType", WebSocketClient.clientType joined_client);
                                     ("clientId", VStr cid)]);
                       ("timestamp", VStr (Date.toISOString now))])]
         else []) /\
  (prop frame "type" = VStr "desktop_connect" ->
   exists now,
     (clock w <= now)%Z /\
     forall k,
       deliveries_to k (sent r)
       = if registered (clients w) (fun entry => in_session S entry && of_kind "browser" entry) k
            && negb (String.eqb k cid)
         then [JSON.stringify
                 (obj [("type", VStr "status"); ("source", VStr "server");
                       ("data", obj [("status", VStr "desktop_connected");
                                     ("sessionId", S)]);
                       ("timestamp", VStr (Date.toISOString now))])]
         else []).
Proof.
  intros Hwf Hget Hopen. cbv zeta. intros Hrec HS. split.
  - intros Htype.
    destruct (Ingress.on_message_dispatch env cid client frame w Hget Hopen
                (Ingress.typed_frame_not_nullish frame _ Htype))
      as (now0 & w1 & Hnow0 & Hticked & Hrun).
    assert (Htype' : prop (normalized client frame now0) "type" = VStr "joinSession")
      by (rewrite Eval.normalized_type; exact Htype).
    destruct (Join.dispatch_joinSession env cid client _ w1 Htype')
      as (now & w2 & Hnow & Hticked2 & Heq).
    rewrite Hrun in * by (rewrite Heq; reflexivity). clear Hrun.
    rewrite Heq in *. cbn [after sent] in *.
    destruct Hticked as (Hclients & _ & _ & _ & _ & Hclock).
    destruct Hticked2 as (Hclients2 & _).
    rewrite Hclients2 in Hrec. cbn [clients with_clients] in Hrec.
    rewrite MapFacts.get_set_same in Hrec. injection Hrec as <-.
    cbn [WebSocketClient.sessionId WebSocketClient.clientType with_join] in *.
    rewrite HS. rewrite Hclients in *.
    exists now. split; [lia|]. intros k.
    rewrite HubFacts.deliveries_to_fanout by (eapply Recipients.wf_set; eassumption).
    destruct (String.eqb_spec k cid) as [->|Hne].
    + rewrite Recipients.registered_set_self.
      unfold not_excluded. cbn [fst]. rewrite String.eqb_refl.
      rewrite !andb_false_r. reflexivity.
    + rewrite Recipients.registered_set_other by exact Hne.
      rewrite andb_true_r.
      rewrite (Recipients.registered_ext _ _ (in_session
        (or (prop (normalized client frame now0) "sessionId")
            (opt_prop (prop (normalized client frame now0) "data") "sessionId"))) k);
        [reflexivity|].
      intros c. unfold not_excluded. cbn [fst].
      destruct (String.eqb_spec k cid); [contradiction|]. apply andb_true_r.
  - intros Htype.
    destruct (Ingress.on_message_dispatch env cid client frame w Hget Hopen
                (Ingress.typed_frame_not_nullish frame _ Htype))
      as (now0 & w1 & Hnow0 & Hticked & Hrun).
    assert (Htype' : prop (normalized client frame now0) "type" = VStr "desktop_connect")
      by (rewrite Eval.normalized_type; exact Htype).
    destruct (Join.dispatch_desktop_connect env cid client _ w1 Htype')
      as (now & w2 & Hnow & Hticked2 & Heq).
    rewrite Hrun in * by (rewrite Heq; reflexivity). clear Hrun.
    rewrite Heq in *. cbn [after sent] in *.
    destruct Hticked as (Hclients & _ & _ & _ & _ & Hclock).
    destruct Hticked2 as (Hclients2 & _).
    rewrite Hclients2 in Hrec. cbn [clients with_clients] in Hrec.
    rewrite MapFacts.get_set_same in Hrec. injection Hrec as <-.
    cbn [WebSocketClient.sessionId WebSocketClient.clientType with_join] in *.
    rewrite HS. rewrite Hclients in *.
    exists now. split; [lia|]. intros k.
    rewrite HubFacts.deliveries_to_fanout by (eapply Recipients.wf_set; eassumption).
    destruct (String.eqb_spec k cid) as [->|Hne].
    + rewrite Recipients.registered_set_self.
      unfold of_kind. cbn [snd WebSocketClient.clientType with_join].
      change (strict_eq (VStr "desktop") (VStr "browser")) with false.
      rewrite !andb_false_r. reflexivity.
    + rewrite Recipients.registered_set_other by exact Hne.
      rewrite andb_true_r.
      apply f_equal with (f := fun b : bool => if b then _ else _).
      apply Recipients.registered_ext. intros c. unfold in_session.
      rewrite <- !andb_assoc. f_equal. apply andb_comm.
Qed.

(** Connection D of the studio joins session "s1": A and B hear of it, D
    and C do not. *)
Lemma join_status_broadcast_witness :
  wf_registry (clients studio) /\
  Map.get String.eqb "D" (clients studio) = Some (unjoined "D") /\
  WebSocketClient.ws (unjoined "D") = OPEN /\
  exists now,
    (clock studio <= now)%Z /\
    forall k,
      deliveries_to k (sent (on_message answering "D" (Ok join_s1_frame) studio))
      = if registered (clients studio) (in_session (VStr "s1")) k && negb (String.eqb k "D")
        then [JSON.stringify
                (obj [("type", VStr "status"); ("source", VStr "server");
                      ("data", obj [("status", VStr "client_connected");
                                    ("clientType", VStr "browser");
                                    ("clientId", VStr "D")]);
                      ("timestamp", VStr (Date.toISOString now))])]
        else [].
Proof.
  assert (Hwf : wf_registry (clients studio)).
  { unfold wf_registry. simpl.
    repeat (constructor; [simpl; intuition discriminate|]). constructor. }
  split; [exact Hwf|]. split; [reflexivity|]. split; [reflexivity|].
  pose proof (join_status_broadcast answering studio "D" (unjoined "D")
                (with_join (VStr "s1") (VBool true) (VStr "browser") (unjoined "D"))
                join_s1_frame Hwf eq_refl eq_refl eq_refl eq_refl) as [Hjoin _].
  exact (Hjoin eq_refl).
Defined.

(** C6 as stated fails for [desktop_connect]: when D connects to "s1" as a
    desktop, the envelope browser B receives carries neither [clientType]
    nor [clientId], and desktop A, already in "s1", receives nothing. *)
Lemma desktop_connect_status_counterexample :
  registered (clients studio) (in_session (VStr "s1")) "A" = true /\
  deliveries_to "A" (sent (on_message answering "D" (Ok desktop_connect_frame) studio)) = [] /\
  exists envelope,
    deliveries_to "B" (sent (on_message answering "D" (Ok desktop_connect_frame) studio))
    = [envelope] /\
    prop (prop envelope "data") "status" = VStr "desktop_connected" /\
    prop (prop envelope "data") "clientType" = VUndefined /\
    prop (prop envelope "data") "clientId" = VUndefined.
Proof.
  split; [reflexivity|]. split; [vm_compute; reflexivity|].
  eexists. split; [vm_compute; reflexivity|]. repeat split.
Qed.

(** ** Forwarding a transcript *)

Module Forward.
Section Env.
Variable env : Env.

Lemma dispatch_transcript (cid : string) (client : WebSocketClient.t) (m : value) :
  prop m "type" = VStr "transcript" ->
  dispatch env cid client m
  = (if strict_eq (WebSocketClient.clientType client) (VStr "desktop")
        && truthy (WebSocketClient.sessionId client)
     then (transcriptMessage <- forwarded env "transcript" (VStr "desktop") m ;;
           broadcastToBrowserClients (WebSocketClient.sessionId client) transcriptMessage)
     else pure tt).
Proof.
  intros H. unfold dispatch, type_is. rewrite H. reflexivity.
Qed.

End Env.
End Forward.

(** C4.  A [transcript] frame from an open connection recorded as a
    desktop in session S reaches every open connection recorded as a
    browser in S exactly once, as a [transcript] envelope from "desktop"
    carrying the frame's payload, and reaches nobody else; the sender in
    particular receives nothing.  A [transcript] frame from a connection
    recorded as a browser is forwarded to nobody. *)
Theorem transcript_routing (env : Env) (w : World) (cid : string)
    (client : WebSocketClient.t) (frame : value) :
  Map.get String.eqb cid (clients w) = Some client ->
  prop frame "type" = VStr "transcript" ->
  let r := on_message env cid (Ok frame) w in
  let S := WebSocketClient.sessionId client in
  (wf_registry (clients w) ->
   WebSocketClient.ws client = OPEN ->
   WebSocketClient.clientType client = VStr "desktop" ->
   truthy S = true ->
   deliveries_to cid (sent r) = [] /\
   exists stamp,
     truthy stamp = true /\
     forall k,
       deliveries_to k (sent r)
       = if registered (clients w) (fun entry => in_session S entry && of_kind "browser" entry) k
         then [JSON.stringify
                 (obj [("type", VStr "transcript"); ("source", VStr "desktop");
                       ("data", payload frame); ("timestamp", stamp)])]
         else []) /\
  (WebSocketClient.clientType client = VStr "browser" -> sent r = []).
Proof.
  intros Hget Htype. cbv zeta.
  assert (Hnull : nullish frame = false)
    by (exact (Ingress.typed_frame_not_nullish frame _ Htype)).
  split.
  - intros Hwf Hopen Hkind Htruthy.
    destruct (Ingress.on_message_dispatch env cid client frame w Hget Hopen Hnull)
      as (now0 & w1 & Hnow0 & Hticked & Hrun).
    assert (Htype' : prop (normalized client frame now0) "type" = VStr "transcript")
      by (rewrite Eval.normalized_type; exact Htype).
    rewrite (Forward.dispatch_transcript env cid client _ Htype') in Hrun.
    destruct Hticked as (Hclients & _).
    rewrite Hkind, Htruthy in Hrun.
    change (strict_eq (VStr "desktop") (VStr "desktop") && true) with true in Hrun.
    cbv iota in Hrun.
    destruct (Eval.forwarded_eval env "transcript" (VStr "desktop")
                (normalized client frame now0) w1)
      as (stamp & w2 & Heq & (Hclients2 & _) & Hstamp).
    rewrite (bind_eval _ _ _ _ _ _ Heq) in Hrun.
    rewrite Hrun by reflexivity. clear Hrun.
    cbn [sent ret after broadcastToBrowserClients bind get_world send_all app].
    rewrite Hclients2, Hclients, Eval.normalized_data.
    set (S := WebSocketClient.sessionId client).
    set (envelope := JSON.stringify _).
    assert (Hall : forall k,
      deliveries_to k
        (map (fun to => (to, envelope))
           (map fst (filter (fun entry =>
                       strict_eq (WebSocketClient.sessionId (snd entry)) S
                       && of_kind "browser" entry
                       && is_OPEN (WebSocketClient.ws (snd entry))) (clients w))))
      = if registered (clients w) (fun entry => in_session S entry && of_kind "browser" entry) k
        then [envelope] else []).
    { intros k. rewrite HubFacts.deliveries_to_fanout by exact Hwf.
      apply f_equal with (f := fun b : bool => if b then _ else _).
      apply Recipients.registered_ext. intros c. unfold in_session.
      rewrite <- !andb_assoc. f_equal. apply andb_comm. }
    split.
    + rewrite Hall. unfold registered. rewrite Hget.
      unfold of_kind. cbn [snd]. rewrite Hkind.
      change (strict_eq (VStr "desktop") (VStr "browser")) with false.
      rewrite andb_false_r. reflexivity.
    + exists stamp. split; [exact Hstamp | exact Hall].
  - intros Hkind.
    destruct (WebSocketClient.ws client) eqn:Hws;
      try (rewrite Eval.on_message_parsed;
           unfold try_catch, handleWebSocketMessage, bind at 1, get_world; cbn;
           rewrite Hget, Hws; reflexivity).
    destruct (Ingress.on_message_dispatch env cid client frame w Hget Hws Hnull)
      as (now0 & w1 & Hnow0 & Hticked & Hrun).
    assert (Htype' : prop (normalized client frame now0) "type" = VStr "transcript")
      by (rewrite Eval.normalized_type; exact Htype).
    rewrite (Forward.dispatch_transcript env cid client _ Htype') in Hrun.
    rewrite Hkind in Hrun.
    change (strict_eq (VStr "browser") (VStr "desktop")) with false in Hrun.
    cbn [andb] in Hrun. rewrite Hrun by reflexivity. reflexivity.
Qed.

(** The scenario of the specification: desktop A and browser B in "s1", A
    sends [transcript{text:"hello", confidence:0.9}]. *)
Lemma transcript_routing_witness :
  wf_registry (clients studio) /\
  Map.get String.eqb "A" (clients studio) = Some (joined "A" "desktop" "s1") /\
  truthy (VStr "s1") = true /\
  prop transcript_frame "type" = VStr "transcript" /\
  deliveries_to "A" (sent (on_message answering "A" (Ok transcript_frame) studio)) = [] /\
  exists envelope,
    deliveries_to "B" (sent (on_message answering "A" (Ok transcript_frame) studio)) = [envelope] /\
    prop envelope "type" = VStr "transcript" /\
    prop envelope "source" = VStr "desktop" /\
    prop (prop envelope "data") "text" = VStr "hello".
Proof.
  assert (Hwf : wf_registry (clients studio)).
  { unfold wf_registry. simpl.
    repeat (constructor; [simpl; intuition discriminate|]). constructor. }
  split; [exact Hwf|]. split; [reflexivity|]. split; [reflexivity|]. split; [reflexivity|].
  pose proof (transcript_routing answering studio "A" (joined "A" "desktop" "s1")
                transcript_frame eq_refl eq_refl) as [Hdesktop _].
  destruct (Hdesktop Hwf eq_refl eq_refl eq_refl) as (Hsender & stamp & Hstamp & Hall).
  split; [exact Hsender|].
  eexists. split; [rewrite (Hall "B"); reflexivity|].
  repeat split.
Defined.

(** ** Reasoning about what a handler sends and calls *)

Module Sends.

Section Rules.
Context {A B : Type} (Q : value -> Prop).

Lemma of_silent (m : M A) : (forall w, sent (m w) = []) -> sends_only Q m.
Proof. intros H w. rewrite H. constructor. Qed.

Lemma pure_ (a : A) : sends_only Q (pure a).
Proof. apply of_silent. reflexivity. Qed.

Lemma throw_ (e : exn) : sends_only Q (@throw A e).
Proof. apply of_silent. reflexivity. Qed.

Lemma lift_ (r : result A) : sends_only Q (lift r).
Proof. apply of_silent. reflexivity. Qed.

Lemma bind_ (m : M A) (f : A -> M B) :
  sends_only Q m -> (forall a, sends_only Q (f a)) -> sends_only Q (bind m f).
Proof.
  intros Hm Hf w. unfold bind. specialize (Hm w).
  destruct (ret (m w)) as [a|e]; cbn [sent]; [|exact Hm].
  apply Forall_app. split; [exact Hm | apply Hf].
Qed.

Lemma try_catch_ (m : M A) (h : exn -> M A) :
  sends_only Q m -> (forall e, sends_only Q (h e)) -> sends_only Q (try_catch m h).
Proof.
  intros Hm Hh w. unfold try_catch. specialize (Hm w).
  destruct (ret (m w)) as [a|e]; cbn [sent]; [exact Hm|].
  apply Forall_app. split; [exact Hm | apply Hh].
Qed.

End Rules.

Lemma get_world_ (Q : value -> Prop) : sends_only Q get_world.
Proof. apply of_silent. reflexivity. Qed.

Lemma put_world_ (Q : value -> Prop) (w' : World) : sends_only Q (put_world w').
Proof. apply of_silent. reflexivity. Qed.

Lemma send_ (Q : value -> Prop) (to : string) (message : value) :
  Q (JSON.stringify message) -> sends_only Q (send to message).
Proof. intros H w. cbn. constructor; [exact H | constructor]. Qed.

Lemma send_all_ (Q : value -> Prop) (recipients : list string) (message : value) :
  Q (JSON.stringify message) -> sends_only Q (send_all recipients message).
Proof.
  intros H w. cbn. apply Forall_forall. intros d Hd.
  apply in_map_iff in Hd as (to & <- & _). exact H.
Qed.

Lemma weaken {A} (Q Q' : value -> Prop) (m : M A) :
  (forall p, Q p -> Q' p) -> sends_only Q m -> sends_only Q' m.
Proof.
  intros H Hm w. eapply Forall_impl; [|apply Hm]. intros d. apply H.
Qed.

Section Env.
Variable env : Env.
Variable Q : value -> Prop.

Lemma Date_now_ : sends_only Q (Date_now env).
Proof. apply of_silent. reflexivity. Qed.

Lemma fresh_uuid_ : sends_only Q (fresh_uuid env).
Proof. apply of_silent. reflexivity. Qed.

Lemma call_service_ {A} (c : call) (answer : result A) : sends_only Q (call_service c answer).
Proof. apply of_silent. reflexivity. Qed.

Lemma broadcast_ (message : value) :
  Q (JSON.stringify message) -> sends_only Q (broadcast message).
Proof. intros H. apply bind_; [apply get_world_ | intros w; apply send_all_; exact H]. Qed.

Lemma broadcastToSession_ (sessionId message : value) (excludeClientId : option string) :
  Q (JSON.stringify message) ->
  sends_only Q (broadcastToSession sessionId message excludeClientId).
Proof. intros H. apply bind_; [apply get_world_ | intros w; apply send_all_; exact H]. Qed.

Lemma broadcastToBrowserClients_ (sessionId message : value) :
  Q (JSON.stringify message) -> sends_only Q (broadcastToBrowserClients sessionId message).
Proof. intros H. apply bind_; [apply get_world_ | intros w; apply send_all_; exact H]. Qed.

Lemma broadcastToDesktopClients_ (sessionId message : value) :
  Q (JSON.stringify message) -> sends_only Q (broadcastToDesktopClients sessionId message).
Proof. intros H. apply bind_; [apply get_world_ | intros w; apply send_all_; exact H]. Qed.

End Env.
End Sends.

(** Decompose a handler into its steps; what is left are the messages. *)
Ltac sends_step :=
  first
    [ apply Sends.bind_; [|intros ?]
    | apply Sends.try_catch_; [|intros ?]
    | apply Sends.pure_
    | apply Sends.throw_
    | apply Sends.lift_
    | apply Sends.get_world_
    | apply Sends.put_world_
    | apply Sends.Date_now_
    | apply Sends.fresh_uuid_
    | apply Sends.call_service_
    | apply Sends.broadcast_
    | apply Sends.broadcastToSession_
    | apply Sends.broadcastToBrowserClients_
    | apply Sends.broadcastToDesktopClients_
    | apply Sends.send_
    | apply Sends.send_all_
    | match goal with
      | |- sends_only _ (if ?b then _ else _) => destruct b
      | |- sends_only _ (match ?x with _ => _ end) => destruct x
      | |- sends_only _ (let (_, _) := ?x in _) => destruct x
      end ].

Ltac sends := repeat sends_step.

Module SendsOf.
Section Env.
Variable env : Env.
Variable Q : value -> Prop.

Lemma createMessage_ (i : InsertMessage.t) : sends_only Q (createMessage env i).
Proof. unfold createMessage. sends. Qed.

Lemma upsertAnalytics_ (i : InsertAnalytics.t) : sends_only Q (upsertAnalytics env i).
Proof. unfold upsertAnalytics. sends. Qed.

Lemma upsertAIPersonality_ (i : value) : sends_only Q (upsertAIPersonality env i).
Proof. unfold upsertAIPersonality. sends. Qed.

Lemma reads_ (sid : value) :
  sends_only Q (getSessionMessages sid) /\ sends_only Q (getSessionSpeakers sid) /\
  sends_only Q (getSessionMemory sid) /\ sends_only Q (getAIPersonality sid) /\
  sends_only Q (getAnalytics sid).
Proof.
  unfold getSessionMessages, getSessionSpeakers, getSessionMemory, getAIPersonality,
    getAnalytics.
  repeat split; sends.
Qed.

End Env.
End SendsOf.

(** ** The orchestrator *)

Module Orchestrator.
Section Env.
Variable env : Env.

Lemma unjoined_returns (client : WebSocketClient.t) (m : value) :
  truthy (WebSocketClient.sessionId client) = false ->
  handleAIResponseRequest env client m = pure tt.
Proof. intros H. unfold handleAIResponseRequest. rewrite H. reflexivity. Qed.

(** The sequence starts with the repository reads, which change nothing,
    and the call to the generator. *)
Lemma starts_with_generation (client : WebSocketClient.t) (m : value) (w : World) :
  truthy (WebSocketClient.sessionId client) = true ->
  handleAIResponseRequest env client m w
  = try_catch
      (generated <-
         call_service
           (GenerateAIResponse (transcript_of m)
              (context_at (storage w) (WebSocketClient.sessionId client)))
           (generateAIResponse env (transcript_of m)
              (context_at (storage w) (WebSocketClient.sessionId client))) ;;
       respond_with env (WebSocketClient.sessionId client)
         (context_at (storage w) (WebSocketClient.sessionId client)) generated)
      (fun error =>
         send (WebSocketClient.clientId client)
              (obj [("type", VStr "error"); ("message", VStr (error_message error))])) w.
Proof.
  intros H. unfold handleAIResponseRequest. rewrite H. reflexivity.
Qed.

(** When the generator throws, the sequence stops there and the requester
    is told. *)
Lemma generator_throws (client : WebSocketClient.t) (m : value) (w : World) (e : exn) :
  truthy (WebSocketClient.sessionId client) = true ->
  generateAIResponse env (transcript_of m)
    (context_at (storage w) (WebSocketClient.sessionId client)) = Throw e ->
  handleAIResponseRequest env client m w
  = {| ret := Ok tt;
       after := logged (GenerateAIResponse (transcript_of m)
                          (context_at (storage w) (WebSocketClient.sessionId client))) w;
       sent := [(WebSocketClient.clientId client,
                 JSON.stringify
                   (obj [("type", VStr "error"); ("message", VStr (error_message e))]))] |}.
Proof.
  intros H Hthrow. rewrite starts_with_generation by exact H.
  unfold try_catch, bind, call_service. cbn [ret]. rewrite Hthrow. reflexivity.
Qed.

Lemma transcript_of_normalized (client : WebSocketClient.t) (frame : value) (now : Z) :
  transcript_of (normalized client frame now) = requested_transcript frame.
Proof. unfold normalized, requested_transcript. destruct (is_legacy frame); reflexivity. Qed.

(** A request is always answered to the dispatcher by a return. *)
Lemma request_returns (client : WebSocketClient.t) (m : value) (w : World) :
  ret (handleAIResponseRequest env client m w) = Ok tt.
Proof.
  unfold handleAIResponseRequest.
  destruct (negb (truthy (WebSocketClient.sessionId client))); [reflexivity|].
  unfold try_catch.
  match goal with |- context [ret (?body w)] => destruct (ret (body w)) as [[]|e] eqn:E end.
  - exact E.
  - reflexivity.
Qed.

(** What the orchestrator sends is an [aiResponse] or an [error]. *)
Lemma orchestrator_sends (Q : value -> Prop) (client : WebSocketClient.t) (m : value) :
  (forall data, data <> VUndefined ->
                Q (JSON.stringify (obj [("type", VStr "aiResponse"); ("data", data)]))) ->
  (forall message,
     Q (JSON.stringify (obj [("type", VStr "error"); ("message", VStr message)]))) ->
  sends_only Q (handleAIResponseRequest env client m).
Proof.
  intros Hresponse Herror.
  unfold handleAIResponseRequest, respond_with.
  pose proof (SendsOf.reads_ Q (WebSocketClient.sessionId client))
    as (Hm & Hs & Hmem & Hp & Ha).
  destruct (negb (truthy (WebSocketClient.sessionId client))); [apply Sends.pure_|].
  apply Sends.try_catch_.
  - apply Sends.bind_; [exact Hm | intros messages].
    apply Sends.bind_; [exact Hp | intros personality].
    apply Sends.bind_; [exact Hmem | intros memory].
    apply Sends.bind_; [apply Sends.call_service_ | intros generated].
    apply Sends.bind_; [exact Hs | intros speakers].
    destruct (find _ speakers); [|apply Sends.pure_].
    apply Sends.bind_; [apply SendsOf.createMessage_ | intros aiMessage].
    apply Sends.bind_; [apply Sends.call_service_ | intros audioBuffer].
    apply Sends.bind_.
    + apply Sends.broadcastToSession_. apply Hresponse. discriminate.
    + intros _. apply Sends.bind_; [exact Ha | intros analytics].
      destruct analytics; [|apply Sends.pure_].
      apply Sends.bind_; [apply SendsOf.upsertAnalytics_ | intros _; apply Sends.pure_].
  - intros e. apply Sends.send_. apply Herror.
Qed.

Lemma dispatch_requestAIResponse (cid : string) (client : WebSocketClient.t) (m : value) :
  prop m "type" = VStr "requestAIResponse" ->
  dispatch env cid client m = handleAIResponseRequest env client m.
Proof. intros H. unfold dispatch, type_is. rewrite H. reflexivity. Qed.

End Env.
End Orchestrator.

(** C8.  When the response generator throws during the handling of a
    [requestAIResponse] frame from a joined connection, the sequence stops
    at that call: the only message sent is one [error] envelope to the
    requesting connection, carrying the message of the error; no
    [aiResponse] reaches anybody, nothing is persisted, and the generator
    is not called again. *)
Theorem generator_failure_reported (env : Env) (w : World) (cid : string)
    (client : WebSocketClient.t) (frame : value) (e : exn) :
  Map.get String.eqb cid (clients w) = Some client ->
  WebSocketClient.ws client = OPEN ->
  WebSocketClient.clientId client = cid ->
  truthy (WebSocketClient.sessionId client) = true ->
  prop frame "type" = VStr "requestAIResponse" ->
  generateAIResponse env (requested_transcript frame)
    (context_at (storage w) (WebSocketClient.sessionId client)) = Throw e ->
  let r := on_message env cid (Ok frame) w in
  sent r = [(cid, JSON.stringify
                    (obj [("type", VStr "error"); ("message", VStr (error_message e))]))] /\
  storage (after r) = storage w /\
  clients (after r) = clients w /\
  calls (after r)
  = calls w ++ [GenerateAIResponse (requested_transcript frame)
                  (context_at (storage w) (WebSocketClient.sessionId client))].
Proof.
  intros Hget Hopen Hid Hjoined Htype Hthrow. cbv zeta.
  destruct (Ingress.on_message_dispatch env cid client frame w Hget Hopen
              (Ingress.typed_frame_not_nullish frame _ Htype))
    as (now0 & w1 & Hnow0 & Hticked & Hrun).
  assert (Htype' : prop (normalized client frame now0) "type" = VStr "requestAIResponse")
    by (rewrite Eval.normalized_type; exact Htype).
  rewrite (Orchestrator.dispatch_requestAIResponse env cid client _ Htype') in Hrun.
  destruct Hticked as (Hclients & Hstorage & _ & _ & Hcalls & _).
  assert (Heval := Orchestrator.generator_throws env client (normalized client frame now0) w1 e Hjoined).
  rewrite Orchestrator.transcript_of_normalized, Hstorage in Heval.
  specialize (Heval Hthrow).
  rewrite Heval in Hrun. rewrite Hrun by reflexivity.
  cbn [sent after logged storage clients calls]. rewrite Hid, Hstorage, Hclients, Hcalls.
  repeat split.
Qed.

(** Browser B of the studio asks for a response while the generator is
    down. *)
Lemma generator_failure_reported_witness :
  Map.get String.eqb "B" (clients studio) = Some (joined "B" "browser" "s1") /\
  prop request_frame "type" = VStr "requestAIResponse" /\
  generateAIResponse generator_down (requested_transcript request_frame)
    (context_at (storage studio) (VStr "s1"))
  = Throw (Error "Failed to generate AI response: Connection error.") /\
  sent (on_message generator_down "B" (Ok request_frame) studio)
  = [("B", obj [("type", VStr "error");
                ("message", VStr "Failed to generate AI response: Connection error.")])] /\
  storage (after (on_message generator_down "B" (Ok request_frame) studio)) = storage studio.
Proof.
  split; [reflexivity|]. split; [reflexivity|]. split; [reflexivity|].
  pose proof (generator_failure_reported generator_down studio "B" (joined "B" "browser" "s1")
                request_frame (Error "Failed to generate AI response: Connection error.")
                eq_refl eq_refl eq_refl eq_refl eq_refl eq_refl) as (Hsent & Hstorage & _).
  split; [exact Hsent | exact Hstorage].
Defined.

(** ** The guard of the orchestrator *)

Module Calls.

Lemma grow_of_same {A} (m : M A) : (forall w, calls (after (m w)) = calls w) -> calls_grow m.
Proof. intros H w. exists []. rewrite app_nil_r. apply H. Qed.

Lemma grow_bind {A B} (m : M A) (f : A -> M B) :
  calls_grow m -> (forall a, calls_grow (f a)) -> calls_grow (bind m f).
Proof.
  intros Hm Hf w. unfold bind. destruct (Hm w) as (rest & Hrest).
  destruct (ret (m w)) as [a|e]; cbn [after].
  - destruct (Hf a (after (m w))) as (rest' & Hrest').
    exists (rest ++ rest'). rewrite Hrest', Hrest, app_assoc. reflexivity.
  - exists rest. exact Hrest.
Qed.

Lemma grow_try_catch {A} (m : M A) (h : exn -> M A) :
  calls_grow m -> (forall e, calls_grow (h e)) -> calls_grow (try_catch m h).
Proof.
  intros Hm Hh w. unfold try_catch. destruct (Hm w) as (rest & Hrest).
  destruct (ret (m w)) as [a|e]; cbn [after].
  - exists rest. exact Hrest.
  - destruct (Hh e (after (m w))) as (rest' & Hrest').
    exists (rest ++ rest'). rewrite Hrest', Hrest, app_assoc. reflexivity.
Qed.

Section Env.
Variable env : Env.

Lemma grow_call_service {A} (c : call) (answer : result A) : calls_grow (call_service c answer).
Proof. intros w. exists [c]. reflexivity. Qed.

Lemma grow_createMessage (i : InsertMessage.t) : calls_grow (createMessage env i).
Proof. apply grow_of_same. reflexivity. Qed.

Lemma grow_upsertAnalytics (i : InsertAnalytics.t) : calls_grow (upsertAnalytics env i).
Proof.
  apply grow_of_same. intros w. unfold upsertAnalytics.
  rewrite (bind_eval get_world _ w w w []) by reflexivity. cbv zeta.
  destruct (Map.get same_value_zero _ _) as [a|]; [destruct (String.eqb _ "")|]; reflexivity.
Qed.

Lemma grow_respond_with (sid : value) (context : ConversationContext.t) (g : string * float) :
  calls_grow (respond_with env sid context g).
Proof.
  unfold respond_with.
  apply grow_bind; [apply grow_of_same; reflexivity | intros speakers].
  destruct (find _ speakers); [|apply grow_of_same; reflexivity].
  apply grow_bind; [apply grow_createMessage | intros aiMessage].
  apply grow_bind; [apply grow_call_service | intros audioBuffer].
  apply grow_bind; [apply grow_of_same; reflexivity | intros _].
  apply grow_bind; [apply grow_of_same; reflexivity | intros analytics].
  destruct analytics; [|apply grow_of_same; reflexivity].
  apply grow_bind; [apply grow_upsertAnalytics | intros _; apply grow_of_same; reflexivity].
Qed.

(** A joined connection's request reaches the generator. *)
Lemma generator_called (client : WebSocketClient.t) (m : value) (w : World) :
  truthy (WebSocketClient.sessionId client) = true ->
  exists rest,
    calls (after (handleAIResponseRequest env client m w))
    = calls w ++ GenerateAIResponse (transcript_of m)
                   (context_at (storage w) (WebSocketClient.sessionId client)) :: rest.
Proof.
  intros Hjoined. rewrite Orchestrator.starts_with_generation by exact Hjoined.
  set (c := GenerateAIResponse _ _).
  set (answer := generateAIResponse env _ _).
  set (k := respond_with env _ _).
  set (h := fun error : exn => send _ _).
  change (try_catch (generated <- call_service c answer ;; k generated) h w)
    with (try_catch (generated <- lift answer ;; k generated) h (logged c w)).
  assert (Hgrow : calls_grow (try_catch (generated <- lift answer ;; k generated) h)).
  { apply grow_try_catch.
    - apply grow_bind; [apply grow_of_same; reflexivity | intros g; apply grow_respond_with].
    - intros e. apply grow_of_same. reflexivity. }
  destruct (Hgrow (logged c w)) as (rest & Hrest).
  exists rest. rewrite Hrest. cbn [logged calls]. rewrite <- app_assoc. reflexivity.
Qed.

End Env.
End Calls.

(** C3, as the code has it.  A [requestAIResponse] frame is dropped, with
    no call to the generator, no message sent and no change to the
    repository or the registry, when the sending connection has no
    recorded session.  From a connection that has one, whatever its
    recorded kind and whatever the payload, the request reaches the
    orchestrator: the generator is called. *)
Theorem request_gate_is_session (env : Env) (w : World) (cid : string)
    (client : WebSocketClient.t) (frame : value) :
  Map.get String.eqb cid (clients w) = Some client ->
  WebSocketClient.ws client = OPEN ->
  prop frame "type" = VStr "requestAIResponse" ->
  let r := on_message env cid (Ok frame) w in
  (truthy (WebSocketClient.sessionId client) = false ->
   sent r = [] /\ calls (after r) = calls w /\
   storage (after r) = storage w /\ clients (after r) = clients w) /\
  (truthy (WebSocketClient.sessionId client) = true ->
   exists rest,
     calls (after r)
     = calls w ++ GenerateAIResponse (requested_transcript frame)
                    (context_at (storage w) (WebSocketClient.sessionId client)) :: rest).
Proof.
  intros Hget Hopen Htype. cbv zeta.
  destruct (Ingress.on_message_dispatch env cid client frame w Hget Hopen
              (Ingress.typed_frame_not_nullish frame _ Htype))
    as (now0 & w1 & Hnow0 & Hticked & Hrun).
  assert (Htype' : prop (normalized client frame now0) "type" = VStr "requestAIResponse")
    by (rewrite Eval.normalized_type; exact Htype).
  rewrite (Orchestrator.dispatch_requestAIResponse env cid client _ Htype') in Hrun.
  rewrite Hrun by apply Orchestrator.request_returns. clear Hrun.
  destruct Hticked as (Hclients & Hstorage & _ & _ & Hcalls & _).
  split; intros Hsession.
  - rewrite Orchestrator.unjoined_returns by exact Hsession. cbn.
    repeat split; assumption.
  - destruct (Calls.generator_called env client (normalized client frame now0) w1 Hsession)
      as (rest & Hrest).
    exists rest. rewrite Hrest, Orchestrator.transcript_of_normalized, Hstorage, Hcalls.
    reflexivity.
Qed.

(** Connection D of the studio, not joined, asks for a response; so does
    its desktop A, which has joined "s1". *)
Lemma request_gate_is_session_witness :
  Map.get String.eqb "D" (clients studio) = Some (unjoined "D") /\
  prop request_frame "type" = VStr "requestAIResponse" /\
  sent (on_message answering "D" (Ok request_frame) studio) = [] /\
  calls (after (on_message answering "D" (Ok request_frame) studio)) = [] /\
  storage (after (on_message answering "D" (Ok request_frame) studio)) = storage studio.
Proof.
  split; [reflexivity|]. split; [reflexivity|].
  pose proof (request_gate_is_session answering studio "D" (unjoined "D") request_frame
                eq_refl eq_refl eq_refl) as [Hdropped _].
  destruct (Hdropped eq_refl) as (Hsent & Hcalls & Hstorage & _).
  split; [exact Hsent|]. split; [exact Hcalls | exact Hstorage].
Defined.

(** C3 as stated fails for a joined desktop: the request of desktop A of
    the studio calls the generator and the synthesizer, persists the reply
    and broadcasts an [aiResponse] to session "s1". *)
Lemma desktop_request_counterexample :
  Map.get String.eqb "A" (clients studio) = Some (joined "A" "desktop" "s1") /\
  calls (after (on_message answering "A" (Ok request_frame) studio))
  = [GenerateAIResponse (VStr "") (context_at (storage studio) (VStr "s1"));
     SynthesizeSpeech "I see what you mean!" (VStr "energetic-podcaster")] /\
  map fst (MemStorage.messages (storage (after (on_message answering "A" (Ok request_frame) studio))))
  = ["uuid-0"] /\
  exists envelope,
    deliveries_to "B" (sent (on_message answering "A" (Ok request_frame) studio)) = [envelope] /\
    prop envelope "type" = VStr "aiResponse".
Proof.
  split; [reflexivity|]. split; [vm_compute; reflexivity|]. split; [vm_compute; reflexivity|].
  eexists. split; [vm_compute; reflexivity|]. reflexivity.
Qed.

(** ** The fields of outgoing envelopes *)

Module Fields.

Lemma stringify_defined (v : value) : v <> VUndefined -> JSON.stringify v <> VUndefined.
Proof.
  destruct v; simpl; try congruence; try discriminate.
  destruct (PrimFloat.is_zero x); [discriminate|].
  destruct (PrimFloat.is_finite x); discriminate.
Qed.

Lemma truthy_defined (v : value) : truthy v = true -> v <> VUndefined.
Proof. destruct v; simpl; congruence. Qed.

Lemma or_defined (a b : value) : b <> VUndefined -> or a b <> VUndefined.
Proof.
  intros Hb. unfold or. destruct (truthy a) eqn:Ha; [apply truthy_defined; exact Ha | exact Hb].
Qed.

(** A field of the decoded object is the decoded field, when the keys of
    the object are distinct. *)
Lemma prop_stringify (r : ref) (fields : list (string * value)) (k : string) :
  NoDup (map fst fields) ->
  prop (JSON.stringify (VObj r fields)) k = JSON.stringify (assoc k fields).
Proof.
  simpl. induction fields as [|[k' v] fields IH]; intros Hnd; [reflexivity|].
  inversion Hnd as [|? ? Hnotin Hnd']; subst. specialize (IH Hnd').
  assert (Hskip : k = k' ->
    assoc k ((fix members (fs : list (string * value)) : list (string * value) :=
                match fs with
                | [] => []
                | (k0, x) :: rest =>
                    match JSON.stringify x with
                    | VUndefined => members rest
                    | j => (k0, j) :: members rest
                    end
                end) fields) = VUndefined).
  { intros ->. clear IH Hnd Hnd'. induction fields as [|[k0 v0] fields IH]; [reflexivity|].
    simpl in Hnotin.
    assert (Hne : String.eqb k' k0 = false) by (apply String.eqb_neq; intuition congruence).
    assert (Hrest : ~ In k' (map fst fields)) by tauto.
    destruct (JSON.stringify v0); simpl; rewrite ?Hne; apply IH; exact Hrest. }
  simpl assoc at 2.
  destruct (String.eqb_spec k k') as [Heq|Hne].
  - destruct (JSON.stringify v) eqn:Hv; simpl; rewrite ?Heq, ?String.eqb_refl;
      try reflexivity.
    rewrite <- Heq. apply Hskip. exact Heq.
  - destruct (JSON.stringify v) eqn:Hv; simpl;
      try (destruct (String.eqb_spec k k'); [contradiction|]); exact IH.
Qed.

Ltac distinct_keys := simpl; repeat (constructor; [simpl; intuition discriminate|]); constructor.

Section Input.
Variable i : input.

Lemma typed_ok (type : string) (source data stamp : value) :
  In type typed_types ->
  source <> VUndefined -> stamp <> VUndefined ->
  (data <> VUndefined \/ frame_without_data i) ->
  envelope_for i
    (JSON.stringify
       (obj [("type", VStr type); ("source", source); ("data", data); ("timestamp", stamp)])).
Proof.
  intros Hty Hsource Hstamp Hdata. exists type. unfold present, absent, obj.
  rewrite !prop_stringify by distinct_keys. cbn [assoc String.eqb Ascii.eqb Bool.eqb].
  split; [reflexivity|]. left. split; [exact Hty|].
  split; [apply stringify_defined; exact Hsource|].
  split; [apply stringify_defined; exact Hstamp|].
  destruct Hdata as [Hdata|Hnone]; [left; apply stringify_defined; exact Hdata | right; exact Hnone].
Qed.

Lemma legacy_ok (type : string) (data : value) :
  In type legacy_types -> data <> VUndefined ->
  envelope_for i (JSON.stringify (obj [("type", VStr type); ("data", data)])).
Proof.
  intros Hty Hdata. exists type. unfold present, absent, obj.
  rewrite !prop_stringify by distinct_keys. cbn [assoc String.eqb Ascii.eqb Bool.eqb].
  split; [reflexivity|]. right. left. split; [exact Hty|].
  split; [reflexivity|]. split; [reflexivity|].
  apply stringify_defined; exact Hdata.
Qed.

Lemma error_ok (message : string) :
  envelope_for i (JSON.stringify (obj [("type", VStr "error"); ("message", VStr message)])).
Proof.
  exists "error". split; [reflexivity|]. right. right.
  unfold present, absent. cbn. repeat split. discriminate.
Qed.

End Input.
End Fields.

Module Envelopes.
Section Env.
Variable env : Env.
Variable i : input.

Local Abbreviation Q := (envelope_for i).

Lemma in_typed (type : string) :
  (if existsb (String.eqb type) typed_types then True else False) -> In type typed_types.
Proof.
  destruct (existsb (String.eqb type) typed_types) eqn:E; [|tauto]. intros _.
  apply existsb_exists in E as (t & Hin & Heq). apply String.eqb_eq in Heq. subst. exact Hin.
Qed.

Lemma in_legacy (type : string) :
  (if existsb (String.eqb type) legacy_types then True else False) -> In type legacy_types.
Proof.
  destruct (existsb (String.eqb type) legacy_types) eqn:E; [|tauto]. intros _.
  apply existsb_exists in E as (t & Hin & Heq). apply String.eqb_eq in Heq. subst. exact Hin.
Qed.

Lemma orchestrator (client : WebSocketClient.t) (m : value) :
  sends_only Q (handleAIResponseRequest env client m).
Proof.
  apply Orchestrator.orchestrator_sends.
  - intros data Hdata. apply Fields.legacy_ok; [apply in_legacy; exact I | exact Hdata].
  - intros message. apply Fields.error_ok.
Qed.

Lemma hotkey (client : WebSocketClient.t) (m : value) :
  sends_only Q (handleHotkey env client m).
Proof.
  unfold handleHotkey.
  destruct (negb (truthy (WebSocketClient.sessionId client))); [apply Sends.pure_|].
  apply Sends.bind_.
  - apply Sends.broadcastToSession_.
    apply Fields.legacy_ok; [apply in_legacy; exact I | discriminate].
  - intros _.
    repeat match goal with
           | |- sends_only _ (if ?b then _ else _) => destruct b
           end;
      first [apply orchestrator | apply Sends.pure_].
Qed.

(** What [upsertAIPersonality] returns is an object. *)
Lemma upsert_returns_object (insertPersonality : value) (w : World) :
  exists fields w1,
    upsertAIPersonality env insertPersonality w
    = {| ret := Ok (obj fields); after := w1; sent := [] |}.
Proof.
  unfold upsertAIPersonality.
  rewrite (bind_eval get_world _ w w w []) by reflexivity.
  cbv zeta.
  destruct (truthy (opt_prop _ "id")); eexists _, _; reflexivity.
Qed.

Lemma personality (client : WebSocketClient.t) (m : value) :
  sends_only Q (handlePersonalityUpdate env client m).
Proof.
  unfold handlePersonalityUpdate.
  destruct (negb (truthy (WebSocketClient.sessionId client))); [apply Sends.pure_|].
  apply Sends.try_catch_; [|intros _; apply Sends.pure_].
  intros w.
  destruct (upsert_returns_object
              (obj (set_fields (own_props (prop m "personality"))
                      [("sessionId", WebSocketClient.sessionId client)])) w)
    as (fields & w1 & Heq).
  rewrite (bind_eval _ _ _ _ _ _ Heq). cbn [sent app].
  apply Sends.broadcastToSession_.
  apply Fields.legacy_ok; [apply in_legacy; exact I | discriminate].
Qed.

Lemma audio_event (e : AudioProcessor.event) : sends_only Q (on_audio_event env e).
Proof.
  destruct e; cbn [on_audio_event]; try apply Sends.pure_.
  - apply Sends.broadcast_.
    apply Fields.legacy_ok; [apply in_legacy; exact I | discriminate].
  - apply Sends.try_catch_; [|intros _; apply Sends.pure_].
    apply Sends.bind_; [apply Sends.call_service_ | intros transcribed].
    destruct (negb (blank (fst transcribed))); [|apply Sends.pure_].
    apply Sends.broadcast_.
    apply Fields.legacy_ok; [apply in_legacy; exact I | discriminate].
Qed.

Lemma audio_events (events : list AudioProcessor.event) :
  sends_only Q (for_each (on_audio_event env) events).
Proof.
  induction events as [|e events IH]; cbn [for_each]; [apply Sends.pure_|].
  apply Sends.bind_; [apply audio_event | intros _; exact IH].
Qed.

Lemma audio_chunk (chunk : Buffer) : sends_only Q (processAudioChunk env chunk).
Proof.
  unfold processAudioChunk.
  apply Sends.bind_; [apply Sends.get_world_ | intros w].
  destruct (AudioProcessor.processAudioChunk _ chunk _) as [returned [a events]].
  apply Sends.bind_; [apply Sends.put_world_ | intros _].
  apply Sends.bind_; [apply audio_events | intros _; apply Sends.lift_].
Qed.

(** A forward stamps the message and fans it out. *)
Lemma forward (type : string) (source m : value) (fan_out : value -> M unit) :
  In type typed_types ->
  source <> VUndefined ->
  (prop m "data" <> VUndefined \/ frame_without_data i) ->
  (forall message, Q (JSON.stringify message) -> sends_only Q (fan_out message)) ->
  sends_only Q (message <- forwarded env type source m ;; fan_out message).
Proof.
  intros Hty Hsource Hdata Hfan w.
  destruct (Eval.forwarded_eval env type source m w) as (stamp & w1 & Heq & _ & Hstamp).
  rewrite (bind_eval _ _ _ _ _ _ Heq). cbn [sent app].
  apply Hfan. apply Fields.typed_ok; try assumption.
  apply Fields.truthy_defined. exact Hstamp.
Qed.

Lemma routed (cid : string) (client : WebSocketClient.t) (m : value) :
  (prop m "data" <> VUndefined \/ frame_without_data i) ->
  sends_only Q (dispatch env cid client m).
Proof.
  intros Hdata. unfold dispatch, set_client.
  repeat match goal with
         | |- sends_only _ (if type_is m ?t then _ else _) => destruct (type_is m t)
         end.
  - (* joinSession *)
    apply Sends.bind_; [sends | intros _].
    destruct (truthy _); [|apply Sends.pure_].
    apply Sends.bind_; [apply Sends.Date_now_ | intros now].
    apply Sends.broadcastToSession_.
    apply Fields.typed_ok; [apply in_typed; exact I | discriminate | discriminate |].
    left. discriminate.
  - (* desktop_connect *)
    apply Sends.bind_; [sends | intros _].
    destruct (truthy _); [|apply Sends.pure_].
    apply Sends.bind_; [apply Sends.Date_now_ | intros now].
    apply Sends.broadcastToBrowserClients_.
    apply Fields.typed_ok; [apply in_typed; exact I | discriminate | discriminate |].
    left. discriminate.
  - (* transcript *)
    destruct (_ && _); [|apply Sends.pure_].
    apply forward; [apply in_typed; exact I | discriminate | exact Hdata |].
    intros message H. apply Sends.broadcastToBrowserClients_. exact H.
  - (* ai_response *)
    destruct (_ && _); [|apply Sends.pure_].
    apply forward; [apply in_typed; exact I | discriminate | exact Hdata |].
    intros message H. apply Sends.broadcastToDesktopClients_. exact H.
  - (* control_command *)
    destruct (_ && _); [|apply Sends.pure_].
    apply forward; [apply in_typed; exact I | discriminate | exact Hdata |].
    intros message H. apply Sends.broadcastToDesktopClients_. exact H.
  - (* audio_levels *)
    destruct (_ && _); [|apply Sends.pure_].
    apply forward; [apply in_typed; exact I | discriminate | exact Hdata |].
    intros message H. apply Sends.broadcastToBrowserClients_. exact H.
  - (* status *)
    destruct (truthy _); [|apply Sends.pure_].
    apply forward; [apply in_typed; exact I | | exact Hdata |].
    + apply Fields.or_defined. discriminate.
    + intros message H. apply Sends.broadcastToSession_. exact H.
  - (* audioData *)
    destruct (truthy _); [|apply Sends.pure_].
    apply Sends.bind_; [apply Sends.lift_ | intros audioBuffer; apply audio_chunk].
  - apply orchestrator.
  - apply hotkey.
  - apply personality.
  - apply Sends.pure_.
Qed.

End Env.

(** The normalized message has [data] unless the frame is of the typed
    dialect and has none. *)
Lemma normalized_data_defined (cid : string) (client : WebSocketClient.t)
    (frame : value) (now : Z) :
  nullish frame = false ->
  prop (normalized client frame now) "data" <> VUndefined \/
  frame_without_data (Frame cid (Ok frame)).
Proof.
  intros Hnull. unfold normalized. destruct (is_legacy frame) eqn:Hleg.
  - left. cbn. apply Fields.or_defined. destruct frame; simpl in Hnull; congruence.
  - destruct (prop frame "data") eqn:Hd; try (left; discriminate).
    right. cbn. split; [exact Hleg | exact Hd].
Qed.

End Envelopes.

(** C1, as the code has it.  Every message the hub writes to a socket
    while it handles a connection, a frame or a close carries [type].
    - Those built as protocol messages ([connected], the [error] reply to
      a frame that cannot be handled, [status], and the forwarded
      [transcript], [audio_levels], [ai_response], [control_command] and
      [status]) also carry [source] and [timestamp], and carry [data]
      unless they forward a frame of the typed dialect that had none.
    - Those of the legacy paths ([aiResponse], [hotkeyTriggered],
      [personalityUpdated], [audioLevel], [transcription]) carry [data]
      but neither [source] nor [timestamp].
    - The orchestrator's [error] reply carries [message] and none of
      [source], [timestamp] and [data]. *)
Theorem envelopes_carry_fields (env : Env) (w : World) (i : input) :
  Forall (fun d : delivery => envelope_for i (snd d)) (sent (step env i w)).
Proof.
  assert (Herror : forall cid e,
            sends_only (envelope_for i)
              (now <- Date_now env ;;
               send cid
                 (obj [("type", VStr "error"); ("source", VStr "server");
                       ("data", obj [("message", VStr (error_message e))]);
                       ("timestamp", VStr (Date.toISOString now))]))).
  { intros cid e. apply Sends.bind_; [apply Sends.Date_now_ | intros now].
    apply Sends.send_.
    apply Fields.typed_ok; [apply Envelopes.in_typed; exact I | discriminate | discriminate |].
    left. discriminate. }
  destruct i as [cid | cid [frame|e] | cid]; cbn [step].
  - (* a connection *)
    revert w. change (sends_only (envelope_for (Connection cid)) (on_connection env cid)).
    unfold on_connection, set_client.
    apply Sends.bind_; [sends | intros _].
    apply Sends.bind_; [apply Sends.Date_now_ | intros now].
    apply Sends.send_.
    apply Fields.typed_ok; [apply Envelopes.in_typed; exact I | discriminate | discriminate |].
    left. discriminate.
  - (* a frame that parses *)
    rewrite Eval.on_message_parsed. revert w.
    change (sends_only (envelope_for (Frame cid (Ok frame)))
              (try_catch (handleWebSocketMessage env cid frame)
                 (fun error =>
                    now <- Date_now env ;;
                    send cid
                      (obj [("type", VStr "error"); ("source", VStr "server");
                            ("data", obj [("message", VStr (error_message error))]);
                            ("timestamp", VStr (Date.toISOString now))])))).
    apply Sends.try_catch_; [|intros e; apply Herror].
    unfold handleWebSocketMessage.
    apply Sends.bind_; [apply Sends.get_world_ | intros w0].
    destruct (Map.get String.eqb cid (clients w0)) as [client|]; [|apply Sends.pure_].
    destruct (negb (is_OPEN (WebSocketClient.ws client))); [apply Sends.pure_|].
    destruct (nullish frame) eqn:Hnull; [apply Sends.throw_|].
    intros w1.
    destruct (Eval.normalize_eval env client frame w1) as (w2 & now & Heq & _ & _).
    rewrite (bind_eval _ _ _ _ _ _ Heq). cbn [sent app].
    apply Envelopes.routed. apply Envelopes.normalized_data_defined. exact Hnull.
  - (* a frame that does not parse *)
    change (on_message env cid (Throw e) w)
      with ((now <- Date_now env ;;
             send cid
               (obj [("type", VStr "error"); ("source", VStr "server");
                     ("data", obj [("message", VStr (error_message e))]);
                     ("timestamp", VStr (Date.toISOString now))])) w).
    apply Herror.
  - (* a close *)
    revert w. change (sends_only (envelope_for (Close cid)) (on_close env cid)).
    unfold on_close.
    apply Sends.bind_; [apply Sends.get_world_ | intros w0].
    apply Sends.bind_; [|intros _; sends].
    destruct (Map.get String.eqb cid (clients w0)) as [client|]; [|apply Sends.pure_].
    destruct (truthy _); [|apply Sends.pure_].
    apply Sends.bind_; [apply Sends.Date_now_ | intros now].
    apply Sends.broadcastToSession_.
    apply Fields.typed_ok; [apply Envelopes.in_typed; exact I | discriminate | discriminate |].
    left. discriminate.
Qed.

(** C1 as stated fails on the legacy paths: the [hotkeyTriggered] envelope
    browser B of the studio receives for its own hotkey has neither
    [source] nor [timestamp]. *)
Lemma hotkey_envelope_counterexample :
  exists envelope,
    deliveries_to "B" (sent (on_message answering "B" (Ok hotkey_frame) studio)) = [envelope] /\
    prop envelope "type" = VStr "hotkeyTriggered" /\
    prop envelope "source" = VUndefined /\
    prop envelope "timestamp" = VUndefined.
Proof.
  eexists. split; [vm_compute; reflexivity|]. repeat split.
Qed.

(** ** Hotkeys *)

Module Hotkey.

Lemma strict_eq_refl (v : value) : truthy v = true -> strict_eq v v = true.
Proof.
  destruct v; simpl; intros H; try reflexivity; try discriminate.
  - destruct b; reflexivity.
  - apply negb_true_iff, orb_false_iff in H as [_ H].
    unfold PrimFloat.is_nan in H. apply negb_false_iff in H. exact H.
  - apply String.eqb_refl.
  - apply Nat.eqb_refl.
  - apply Nat.eqb_refl.
  - apply Nat.eqb_refl.
Qed.

Lemma triggered_app (a b : list value) : triggered (a ++ b) = triggered a ++ triggered b.
Proof. apply filter_app. Qed.

(** No [hotkeyTriggered] among messages that are all of other types. *)
Lemma triggered_none (k : string) (ds : list delivery) :
  Forall (fun d : delivery => strict_eq (prop (snd d) "type") (VStr "hotkeyTriggered") = false) ds ->
  triggered (deliveries_to k ds) = [].
Proof.
  unfold triggered, deliveries_to.
  induction ds as [|d ds IH]; intros H; [reflexivity|].
  inversion H as [|? ? Hd Hds]; subst. simpl.
  destruct (String.eqb (fst d) k); simpl; rewrite ?Hd; apply IH; exact Hds.
Qed.

Section Env.
Variable env : Env.

Lemma dispatch_hotkey (cid : string) (client : WebSocketClient.t) (m : value) :
  prop m "type" = VStr "hotkey" ->
  dispatch env cid client m = handleHotkey env client m.
Proof. intros H. unfold dispatch, type_is. rewrite H. reflexivity. Qed.

Lemma dispatch_status (cid : string) (client : WebSocketClient.t) (m : value) :
  prop m "type" = VStr "status" ->
  dispatch env cid client m
  = (if truthy (WebSocketClient.sessionId client) then
       statusMessage <- forwarded env "status"
         (or (or (prop m "source") (WebSocketClient.clientType client)) (VStr "browser")) m ;;
       broadcastToSession (WebSocketClient.sessionId client) statusMessage (Some cid)
     else pure tt).
Proof. intros H. unfold dispatch, type_is. rewrite H. reflexivity. Qed.

Lemma hotkey_returns (client : WebSocketClient.t) (m : value) (w : World) :
  ret (handleHotkey env client m w) = Ok tt.
Proof.
  unfold handleHotkey.
  destruct (negb (truthy (WebSocketClient.sessionId client))); [reflexivity|].
  unfold bind at 1. cbn [broadcastToSession bind get_world send_all ret after].
  repeat match goal with
         | |- context [if ?b then _ else _] => destruct b
         end;
    first [apply Orchestrator.request_returns | reflexivity].
Qed.

(** After the fan-out of the [hotkeyTriggered] envelope, what else is sent
    is not one. *)
Lemma hotkey_eval (client : WebSocketClient.t) (m : value) (w : World) :
  truthy (WebSocketClient.sessionId client) = true ->
  exists later,
    sent (handleHotkey env client m w)
    = map (fun to =>
             (to, JSON.stringify
                    (obj [("type", VStr "hotkeyTriggered");
                          ("data", obj [("key", prop m "key");
                                        ("command", prop m "command")])])))
          (map fst (filter (fun entry => in_session (WebSocketClient.sessionId client) entry
                                         && not_excluded None entry) (clients w)))
      ++ later /\
    Forall (fun d : delivery =>
              strict_eq (prop (snd d) "type") (VStr "hotkeyTriggered") = false) later.
Proof.
  intros Hjoined. unfold handleHotkey. rewrite Hjoined. cbn [negb].
  unfold bind at 1. cbn [broadcastToSession bind get_world send_all ret after sent app].
  eexists. split; [reflexivity|].
  assert (Horch : forall message,
            Forall (fun d : delivery =>
                      strict_eq (prop (snd d) "type") (VStr "hotkeyTriggered") = false)
                   (sent (handleAIResponseRequest env client message w))).
  { intros message.
    apply (Orchestrator.orchestrator_sends env
             (fun p => strict_eq (prop p "type") (VStr "hotkeyTriggered") = false)
             client message).
    - intros data Hdata. unfold obj. rewrite Fields.prop_stringify by Fields.distinct_keys.
      reflexivity.
    - intros msg. reflexivity. }
  repeat match goal with
         | |- context [if ?b then _ else _] => destruct b
         end;
    first [apply Horch | constructor].
Qed.

End Env.
End Hotkey.

(** C10.  A [hotkey] frame from an open connection recorded in session S
    puts exactly one [hotkeyTriggered] envelope on the socket of every
    open connection recorded in S, the sender's included, and on no other
    socket; a [status] frame from the same connection is forwarded to the
    open connections recorded in S except the sender, who receives
    nothing. *)
Theorem hotkey_reaches_sender (env : Env) (w : World) (cid : string)
    (client : WebSocketClient.t) (frame status_frame S : value) :
  wf_registry (clients w) ->
  Map.get String.eqb cid (clients w) = Some client ->
  WebSocketClient.ws client = OPEN ->
  WebSocketClient.sessionId client = S ->
  truthy S = true ->
  prop frame "type" = VStr "hotkey" ->
  prop status_frame "type" = VStr "status" ->
  (exists envelope,
     prop envelope "type" = VStr "hotkeyTriggered" /\
     triggered (deliveries_to cid (sent (on_message env cid (Ok frame) w))) = [envelope] /\
     forall k,
       triggered (deliveries_to k (sent (on_message env cid (Ok frame) w)))
       = if registered (clients w) (in_session S) k then [envelope] else []) /\
  (exists envelope,
     prop envelope "type" = VStr "status" /\
     deliveries_to cid (sent (on_message env cid (Ok status_frame) w)) = [] /\
     forall k,
       deliveries_to k (sent (on_message env cid (Ok status_frame) w))
       = if registered (clients w) (in_session S) k && negb (String.eqb k cid)
         then [envelope] else []).
Proof.
  intros Hwf Hget Hopen HS Htruthy Htype Hstatus.
  assert (Hmember : registered (clients w) (in_session S) cid = true).
  { unfold registered, in_session. rewrite Hget. cbn [snd]. rewrite HS, Hopen.
    rewrite Hotkey.strict_eq_refl by exact Htruthy. reflexivity. }
  split.
  - destruct (Ingress.on_message_dispatch env cid client frame w Hget Hopen
                (Ingress.typed_frame_not_nullish frame _ Htype))
      as (now0 & w1 & _ & (Hclients & _) & Hrun).
    assert (Htype' : prop (normalized client frame now0) "type" = VStr "hotkey")
      by (rewrite Eval.normalized_type; exact Htype).
    rewrite (Hotkey.dispatch_hotkey env cid client _ Htype') in Hrun.
    rewrite Hrun by apply Hotkey.hotkey_returns. clear Hrun.
    destruct (Hotkey.hotkey_eval env client (normalized client frame now0) w1)
      as (later & Hsent & Hlater); [rewrite HS; exact Htruthy|].
    rewrite Hsent, HS, Hclients. clear Hsent.
    set (envelope := JSON.stringify _).
    assert (Henvelope : prop envelope "type" = VStr "hotkeyTriggered").
    { subst envelope. unfold obj. rewrite Fields.prop_stringify by Fields.distinct_keys.
      reflexivity. }
    assert (Hall : forall k,
      triggered
        (deliveries_to k
           (map (fun to => (to, envelope))
              (map fst (filter (fun entry => in_session S entry && not_excluded None entry)
                               (clients w))) ++ later))
      = if registered (clients w) (in_session S) k then [envelope] else []).
    { intros k. rewrite HubFacts.deliveries_to_app, Hotkey.triggered_app.
      rewrite (Hotkey.triggered_none k later Hlater), app_nil_r.
      rewrite HubFacts.deliveries_to_fanout by exact Hwf.
      rewrite (Recipients.registered_ext _ _ (in_session S) k)
        by (intros c; apply andb_true_r).
      destruct (registered (clients w) (in_session S) k); [|reflexivity].
      unfold triggered. cbn [filter]. rewrite Henvelope. reflexivity. }
    exists envelope. split; [exact Henvelope|]. split; [|exact Hall].
    rewrite Hall, Hmember. reflexivity.
  - destruct (Ingress.on_message_dispatch env cid client status_frame w Hget Hopen
                (Ingress.typed_frame_not_nullish status_frame _ Hstatus))
      as (now0 & w1 & _ & (Hclients & _) & Hrun).
    assert (Htype' : prop (normalized client status_frame now0) "type" = VStr "status")
      by (rewrite Eval.normalized_type; exact Hstatus).
    rewrite (Hotkey.dispatch_status env cid client _ Htype') in Hrun.
    rewrite HS, Htruthy in Hrun.
    destruct (Eval.forwarded_eval env "status"
                (or (or (prop (normalized client status_frame now0) "source")
                        (WebSocketClient.clientType client)) (VStr "browser"))
                (normalized client status_frame now0) w1)
      as (stamp & w2 & Heq & (Hclients2 & _) & Hstamp).
    rewrite (bind_eval _ _ _ _ _ _ Heq) in Hrun.
    rewrite Hrun by reflexivity. clear Hrun.
    cbn [sent ret after broadcastToSession bind get_world send_all app].
    rewrite Hclients2, Hclients.
    set (envelope := JSON.stringify _).
    assert (Hall : forall k,
      deliveries_to k
        (map (fun to => (to, envelope))
           (map fst (filter (fun entry => in_session S entry && not_excluded (Some cid) entry)
                            (clients w))))
      = if registered (clients w) (in_session S) k && negb (String.eqb k cid)
        then [envelope] else []).
    { intros k. rewrite HubFacts.deliveries_to_fanout by exact Hwf.
      apply f_equal with (f := fun b : bool => if b then _ else _).
      unfold registered. destruct (Map.get String.eqb k (clients w)); reflexivity. }
    exists envelope. split; [|split; [|exact Hall]].
    + subst envelope. unfold obj. rewrite Fields.prop_stringify by Fields.distinct_keys.
      reflexivity.
    + rewrite Hall, String.eqb_refl, andb_false_r. reflexivity.
Qed.

(** Browser B of the studio presses a hotkey, then reports a status. *)
Lemma hotkey_reaches_sender_witness :
  wf_registry (clients studio) /\
  Map.get String.eqb "B" (clients studio) = Some (joined "B" "browser" "s1") /\
  prop hotkey_frame "type" = VStr "hotkey" /\
  prop status_x_frame "type" = VStr "status" /\
  (exists envelope,
     prop envelope "type" = VStr "hotkeyTriggered" /\
     triggered (deliveries_to "B" (sent (on_message answering "B" (Ok hotkey_frame) studio)))
     = [envelope]) /\
  deliveries_to "B" (sent (on_message answering "B" (Ok status_x_frame) studio)) = [].
Proof.
  assert (Hwf : wf_registry (clients studio)).
  { unfold wf_registry. simpl.
    repeat (constructor; [simpl; intuition discriminate|]). constructor. }
  split; [exact Hwf|]. split; [reflexivity|]. split; [reflexivity|]. split; [reflexivity|].
  destruct (hotkey_reaches_sender answering studio "B" (joined "B" "browser" "s1")
              hotkey_frame status_x_frame (VStr "s1")
              Hwf eq_refl eq_refl eq_refl eq_refl eq_refl eq_refl)
    as ((envelope & Htype & Hself & _) & (status & _ & Hnone & _)).
  split; [exists envelope; split; assumption | exact Hnone].
Defined.
(** * Further properties *)

(** ** The accumulator beyond the threshold *)

Module AccumulatorFacts.
Import AudioProcessor.

Lemma contents_app (xs ys : list Buffer) : contents (xs ++ ys) = contents xs ++ contents ys.
Proof. unfold contents. rewrite map_app, concat_app. reflexivity. Qed.

Lemma contents_cons (c : Buffer) (xs : list Buffer) : contents (c :: xs) = bytes c ++ contents xs.
Proof. reflexivity. Qed.

Lemma contents_snoc (xs : list Buffer) (c : Buffer) : contents (xs ++ [c]) = contents xs ++ bytes c.
Proof. rewrite contents_app. unfold contents at 2. simpl. rewrite app_nil_r. reflexivity. Qed.

Lemma length_contents_total (chunks : list Buffer) :
  Z.of_nat (length (contents chunks)) = total chunks.
Proof.
  induction chunks as [|c chunks IH] using rev_ind.
  - reflexivity.
  - rewrite contents_snoc, length_app, AudioFacts.total_snoc. lia.
Qed.

Section Level.
Variable level : Buffer -> float.

(** One chunk, while processing: what was held and the chunk are either
    all still held or all handed off; an aligned chunk gives one level, any
    other none. *)
Lemma chunk_conserved (c : Buffer) (s : t) :
  isProcessing s = true ->
  let r := snd (processAudioChunk level c s) in
  isProcessing (fst r) = true /\
  contents (ready (snd r)) ++ contents (audioBuffer (fst r)) = contents (audioBuffer s) ++ bytes c /\
  levels (snd r) = map level (filter aligned [c]).
Proof.
  intros Hp. cbv zeta. cbn [filter].
  destruct (aligned c) eqn:Ha.
  - destruct (Z.leb_spec (CHUNK_SIZE * 10) (total (audioBuffer s ++ [c]))) as [H|H].
    + rewrite AudioFacts.chunk_flushes by assumption. cbn [fst snd ready levels audioBuffer].
      change (contents [Buffer_concat (audioBuffer s ++ [c])])
        with (contents (audioBuffer s ++ [c]) ++ []).
      rewrite !app_nil_r, contents_snoc. auto.
    + rewrite AudioFacts.chunk_buffered by assumption. cbn [fst snd ready levels audioBuffer].
      rewrite contents_snoc. auto.
  - rewrite AudioFacts.chunk_throws by assumption. cbn [fst snd ready levels audioBuffer].
    rewrite contents_snoc. auto.
Qed.

Lemma levels_app (e1 e2 : list event) : levels (e1 ++ e2) = levels e1 ++ levels e2.
Proof.
  induction e1 as [|e e1 IH]; simpl; [reflexivity|].
  destruct e; simpl; rewrite ?IH; reflexivity.
Qed.

Lemma run_conserved (chunks : list Buffer) (s : t) :
  isProcessing s = true ->
  let r := run level (map Chunk chunks) s in
  isProcessing (fst r) = true /\
  contents (ready (snd r)) ++ contents (audioBuffer (fst r))
  = contents (audioBuffer s) ++ contents chunks /\
  levels (snd r) = map level (filter aligned chunks).
Proof.
  revert s. induction chunks as [|c chunks IH]; intros s Hp; cbv zeta.
  - simpl. rewrite app_nil_r. auto.
  - cbn [map run apply].
    destruct (chunk_conserved c s Hp) as (Hp1 & Hc1 & Hl1).
    destruct (snd (processAudioChunk level c s)) as [s1 e1]. cbn [fst snd] in *.
    destruct (IH s1 Hp1) as (Hp2 & Hc2 & Hl2).
    destruct (run level (map Chunk chunks) s1) as [s2 e2]. cbn [fst snd] in *.
    split; [exact Hp2|]. split.
    + rewrite AudioFacts.ready_app, contents_app, <- app_assoc, Hc2.
      rewrite app_assoc, Hc1, <- app_assoc.
      rewrite contents_cons. reflexivity.
    + rewrite levels_app, Hl1, Hl2.
      change (c :: chunks) with ([c] ++ chunks).
      rewrite filter_app, map_app. reflexivity.
Qed.

Lemma run_idle (chunks : list Buffer) (s : t) :
  isProcessing s = false -> run level (map Chunk chunks) s = (s, []).
Proof.
  intros Hp. induction chunks as [|c chunks IH]; [reflexivity|].
  cbn [map run apply]. rewrite AudioFacts.chunk_idle by exact Hp. cbn [snd].
  rewrite IH. reflexivity.
Qed.

(** Every payload handed off reaches the threshold, whatever was held. *)
Lemma apply_ready_full (o : op) (s : t) :
  Forall (fun d => (CHUNK_SIZE * 10 <= Z.of_nat (length (bytes d)))%Z)
         (ready (snd (apply level o s))).
Proof.
  destruct o; cbn; try constructor.
  unfold processAudioChunk. destruct (isProcessing s); cbn [negb]; [|constructor].
  destruct (calculateAudioLevel level chunk); [|constructor].
  destruct (Z.leb_spec (CHUNK_SIZE * 10)
              (getTotalBufferSize
                 {| isProcessing := true; audioBuffer := audioBuffer s ++ [chunk] |})) as [H|H].
  - cbn. constructor; [|constructor].
    rewrite AudioFacts.size_total in H. cbn [audioBuffer] in H.
    rewrite <- length_contents_total in H. exact H.
  - cbn. constructor.
Qed.

Lemma run_ready_full (ops : list op) (s : t) :
  Forall (fun d => (CHUNK_SIZE * 10 <= Z.of_nat (length (bytes d)))%Z)
         (ready (snd (run level ops s))).
Proof.
  revert s. induction ops as [|o ops IH]; intros s; cbn [run]; [constructor|].
  pose proof (apply_ready_full o s) as H1.
  destruct (apply level o s) as [s1 e1].
  specialize (IH s1). destruct (run level ops s1) as [s2 e2]. cbn [snd] in *.
  rewrite AudioFacts.ready_app. apply Forall_app. split; assumption.
Qed.

End Level.
End AccumulatorFacts.

(** X1.  While the accumulator is processing, no byte is lost or handed
    off twice: after any sequence of chunks, aligned or not, the bytes of
    the "audioReady" payloads, in order, followed by the bytes still held,
    are the bytes that were held before followed by those of the chunks
    fed, in order.  The "audioLevel" events are, in order, the levels of
    the aligned chunks fed: an aligned chunk produces one, and a chunk
    that is not aligned, at which the level computation throws, produces
    none. *)
Theorem chunks_conserved (level : Buffer -> float) (chunks : list Buffer)
    (s : AudioProcessor.t) :
  AudioProcessor.isProcessing s = true ->
  let r := AudioProcessor.run level (map AudioProcessor.Chunk chunks) s in
  contents (AudioProcessor.ready (snd r)) ++ contents (AudioProcessor.audioBuffer (fst r))
  = contents (AudioProcessor.audioBuffer s) ++ contents chunks /\
  levels (snd r) = map level (filter aligned chunks).
Proof.
  intros Hp. cbv zeta.
  destruct (AccumulatorFacts.run_conserved level chunks s Hp) as (_ & H1 & H2).
  split; assumption.
Qed.

(** Twelve chunks of 4096 bytes, every third of them not aligned. *)
Lemma chunks_conserved_witness :
  let chunks :=
    concat (repeat [chunk_of 4096 Byte.x01; chunk_of 4096 Byte.x02; odd_chunk_of 4096 Byte.x03] 4) in
  let r := AudioProcessor.run (fun _ => 0%float) (map AudioProcessor.Chunk chunks)
             (fst (AudioProcessor.startProcessing AudioProcessor.init)) in
  contents (AudioProcessor.ready (snd r)) ++ contents (AudioProcessor.audioBuffer (fst r))
  = contents chunks /\
  length (levels (snd r)) = 8%nat.
Proof.
  destruct (chunks_conserved (fun _ => 0%float)
              (concat (repeat [chunk_of 4096 Byte.x01; chunk_of 4096 Byte.x02;
                               odd_chunk_of 4096 Byte.x03] 4))
              (fst (AudioProcessor.startProcessing AudioProcessor.init)) eq_refl)
    as [Hbytes Hlevels].
  split; [exact Hbytes | rewrite Hlevels; reflexivity].
Defined.

(** X2.  [stopProcessing] discards what is held: whatever the state, the
    processor continues exactly as one newly constructed, so nothing held
    at the stop is ever handed off. *)
Theorem stop_discards (level : Buffer -> float) (ops : list AudioProcessor.op)
    (s : AudioProcessor.t) :
  AudioProcessor.run level (AudioProcessor.Stop :: ops) s
  = (fst (AudioProcessor.run level ops AudioProcessor.init),
     AudioProcessor.processingStopped :: snd (AudioProcessor.run level ops AudioProcessor.init)).
Proof.
  cbn [AudioProcessor.run AudioProcessor.apply AudioProcessor.stopProcessing].
  fold AudioProcessor.init.
  destruct (AudioProcessor.run level ops AudioProcessor.init); reflexivity.
Qed.

(** X3.  Chunks that arrive while the accumulator is not processing are
    dropped: any sequence of them leaves the state as it was and emits
    nothing, neither a level nor a payload. *)
Theorem idle_chunks_dropped (level : Buffer -> float) (chunks : list Buffer)
    (s : AudioProcessor.t) :
  AudioProcessor.isProcessing s = false ->
  AudioProcessor.run level (map AudioProcessor.Chunk chunks) s = (s, []).
Proof. apply AccumulatorFacts.run_idle. Qed.

Lemma idle_chunks_dropped_witness :
  AudioProcessor.run (fun _ => 0%float)
    (map AudioProcessor.Chunk (repeat (chunk_of 4096 Byte.x01) 20)) AudioProcessor.init
  = (AudioProcessor.init, []).
Proof.
  exact (idle_chunks_dropped (fun _ => 0%float) (repeat (chunk_of 4096 Byte.x01) 20)
           AudioProcessor.init eq_refl).
Defined.

(** X4.  Every payload of an "audioReady" event holds at least the
    threshold of 40960 bytes, in any run of the public operations from any
    state. *)
Theorem ready_payload_full (level : Buffer -> float) (ops : list AudioProcessor.op)
    (s : AudioProcessor.t) :
  Forall (fun payload => (40960 <= Z.of_nat (length (bytes payload)))%Z)
         (AudioProcessor.ready (snd (AudioProcessor.run level ops s))).
Proof. exact (AccumulatorFacts.run_ready_full level ops s). Qed.

(** ** The voice-activity window *)

Module VoiceFacts.
Import VoiceActivity.

Lemma window_step (l : float) (w : list float) :
  (length w <= 10)%nat ->
  fst (updateVoiceActivity l w) = slice_last 10 (w ++ [l]).
Proof.
  intros Hlen. unfold updateVoiceActivity, slice_last, VAD_BUFFER_SIZE. cbn [fst].
  rewrite length_app. cbn [length].
  destruct (Nat.ltb_spec 10 (length w + 1)) as [H|H].
  - assert (Hw : length w = 10%nat) by lia. rewrite Hw.
    destruct w as [|x w']; [discriminate|]. reflexivity.
  - replace (length w + 1 - 10)%nat with 0%nat by lia. reflexivity.
Qed.

Lemma slice_last_length {A} (n : nat) (xs : list A) : (length (slice_last n xs) <= n)%nat.
Proof. unfold slice_last. rewrite length_skipn. lia. Qed.

Lemma slice_last_snoc {A} (n : nat) (xs : list A) (x : A) :
  slice_last (S n) (slice_last (S n) xs ++ [x]) = slice_last (S n) (xs ++ [x]).
Proof.
  unfold slice_last.
  destruct (Nat.le_gt_cases (length xs) (S n)) as [H|H].
  - replace (length xs - S n)%nat with 0%nat by lia. cbn [skipn].
    reflexivity.
  - assert (Hs : (length (skipn (length xs - S n) xs) = S n)%nat)
      by (rewrite length_skipn; lia).
    rewrite !length_app, Hs. cbn [length].
    replace (S n + 1 - S n)%nat with 1%nat by lia.
    replace (length xs + 1 - S n)%nat with (S (length xs - S n)) by lia.
    rewrite (skipn_app (S (length xs - S n))).
    replace (S (length xs - S n) - length xs)%nat with 0%nat by lia.
    replace (skipn (S (length xs - S n)) xs)
      with (skipn 1 (skipn (length xs - S n) xs))
      by (rewrite skipn_skipn; f_equal; lia).
    destruct (skipn (length xs - S n) xs) as [|y ys]; [discriminate|].
    reflexivity.
Qed.

Lemma feed_window (ls : list float) :
  feed ls [] = slice_last 10 ls.
Proof.
  unfold feed.
  induction ls as [|l ls IH] using rev_ind; [reflexivity|].
  rewrite fold_left_app. cbn [fold_left]. rewrite IH.
  rewrite window_step by apply slice_last_length.
  apply slice_last_snoc.
Qed.

End VoiceFacts.

(** X5.  The voice-activity window holds the most recent levels, at most
    ten of them, in arrival order: after any sequence of
    [updateVoiceActivity] calls from the empty window it is the last ten
    levels passed (all of them when fewer than ten). *)
Theorem voice_window_last_ten (audioLevels : list float) :
  VoiceActivity.feed audioLevels [] = slice_last 10 audioLevels /\
  (length (VoiceActivity.feed audioLevels []) <= 10)%nat.
Proof.
  rewrite VoiceFacts.feed_window. split; [reflexivity | apply VoiceFacts.slice_last_length].
Qed.

(** ** The repository *)

Module StorageFacts.

Lemma same_value_zero_refl (v : value) : same_value_zero v v = true.
Proof.
  destruct v; simpl; try reflexivity.
  - destruct b; reflexivity.
  - unfold PrimFloat.is_nan. destruct (PrimFloat.eqb x x); reflexivity.
  - apply String.eqb_refl.
  - apply Nat.eqb_refl.
  - apply Nat.eqb_refl.
  - apply Nat.eqb_refl.
Qed.

Lemma same_value_zero_string (k : value) (s : string) :
  same_value_zero k (VStr s) = true -> k = VStr s.
Proof.
  destruct k; simpl; try discriminate.
  intros H. apply String.eqb_eq in H. congruence.
Qed.

Lemma keyed_get_set_same {V} (k : value) (v : V) (m : list (value * V)) :
  Map.get same_value_zero k (Map.set same_value_zero k v m) = Some v.
Proof.
  induction m as [|[k' v'] m IH]; simpl.
  - rewrite same_value_zero_refl. reflexivity.
  - destruct (same_value_zero k' k) eqn:E; simpl; rewrite E; [reflexivity | exact IH].
Qed.

Lemma keyed_get_set_other {V} (s s' : string) (v : V) (m : list (value * V)) :
  s' <> s ->
  Map.get same_value_zero (VStr s') (Map.set same_value_zero (VStr s) v m)
  = Map.get same_value_zero (VStr s') m.
Proof.
  intros Hne. induction m as [|[k0 v0] m IH]; simpl.
  - destruct (String.eqb_spec s s'); [congruence | reflexivity].
  - destruct (same_value_zero k0 (VStr s)) eqn:E; simpl.
    + apply same_value_zero_string in E. subst k0. simpl.
      destruct (String.eqb_spec s s'); [congruence | reflexivity].
    + destruct (same_value_zero k0 (VStr s')); [reflexivity | exact IH].
Qed.

Lemma insert_sorted (m : Message.t) (ms : list Message.t) :
  StronglySorted by_timestamp ms -> StronglySorted by_timestamp (insert_by_timestamp m ms).
Proof.
  induction 1 as [|m' ms Hs IH Hall]; simpl.
  - repeat constructor.
  - destruct (Z.leb_spec (Message.timestamp m) (Message.timestamp m')) as [Hle|Hgt].
    + constructor; [constructor; assumption|].
      constructor; [exact Hle|].
      eapply Forall_impl; [|exact Hall]. unfold by_timestamp. intros a Ha. lia.
    + constructor; [exact IH|].
      assert (Hperm : forall x, In x (insert_by_timestamp m ms) -> x = m \/ In x ms).
      { clear. induction ms as [|y ms IH]; simpl; intros x Hx.
        - destruct Hx as [<-|[]]. left. reflexivity.
        - destruct (Message.timestamp m <=? Message.timestamp y)%Z; simpl in Hx.
          + destruct Hx as [<-|Hx]; [left; reflexivity | right; exact Hx].
          + destruct Hx as [<-|Hx]; [right; left; reflexivity|].
            destruct (IH x Hx) as [->|Hin]; [left; reflexivity | right; right; exact Hin]. }
      apply Forall_forall. intros x Hx.
      destruct (Hperm x Hx) as [->|Hin].
      * unfold by_timestamp. lia.
      * rewrite Forall_forall in Hall. apply Hall. exact Hin.
Qed.

Lemma insert_permutation (m : Message.t) (ms : list Message.t) :
  Permutation (insert_by_timestamp m ms) (m :: ms).
Proof.
  induction ms as [|m' ms IH]; simpl; [apply Permutation_refl|].
  destruct (Message.timestamp m <=? Message.timestamp m')%Z; [apply Permutation_refl|].
  eapply Permutation_trans; [apply perm_skip; exact IH | apply perm_swap].
Qed.

Lemma sort_sorted (ms : list Message.t) : StronglySorted by_timestamp (sort_by_timestamp ms).
Proof.
  induction ms as [|m ms IH]; simpl; [constructor | apply insert_sorted; exact IH].
Qed.

Lemma sort_permutation (ms : list Message.t) : Permutation (sort_by_timestamp ms) ms.
Proof.
  induction ms as [|m ms IH]; simpl; [constructor|].
  eapply Permutation_trans; [apply insert_permutation | apply perm_skip; exact IH].
Qed.

Lemma in_map_set {V} (k : string) (v : V) (m : list (string * V)) :
  In v (map snd (Map.set String.eqb k v m)).
Proof.
  induction m as [|[k' v'] m IH]; simpl; [left; reflexivity|].
  destruct (String.eqb k' k); simpl; [left; reflexivity | right; exact IH].
Qed.

End StorageFacts.

(** X6.  [getSessionMessages] returns the messages of the session and no
    others, each as often as it is stored, in the order of their
    timestamps; it changes nothing. *)
Theorem session_messages_sorted (sessionId : value) (w : World) :
  exists messages,
    getSessionMessages sessionId w = {| ret := Ok messages; after := w; sent := [] |} /\
    StronglySorted by_timestamp messages /\
    Permutation messages
      (filter (fun m => strict_eq (Message.sessionId m) sessionId)
              (map snd (MemStorage.messages (storage w)))).
Proof.
  eexists. split; [reflexivity|]. split.
  - apply StorageFacts.sort_sorted.
  - apply StorageFacts.sort_permutation.
Qed.

(** X7.  [createMessage] files the message it returns under a newly drawn
    id: [getMessage] of that id then returns it, the message is among
    those [getSessionMessages] returns for its session, and no other id's
    message, speaker, memory, personality or analytics changes.  The
    stored message has the clock's reading as timestamp, a boolean
    [isAIGenerated], a [metadata] that is never [undefined] and a
    [confidence] that is null unless it is a non-zero number. *)
Theorem created_message_stored (env : Env) (insertMessage : InsertMessage.t) (w : World) :
  strict_eq (InsertMessage.sessionId insertMessage) (InsertMessage.sessionId insertMessage)
  = true ->
  exists message,
    let w1 := after (createMessage env insertMessage w) in
    ret (createMessage env insertMessage w) = Ok message /\
    Message.id message = randomUUID env (uuids w) /\
    ret (getMessage (Message.id message) w1) = Ok (Some message) /\
    (exists messages,
       ret (getSessionMessages (InsertMessage.sessionId insertMessage) w1) = Ok messages /\
       In message messages) /\
    (forall id, id <> Message.id message ->
       ret (getMessage id w1) = ret (getMessage id w)) /\
    MemStorage.speakers (storage w1) = MemStorage.speakers (storage w) /\
    MemStorage.sessionMemories (storage w1) = MemStorage.sessionMemories (storage w) /\
    MemStorage.aiPersonalities (storage w1) = MemStorage.aiPersonalities (storage w) /\
    MemStorage.analytics (storage w1) = MemStorage.analytics (storage w) /\
    (clock w <= Message.timestamp message)%Z /\
    Message.timestamp message = clock w1 /\
    Message.isAIGenerated message
    = Some (bool_or_false (InsertMessage.isAIGenerated insertMessage)) /\
    Message.metadata message <> VUndefined /\
    (Message.confidence message = None \/
     exists c, Message.confidence message = Some c /\ truthy (VNum c) = true).
Proof.
  intros Hsid. eexists. cbv zeta.
  split; [reflexivity|]. cbn [Message.id Message.timestamp Message.isAIGenerated
                              Message.metadata Message.confidence].
  split; [reflexivity|]. split.
  { cbn. rewrite MapFacts.get_set_same. reflexivity. }
  split.
  { eexists. split; [reflexivity|].
    eapply Permutation_in; [apply Permutation_sym, StorageFacts.sort_permutation|].
    apply filter_In. split; [|exact Hsid].
    cbn. apply StorageFacts.in_map_set. }
  split.
  { intros id Hne. cbn. rewrite MapFacts.get_set_other by exact Hne. reflexivity. }
  repeat (split; [reflexivity|]).
  split; [cbn; lia|]. split; [reflexivity|]. split.
  { destruct (InsertMessage.isAIGenerated insertMessage); reflexivity. }
  split.
  { unfold or. destruct (truthy (InsertMessage.metadata insertMessage)) eqn:E;
      [intros H; rewrite H in E; discriminate | discriminate]. }
  unfold num_or_null. destruct (InsertMessage.confidence insertMessage) as [c|]; [|left; reflexivity].
  destruct (truthy (VNum c)) eqn:E; [right; exists c; split; [reflexivity | exact E] | left; reflexivity].
Qed.

Lemma created_message_stored_witness :
  exists message,
    ret (createMessage answering
           {| InsertMessage.sessionId := VStr "s1"; InsertMessage.speakerId := "sp-ai";
              InsertMessage.content := "hello"; InsertMessage.confidence := Some 0%float;
              InsertMessage.isAIGenerated := None; InsertMessage.metadata := VUndefined |}
           studio) = Ok message /\
    Message.id message = "uuid-0".
Proof.
  destruct (created_message_stored answering
              {| InsertMessage.sessionId := VStr "s1"; InsertMessage.speakerId := "sp-ai";
                 InsertMessage.content := "hello"; InsertMessage.confidence := Some 0%float;
                 InsertMessage.isAIGenerated := None; InsertMessage.metadata := VUndefined |}
              studio eq_refl) as (message & Hret & Hid & _).
  exists message. split; [exact Hret | exact Hid].
Defined.

Module RecordFacts.

(** [set_field] and [set_fields], read back. *)
Lemma assoc_set_field_same (k : string) (v : value) (fields : list (string * value)) :
  assoc k (set_field k v fields) = v.
Proof.
  induction fields as [|[k' v'] fields IH]; simpl.
  - rewrite String.eqb_refl. reflexivity.
  - destruct (String.eqb k k') eqn:E; simpl;
      [rewrite String.eqb_refl; reflexivity | rewrite E; exact IH].
Qed.

Lemma assoc_set_field_other (k k0 : string) (v : value) (fields : list (string * value)) :
  k0 <> k -> assoc k0 (set_field k v fields) = assoc k0 fields.
Proof.
  intros Hne. induction fields as [|[k' v'] fields IH]; simpl.
  - destruct (String.eqb_spec k0 k); [congruence | reflexivity].
  - destruct (String.eqb_spec k k') as [->|E]; simpl.
    + destruct (String.eqb_spec k0 k'); [congruence|].
      destruct (String.eqb_spec k0 k'); [congruence | reflexivity].
    + destruct (String.eqb k0 k'); [reflexivity | exact IH].
Qed.

Lemma assoc_set_fields_absent (k0 : string) (news fields : list (string * value)) :
  ~ In k0 (map fst news) -> assoc k0 (set_fields news fields) = assoc k0 fields.
Proof.
  unfold set_fields. revert fields.
  induction news as [|[k v] news IH]; intros fields Hnot; simpl; [reflexivity|].
  rewrite IH by (simpl in Hnot; tauto).
  apply assoc_set_field_other. simpl in Hnot. intros ->. tauto.
Qed.

Lemma assoc_set_fields_last (k : string) (v : value) (news later fields : list (string * value)) :
  ~ In k (map fst later) ->
  assoc k (set_fields (news ++ (k, v) :: later) fields) = v.
Proof.
  intros Hnot. unfold set_fields. rewrite fold_left_app. simpl.
  fold (set_fields later (set_field k v (fold_left (fun acc kv => set_field (fst kv) (snd kv) acc) news fields))).
  rewrite assoc_set_fields_absent by exact Hnot.
  apply assoc_set_field_same.
Qed.

End RecordFacts.

(** X8.  [createSpeaker] files the speaker it returns under a newly drawn
    id: [getSpeaker] of that id returns it, [getSessionSpeakers] lists it
    for its session and for no other, and its flags are booleans, so that
    a speaker created with [isAI: true] is one the orchestrator's search
    for the session's AI speaker can find. *)
Theorem created_speaker_listed (env : Env) (insertSpeaker : InsertSpeaker.t) (w : World) :
  exists speaker,
    let w1 := after (createSpeaker env insertSpeaker w) in
    ret (createSpeaker env insertSpeaker w) = Ok speaker /\
    Speaker.id speaker = randomUUID env (uuids w) /\
    Speaker.sessionId speaker = InsertSpeaker.sessionId insertSpeaker /\
    Speaker.isAI speaker = Some (bool_or_false (InsertSpeaker.isAI insertSpeaker)) /\
    ret (getSpeaker (Speaker.id speaker) w1) = Ok (Some speaker) /\
    (forall id, id <> Speaker.id speaker -> ret (getSpeaker id w1) = ret (getSpeaker id w)) /\
    (forall sessionId speakers,
       ret (getSessionSpeakers sessionId w1) = Ok speakers ->
       (In speaker speakers <-> sessionId = VStr (InsertSpeaker.sessionId insertSpeaker)) /\
       (InsertSpeaker.isAI insertSpeaker = Some true ->
        sessionId = VStr (InsertSpeaker.sessionId insertSpeaker) ->
        find (fun s => match Speaker.isAI s with Some b => b | None => false end) speakers
        <> None)) /\
    MemStorage.messages (storage w1) = MemStorage.messages (storage w).
Proof.
  eexists. cbv zeta. split; [reflexivity|].
  cbn [Speaker.id Speaker.sessionId Speaker.isAI].
  split; [reflexivity|]. split; [reflexivity|]. split; [reflexivity|]. split.
  { cbn. rewrite MapFacts.get_set_same. reflexivity. }
  split.
  { intros id Hne. cbn. rewrite MapFacts.get_set_other by exact Hne. reflexivity. }
  split; [|reflexivity].
  intros sessionId speakers Hret.
  set (speaker := {| Speaker.id := _ |}) in *.
  change (Ok (filter (fun s => strict_eq (VStr (Speaker.sessionId s)) sessionId)
                (map snd (Map.set String.eqb (Speaker.id speaker) speaker
                            (MemStorage.speakers (storage w)))))
          = Ok speakers) in Hret.
  injection Hret as <-.
  assert (Hin : forall sid,
    In speaker (filter (fun s => strict_eq (VStr (Speaker.sessionId s)) sid)
                  (map snd (Map.set String.eqb (Speaker.id speaker) speaker
                              (MemStorage.speakers (storage w)))))
    <-> sid = VStr (InsertSpeaker.sessionId insertSpeaker)).
  { intros sid. rewrite filter_In. split.
    - intros [_ Heq]. cbn in Heq. destruct sid; try discriminate.
      apply String.eqb_eq in Heq. congruence.
    - intros ->. split; [apply StorageFacts.in_map_set|].
      cbn. apply String.eqb_refl. }
  split; [apply Hin|].
  intros Hai Hsid Hfind.
  pose proof (find_none _ _ Hfind speaker (proj2 (Hin sessionId) Hsid)) as Hno.
  cbn in Hno. rewrite Hai in Hno. discriminate.
Qed.

(** X9.  [upsertAnalytics] for a session that has a record keeps the
    record's id, draws no new one, and replaces every counter: what the
    new record omits, or gives as 0 or NaN, is stored as 0 whatever was
    stored before.  [getAnalytics] then returns the new record, and the
    records of other sessions are as they were. *)
Theorem analytics_upsert_replaces (env : Env) (insertAnalytics : InsertAnalytics.t)
    (existing : Analytics.t) (w : World) :
  Map.get same_value_zero (InsertAnalytics.sessionId insertAnalytics)
    (MemStorage.analytics (storage w)) = Some existing ->
  Analytics.id existing <> "" ->
  exists analytics,
    let w1 := after (upsertAnalytics env insertAnalytics w) in
    ret (upsertAnalytics env insertAnalytics w) = Ok analytics /\
    Analytics.id analytics = Analytics.id existing /\
    uuids w1 = uuids w /\
    Analytics.aiSpeakingTime analytics
    = Some (num_or (InsertAnalytics.aiSpeakingTime insertAnalytics) 0) /\
    Analytics.totalResponses analytics
    = Some (num_or (InsertAnalytics.totalResponses insertAnalytics) 0) /\
    Analytics.avgResponseTime analytics
    = Some (num_or (InsertAnalytics.avgResponseTime insertAnalytics) 0) /\
    Analytics.interrupts analytics
    = Some (num_or (InsertAnalytics.interrupts insertAnalytics) 0) /\
    Analytics.jokeSuccessRate analytics
    = Some (num_or (InsertAnalytics.jokeSuccessRate insertAnalytics) 0) /\
    ret (getAnalytics (InsertAnalytics.sessionId insertAnalytics) w1) = Ok (Some analytics) /\
    (forall s s', InsertAnalytics.sessionId insertAnalytics = VStr s -> s' <> s ->
       ret (getAnalytics (VStr s') w1) = ret (getAnalytics (VStr s') w)).
Proof.
  intros Hget Hid.
  assert (Hrun : upsertAnalytics env insertAnalytics w
    = (id <- pure (Analytics.id existing) ;;
       now <- Date_now env ;;
       let analytics :=
         {| Analytics.id := id;
            Analytics.sessionId := InsertAnalytics.sessionId insertAnalytics;
            Analytics.updatedAt := Some now;
            Analytics.aiSpeakingTime := Some (num_or (InsertAnalytics.aiSpeakingTime insertAnalytics) 0);
            Analytics.totalResponses := Some (num_or (InsertAnalytics.totalResponses insertAnalytics) 0);
            Analytics.avgResponseTime := Some (num_or (InsertAnalytics.avgResponseTime insertAnalytics) 0);
            Analytics.interrupts := Some (num_or (InsertAnalytics.interrupts insertAnalytics) 0);
            Analytics.jokeSuccessRate := Some (num_or (InsertAnalytics.jokeSuccessRate insertAnalytics) 0) |} in
       w' <- get_world ;;
       let s := storage w' in
       put_world (with_storage
         {| MemStorage.speakers := MemStorage.speakers s;
            MemStorage.messages := MemStorage.messages s;
            MemStorage.sessionMemories := MemStorage.sessionMemories s;
            MemStorage.aiPersonalities := MemStorage.aiPersonalities s;
            MemStorage.analytics :=
              Map.set same_value_zero (InsertAnalytics.sessionId insertAnalytics) analytics
                (MemStorage.analytics s) |} w') ;;;
       pure analytics) w).
  { unfold upsertAnalytics.
    rewrite (bind_eval get_world _ w w w []) by reflexivity. cbv zeta.
    rewrite Hget.
    destruct (String.eqb_spec (Analytics.id existing) ""); [contradiction|].
    reflexivity. }
  rewrite Hrun. clear Hrun.
  eexists. cbv zeta. split; [reflexivity|].
  repeat (split; [reflexivity|]).
  split.
  { cbn. rewrite StorageFacts.keyed_get_set_same. reflexivity. }
  intros s s' Hs Hne. cbn. rewrite Hs.
  rewrite StorageFacts.keyed_get_set_other by exact Hne. reflexivity.
Qed.

Lemma analytics_upsert_replaces_witness :
  exists analytics,
    ret (upsertAnalytics answering
           {| InsertAnalytics.sessionId := VStr "s1";
              InsertAnalytics.aiSpeakingTime := None; InsertAnalytics.totalResponses := None;
              InsertAnalytics.avgResponseTime := None; InsertAnalytics.interrupts := None;
              InsertAnalytics.jokeSuccessRate := None |} with_analytics) = Ok analytics /\
    Analytics.id analytics = "an-1" /\
    Analytics.totalResponses analytics = Some 0%float.
Proof.
  destruct (analytics_upsert_replaces answering
              {| InsertAnalytics.sessionId := VStr "s1";
                 InsertAnalytics.aiSpeakingTime := None; InsertAnalytics.totalResponses := None;
                 InsertAnalytics.avgResponseTime := None; InsertAnalytics.interrupts := None;
                 InsertAnalytics.jokeSuccessRate := None |} counted with_analytics eq_refl)
    as (analytics & Hret & Hid & _ & _ & Htotal & _).
  - discriminate.
  - exists analytics. split; [exact Hret|]. split; [exact Hid | exact Htotal].
Defined.

Module ContextFacts.

Lemma or_or_null (a b : value) : or (or a VNull) b = or a b.
Proof. unfold or. destruct (truthy a) eqn:E; [rewrite E|]; reflexivity. Qed.

Lemma or_truthy (a b : value) : truthy b = true -> truthy (or a b) = true.
Proof. intros H. unfold or. destruct (truthy a) eqn:E; [exact E | exact H]. Qed.

Lemma or_idem (a b : value) : truthy b = true -> or (or a b) b = or a b.
Proof.
  intros H. unfold or at 1. rewrite (or_truthy a b H). reflexivity.
Qed.

End ContextFacts.

(** X10.  What [upsertSessionMemory] stores for a session is what the
    orchestrator next hands to the generator for it: the context built
    from the repository has the topics, speaker notes and running jokes
    just stored (an empty list or object where they were left out), while
    its recent messages and personality are untouched.  The record keeps
    the id of the one it replaces. *)
Theorem memory_reaches_generator (env : Env) (insertMemory : InsertSessionMemory.t) (w : World) :
  let S := InsertSessionMemory.sessionId insertMemory in
  let w1 := after (upsertSessionMemory env insertMemory w) in
  let context := context_at (storage w1) S in
  ConversationContext.topics context = or (InsertSessionMemory.topics insertMemory) (arr []) /\
  ConversationContext.speakerNotes context
  = or (InsertSessionMemory.speakerNotes insertMemory) (obj []) /\
  ConversationContext.runningJokes context
  = match InsertSessionMemory.runningJokes insertMemory with
    | Some jokes => jokes
    | None => []
    end /\
  ConversationContext.recentMessages context
  = ConversationContext.recentMessages (context_at (storage w) S) /\
  ConversationContext.personality context
  = ConversationContext.personality (context_at (storage w) S) /\
  (forall existing,
     Map.get same_value_zero S (MemStorage.sessionMemories (storage w)) = Some existing ->
     SessionMemory.id existing <> "" ->
     exists memory,
       ret (upsertSessionMemory env insertMemory w) = Ok memory /\
       SessionMemory.id memory = SessionMemory.id existing).
Proof.
  cbv zeta.
  assert (Hshape : exists id w0,
    upsertSessionMemory env insertMemory w
    = (now <- Date_now env ;;
       let memory :=
         {| SessionMemory.id := id;
            SessionMemory.sessionId := InsertSessionMemory.sessionId insertMemory;
            SessionMemory.updatedAt := Some now;
            SessionMemory.topics := or (InsertSessionMemory.topics insertMemory) VNull;
            SessionMemory.speakerNotes := or (InsertSessionMemory.speakerNotes insertMemory) VNull;
            SessionMemory.clipMoments := or (InsertSessionMemory.clipMoments insertMemory) VNull;
            SessionMemory.runningJokes := InsertSessionMemory.runningJokes insertMemory |} in
       w' <- get_world ;;
       let s := storage w' in
       put_world (with_storage
         {| MemStorage.speakers := MemStorage.speakers s;
            MemStorage.messages := MemStorage.messages s;
            MemStorage.sessionMemories :=
              Map.set same_value_zero (InsertSessionMemory.sessionId insertMemory) memory
                (MemStorage.sessionMemories s);
            MemStorage.aiPersonalities := MemStorage.aiPersonalities s;
            MemStorage.analytics := MemStorage.analytics s |} w') ;;;
       pure memory) w0 /\
    storage w0 = storage w /\
    (forall existing,
       Map.get same_value_zero (InsertSessionMemory.sessionId insertMemory)
         (MemStorage.sessionMemories (storage w)) = Some existing ->
       SessionMemory.id existing <> "" -> id = SessionMemory.id existing)).
  { unfold upsertSessionMemory.
    rewrite (bind_eval get_world _ w w w []) by reflexivity. cbv zeta.
    destruct (Map.get same_value_zero _ _) as [m|] eqn:Hget.
    - destruct (String.eqb_spec (SessionMemory.id m) "") as [He|Hne].
      + eexists _, _. split; [reflexivity|]. split; [reflexivity|].
        intros existing [= <-] Hid. contradiction.
      + exists (SessionMemory.id m), w. split; [reflexivity|]. split; [reflexivity|].
        intros existing [= <-] _. reflexivity.
    - eexists _, _. split; [reflexivity|]. split; [reflexivity|].
      intros existing [=]. }
  destruct Hshape as (id & w0 & -> & Hst & Hid).
  unfold context_at. cbn [after bind Date_now get_world put_world pure ret storage with_storage
                          MemStorage.messages MemStorage.aiPersonalities
                          MemStorage.sessionMemories].
  rewrite StorageFacts.keyed_get_set_same, Hst.
  cbn [conversation_context ConversationContext.topics ConversationContext.speakerNotes
       ConversationContext.runningJokes ConversationContext.recentMessages
       ConversationContext.personality SessionMemory.topics SessionMemory.speakerNotes
       SessionMemory.runningJokes].
  rewrite !ContextFacts.or_or_null.
  repeat (split; [reflexivity|]).
  intros existing Hget Hne. eexists. split; [reflexivity|].
  cbn [SessionMemory.id]. apply (Hid existing Hget Hne).
Qed.

Module PersonalityFacts.
Section Env.
Variable env : Env.

Lemma upsert_personality_eval (insertPersonality : value) (w : World) :
  exists id now,
    ret (upsertAIPersonality env insertPersonality w)
    = Ok (personality_record id now insertPersonality) /\
    sent (upsertAIPersonality env insertPersonality w) = [] /\
    clients (after (upsertAIPersonality env insertPersonality w)) = clients w /\
    calls (after (upsertAIPersonality env insertPersonality w)) = calls w /\
    audioProcessor (after (upsertAIPersonality env insertPersonality w)) = audioProcessor w /\
    storage (after (upsertAIPersonality env insertPersonality w))
    = {| MemStorage.speakers := MemStorage.speakers (storage w);
         MemStorage.messages := MemStorage.messages (storage w);
         MemStorage.sessionMemories := MemStorage.sessionMemories (storage w);
         MemStorage.aiPersonalities :=
           Map.set same_value_zero (prop insertPersonality "sessionId")
             (personality_record id now insertPersonality)
             (MemStorage.aiPersonalities (storage w));
         MemStorage.analytics := MemStorage.analytics (storage w) |}.
Proof.
  unfold upsertAIPersonality.
  rewrite (bind_eval get_world _ w w w []) by reflexivity. cbv zeta.
  destruct (truthy (opt_prop _ "id")); eexists _, _; repeat split.
Qed.

Lemma record_field (id : value) (now : Z) (r : ref) (fields : list (string * value))
    (k : string) (d : value) (before later : list (string * value)) :
  [("id", id);
   ("updatedAt", VDate 0 now);
   ("voiceType", or (assoc "voiceType" fields) (VStr "energetic-podcaster"));
   ("comedyLevel", or (assoc "comedyLevel" fields) (VNum 60));
   ("researchLevel", or (assoc "researchLevel" fields) (VNum 40));
   ("energyLevel", or (assoc "energyLevel" fields) (VNum 75));
   ("responseStyle", or (assoc "responseStyle" fields) (VStr "conversational"))]
  = before ++ (k, or (assoc k fields) d) :: later ->
  ~ In k (map fst later) ->
  prop (personality_record id now (VObj r fields)) k = or (assoc k fields) d.
Proof.
  intros Hsplit Hnot. unfold personality_record, obj, prop, own_props.
  rewrite Hsplit. apply RecordFacts.assoc_set_fields_last. exact Hnot.
Qed.

Lemma record_fields (id : value) (now : Z) (r : ref) (fields : list (string * value)) :
  let p := personality_record id now (VObj r fields) in
  prop p "sessionId" = assoc "sessionId" fields /\
  prop p "voiceType" = or (assoc "voiceType" fields) (VStr "energetic-podcaster") /\
  prop p "comedyLevel" = or (assoc "comedyLevel" fields) (VNum 60) /\
  prop p "researchLevel" = or (assoc "researchLevel" fields) (VNum 40) /\
  prop p "energyLevel" = or (assoc "energyLevel" fields) (VNum 75) /\
  prop p "responseStyle" = or (assoc "responseStyle" fields) (VStr "conversational").
Proof.
  cbv zeta. split; [|split; [|split; [|split; [|split]]]].
  - unfold personality_record, obj, prop, own_props.
    apply RecordFacts.assoc_set_fields_absent. simpl. intuition discriminate.
  - apply (record_field id now r fields "voiceType" _
             [("id", id); ("updatedAt", VDate 0 now)] _ eq_refl).
    simpl. intuition discriminate.
  - apply (record_field id now r fields "comedyLevel" _
             [("id", id); ("updatedAt", VDate 0 now); _] _ eq_refl).
    simpl. intuition discriminate.
  - apply (record_field id now r fields "researchLevel" _
             [("id", id); ("updatedAt", VDate 0 now); _; _] _ eq_refl).
    simpl. intuition discriminate.
  - apply (record_field id now r fields "energyLevel" _
             [("id", id); ("updatedAt", VDate 0 now); _; _; _] _ eq_refl).
    simpl. intuition discriminate.
  - apply (record_field id now r fields "responseStyle" _
             [("id", id); ("updatedAt", VDate 0 now); _; _; _; _] [] eq_refl).
    simpl. tauto.
Qed.

Lemma record_truthy (id : value) (now : Z) (r : ref) (fields : list (string * value)) :
  Forall (fun k => truthy (prop (personality_record id now (VObj r fields)) k) = true)
    ["voiceType"; "comedyLevel"; "researchLevel"; "energyLevel"; "responseStyle"].
Proof.
  destruct (record_fields id now r fields) as (_ & Hv & Hc & Hr & He & Hs).
  repeat constructor; [rewrite Hv | rewrite Hc | rewrite Hr | rewrite He | rewrite Hs];
    apply ContextFacts.or_truthy; reflexivity.
Qed.

End Env.
End PersonalityFacts.

(** X11.  The personality [upsertAIPersonality] stores never has a falsy
    [voiceType], [comedyLevel], [researchLevel], [energyLevel] or
    [responseStyle]: each is the given value when that is truthy and the
    default otherwise, so a level of 0 is stored as its default.  The
    record is filed under the [sessionId] it was given, [getAIPersonality]
    returns it, and these five values are the personality the
    orchestrator next hands to the generator for that session. *)
Theorem personality_upsert_defaults (env : Env) (r : ref) (fields : list (string * value))
    (w : World) :
  let insertPersonality := VObj r fields in
  let S := prop insertPersonality "sessionId" in
  let w1 := after (upsertAIPersonality env insertPersonality w) in
  exists personality,
    ret (upsertAIPersonality env insertPersonality w) = Ok personality /\
    ret (getAIPersonality S w1) = Ok personality /\
    prop personality "sessionId" = S /\
    prop personality "voiceType"
    = or (prop insertPersonality "voiceType") (VStr "energetic-podcaster") /\
    prop personality "comedyLevel" = or (prop insertPersonality "comedyLevel") (VNum 60) /\
    prop personality "researchLevel" = or (prop insertPersonality "researchLevel") (VNum 40) /\
    prop personality "energyLevel" = or (prop insertPersonality "energyLevel") (VNum 75) /\
    prop personality "responseStyle"
    = or (prop insertPersonality "responseStyle") (VStr "conversational") /\
    Forall (fun k => truthy (prop personality k) = true)
      ["voiceType"; "comedyLevel"; "researchLevel"; "energyLevel"; "responseStyle"] /\
    ConversationContext.personality (context_at (storage w1) S)
    = {| ConversationContext.voiceType := prop personality "voiceType";
         ConversationContext.comedyLevel := prop personality "comedyLevel";
         ConversationContext.researchLevel := prop personality "researchLevel";
         ConversationContext.energyLevel := prop personality "energyLevel";
         ConversationContext.responseStyle := prop personality "responseStyle" |}.
Proof.
  cbv zeta.
  destruct (PersonalityFacts.upsert_personality_eval env (VObj r fields) w)
    as (id & now & Hret & _ & _ & _ & _ & Hst).
  exists (personality_record id now (VObj r fields)).
  set (p := personality_record id now (VObj r fields)) in *.
  destruct (PersonalityFacts.record_fields id now r fields)
    as (Hsid & Hv & Hc & Hr & He & Hs).
  fold p in Hsid, Hv, Hc, Hr, He, Hs.
  assert (Hget : Map.get same_value_zero (assoc "sessionId" fields)
                   (MemStorage.aiPersonalities
                      (storage (after (upsertAIPersonality env (VObj r fields) w))))
                 = Some p).
  { rewrite Hst. cbn [MemStorage.aiPersonalities prop].
    apply StorageFacts.keyed_get_set_same. }
  split; [exact Hret|]. split.
  { unfold getAIPersonality. cbn [bind get_world ret after pure prop]. rewrite Hget. reflexivity. }
  split; [exact Hsid|].
  cbn [prop] in *.
  split; [exact Hv|]. split; [exact Hc|]. split; [exact Hr|]. split; [exact He|].
  split; [exact Hs|].
  assert (Htruthy : Forall (fun k => truthy (prop p k) = true)
            ["voiceType"; "comedyLevel"; "researchLevel"; "energyLevel"; "responseStyle"])
    by apply PersonalityFacts.record_truthy.
  split; [exact Htruthy|].
  unfold context_at. rewrite Hget.
  cbn [conversation_context ConversationContext.personality].
  assert (Hp : forall k, opt_prop p k = prop p k) by reflexivity.
  rewrite !Hp.
  rewrite Hv, Hc, Hr, He, Hs.
  rewrite !ContextFacts.or_idem by reflexivity. reflexivity.
Qed.

(** X29.  A session is created with no listeners, no duration and no end
    time whatever the caller passed for them, under a newly drawn id and
    with a status that is never falsy, and [getSession] returns it.
    [updateSession] of an id that has no session returns [undefined] and
    changes nothing; otherwise it merges: a field the update names takes
    the update's value, every other field keeps its own, and the merged
    session replaces the old one under the same key, also when the update
    names another [id]. *)
Theorem session_update_merges (id : string) (now : Z) (insertSession updates : value)
    (sessions : Sessions.t) :
  let created := Sessions.createSession id now insertSession sessions in
  let session := snd created in
  let updated := Sessions.updateSession id updates (fst created) in
  Sessions.getSession id (fst created) = session /\
  prop session "id" = VStr id /\
  prop session "endTime" = VNull /\
  prop session "listeners" = VNum 0 /\
  prop session "duration" = VNum 0 /\
  truthy (prop session "status") = true /\
  (forall other,
     Sessions.getSession other sessions = VUndefined ->
     Sessions.updateSession other updates sessions = (sessions, VUndefined)) /\
  Sessions.getSession id (fst updated) = snd updated /\
  map fst (fst updated) = map fst (fst created) /\
  (forall k, ~ In k (map fst (own_props updates)) ->
     prop (snd updated) k = prop session k) /\
  (forall k v before later,
     own_props updates = before ++ (k, v) :: later ->
     ~ In k (map fst later) ->
     prop (snd updated) k = v).
Proof.
  cbv zeta. unfold Sessions.createSession. cbn [fst snd].
  set (session := obj _).
  assert (Hget : Sessions.getSession id (Map.set String.eqb id session sessions) = session)
    by (unfold Sessions.getSession; rewrite MapFacts.get_set_same; reflexivity).
  split; [exact Hget|].
  split.
  { apply (RecordFacts.assoc_set_fields_last "id" _ [] _ (own_props insertSession)).
    simpl. intuition discriminate. }
  split.
  { apply (RecordFacts.assoc_set_fields_last "endTime" _ [_; _] _ (own_props insertSession)).
    simpl. intuition discriminate. }
  split.
  { apply (RecordFacts.assoc_set_fields_last "listeners" _ [_; _; _] _
             (own_props insertSession)).
    simpl. intuition discriminate. }
  split.
  { apply (RecordFacts.assoc_set_fields_last "duration" _ [_; _; _; _] _
             (own_props insertSession)).
    simpl. intuition discriminate. }
  split.
  { assert (Hstatus : prop session "status"
                      = or (prop insertSession "status") (VStr "waiting")).
    { apply (RecordFacts.assoc_set_fields_last "status" _ [_; _; _; _; _; _] []
               (own_props insertSession)).
      simpl. tauto. }
    rewrite Hstatus. apply ContextFacts.or_truthy. reflexivity. }
  split.
  { intros other Hnone. unfold Sessions.updateSession. rewrite Hnone. reflexivity. }
  unfold Sessions.updateSession. rewrite Hget.
  change (negb (truthy session)) with false. cbv iota. cbn [fst snd].
  split; [unfold Sessions.getSession; rewrite MapFacts.get_set_same; reflexivity|].
  split.
  { apply (MapFacts.keys_set_present id _ session). apply MapFacts.get_set_same. }
  split.
  - intros k Hk. unfold obj at 1. cbn [prop].
    rewrite RecordFacts.assoc_set_fields_absent by exact Hk. reflexivity.
  - intros k v before later Hsplit Hlater. unfold obj at 1. cbn [prop].
    rewrite Hsplit. apply RecordFacts.assoc_set_fields_last. exact Hlater.
Qed.

Lemma session_update_merges_witness :
  prop (snd (Sessions.updateSession "se-1"
               (VObj 2 [("status", VStr "live"); ("id", VStr "other")])
               (fst (Sessions.createSession "se-1" 1762041600000
                       (VObj 1 [("title", VStr "Launch"); ("listeners", VNum 9)]) []))))
       "title" = VStr "Launch".
Proof.
  destruct (session_update_merges "se-1" 1762041600000
              (VObj 1 [("title", VStr "Launch"); ("listeners", VNum 9)])
              (VObj 2 [("status", VStr "live"); ("id", VStr "other")]) [])
    as (_ & _ & _ & _ & _ & _ & _ & _ & _ & Hkept & _).
  rewrite Hkept; [reflexivity | simpl; intuition discriminate].
Defined.

(** ** What the handlers leave as it was *)

Module Keeps.

Section Rules.
Context {A B : Type}.
Variable R : World -> World -> Prop.
Hypothesis R_refl : forall w, R w w.
Hypothesis R_trans : forall w w1 w2, R w w1 -> R w1 w2 -> R w w2.

Lemma keeps_still (m : M A) : (forall w, after (m w) = w) -> keeps R m.
Proof. intros H w. rewrite H. apply R_refl. Qed.

Lemma keeps_bind (m : M A) (f : A -> M B) :
  keeps R m -> (forall a, keeps R (f a)) -> keeps R (bind m f).
Proof.
  intros Hm Hf w. unfold bind.
  destruct (ret (m w)) as [a|e]; cbn [after]; [|apply Hm].
  eapply R_trans; [apply Hm | apply Hf].
Qed.

Lemma keeps_try_catch (m : M A) (h : exn -> M A) :
  keeps R m -> (forall e, keeps R (h e)) -> keeps R (try_catch m h).
Proof.
  intros Hm Hh w. unfold try_catch.
  destruct (ret (m w)) as [a|e]; cbn [after]; [apply Hm|].
  eapply R_trans; [apply Hm | apply Hh].
Qed.

End Rules.

Section Handlers.
Variable env : Env.
Variable R : World -> World -> Prop.
Hypothesis R_refl : forall w, R w w.
Hypothesis R_trans : forall w w1 w2, R w w1 -> R w1 w2 -> R w w2.
Hypothesis R_now : keeps R (Date_now env).
Hypothesis R_generate :
  forall transcript context (answer : result (string * float)),
    keeps R (call_service (GenerateAIResponse transcript context) answer).
Hypothesis R_synthesize :
  forall text voice (answer : result Buffer),
    keeps R (call_service (SynthesizeSpeech text voice) answer).
Hypothesis R_reply :
  forall i, InsertMessage.isAIGenerated i = Some true -> keeps R (createMessage env i).
Hypothesis R_analytics : forall i, keeps R (upsertAnalytics env i).
Hypothesis R_personality : forall i, keeps R (upsertAIPersonality env i).
Hypothesis R_chunk : forall chunk, keeps R (processAudioChunk env chunk).
Hypothesis R_clients : forall cs w, R w (with_clients cs w).

Ltac still := apply (keeps_still R R_refl); intros; reflexivity.

Ltac keeps_step :=
  first
    [ apply R_now
    | apply R_generate
    | apply R_synthesize
    | apply R_analytics
    | apply R_personality
    | apply R_chunk
    | apply (keeps_bind R R_trans); [|intros ?]
    | apply (keeps_try_catch R R_trans); [|intros ?]
    | still
    | match goal with
      | |- keeps _ (if ?b then _ else _) => destruct b
      | |- keeps _ (match ?x with _ => _ end) => destruct x
      end ].

Lemma keeps_forwarded (type : string) (source m : value) : keeps R (forwarded env type source m).
Proof. unfold forwarded, timestamp_or_now. repeat keeps_step. Qed.

Lemma keeps_normalize (client : WebSocketClient.t) (m : value) : keeps R (normalize env client m).
Proof. unfold normalize. repeat keeps_step. Qed.

Lemma keeps_respond_with (sid : value) (context : ConversationContext.t) (g : string * float) :
  keeps R (respond_with env sid context g).
Proof.
  unfold respond_with.
  apply (keeps_bind R R_trans); [still | intros speakers].
  destruct (find _ speakers); [|still].
  apply (keeps_bind R R_trans); [apply R_reply; reflexivity | intros aiMessage].
  repeat keeps_step.
Qed.

Lemma keeps_orchestrator (client : WebSocketClient.t) (m : value) :
  keeps R (handleAIResponseRequest env client m).
Proof.
  unfold handleAIResponseRequest.
  destruct (negb (truthy (WebSocketClient.sessionId client))); [still|].
  apply (keeps_try_catch R R_trans); [|intros e; still].
  apply (keeps_bind R R_trans); [still | intros messages].
  apply (keeps_bind R R_trans); [still | intros personality].
  apply (keeps_bind R R_trans); [still | intros memory].
  apply (keeps_bind R R_trans); [apply R_generate | intros generated].
  apply keeps_respond_with.
Qed.

Lemma keeps_hotkey (client : WebSocketClient.t) (m : value) :
  keeps R (handleHotkey env client m).
Proof.
  unfold handleHotkey.
  destruct (negb (truthy (WebSocketClient.sessionId client))); [still|].
  apply (keeps_bind R R_trans); [still | intros _].
  repeat match goal with
         | |- keeps _ (if ?b then _ else _) => destruct b
         end;
    first [apply keeps_orchestrator | still].
Qed.

Lemma keeps_personality (client : WebSocketClient.t) (m : value) :
  keeps R (handlePersonalityUpdate env client m).
Proof. unfold handlePersonalityUpdate. repeat keeps_step. Qed.

(** The cases of the switch that do not record a join. *)
Lemma keeps_routed (cid : string) (client : WebSocketClient.t) (m : value) :
  type_is m "joinSession" = false ->
  type_is m "desktop_connect" = false ->
  keeps R (dispatch env cid client m).
Proof.
  intros Hjoin Hdesktop. unfold dispatch. rewrite Hjoin, Hdesktop.
  repeat match goal with
         | |- keeps _ (if ?b then _ else _) => destruct b
         end;
    first [ apply keeps_orchestrator | apply keeps_hotkey | apply keeps_personality
          | still
          | apply (keeps_bind R R_trans);
            [first [apply keeps_forwarded | still] | intros ?; first [apply R_chunk | still]] ].
Qed.

Lemma keeps_set_client (cid : string) (c : WebSocketClient.t) : keeps R (set_client cid c).
Proof. intros w. apply R_clients. Qed.

Lemma keeps_dispatch (cid : string) (client : WebSocketClient.t) (m : value) :
  keeps R (dispatch env cid client m).
Proof.
  destruct (type_is m "joinSession") eqn:Hjoin.
  - unfold dispatch. rewrite Hjoin.
    apply (keeps_bind R R_trans); [apply keeps_set_client | intros _].
    repeat keeps_step.
  - destruct (type_is m "desktop_connect") eqn:Hdesktop.
    + unfold dispatch. rewrite Hjoin, Hdesktop.
      apply (keeps_bind R R_trans); [apply keeps_set_client | intros _].
      repeat keeps_step.
    + apply keeps_routed; assumption.
Qed.

Lemma keeps_handle (cid : string) (frame : value) :
  keeps R (handleWebSocketMessage env cid frame).
Proof.
  unfold handleWebSocketMessage.
  apply (keeps_bind R R_trans); [still | intros w].
  destruct (Map.get String.eqb cid (clients w)) as [client|]; [|still].
  destruct (negb (is_OPEN (WebSocketClient.ws client))); [still|].
  destruct (nullish frame); [still|].
  apply (keeps_bind R R_trans); [apply keeps_normalize | intros message].
  apply keeps_dispatch.
Qed.

Lemma keeps_on_message (cid : string) (data : result value) :
  keeps R (on_message env cid data).
Proof.
  unfold on_message.
  apply (keeps_try_catch R R_trans).
  - apply (keeps_bind R R_trans); [still | intros message; apply keeps_handle].
  - intros e. repeat keeps_step.
Qed.

Lemma keeps_on_close (cid : string) : keeps R (on_close env cid).
Proof.
  unfold on_close.
  apply (keeps_bind R R_trans); [still | intros w0].
  apply (keeps_bind R R_trans).
  - repeat keeps_step.
  - intros _. intros w. apply R_clients.
Qed.

Lemma keeps_on_connection (cid : string) : keeps R (on_connection env cid).
Proof.
  unfold on_connection.
  apply (keeps_bind R R_trans); [apply keeps_set_client | intros _].
  repeat keeps_step.
Qed.

Lemma keeps_step_ (i : input) : keeps R (step env i).
Proof.
  destruct i; [apply keeps_on_connection | apply keeps_on_message | apply keeps_on_close].
Qed.

Lemma keeps_handle_all (inputs : list input) (w : World) :
  R w (fst (handle_all env inputs w)).
Proof.
  revert w. induction inputs as [|i inputs IH]; intros w; cbn [handle_all]; [apply R_refl|].
  specialize (IH (after (step env i w))).
  destruct (handle_all env inputs (after (step env i w))) as [w' later]. cbn [fst] in *.
  eapply R_trans; [apply keeps_step_ | exact IH].
Qed.

End Handlers.
End Keeps.

Module Untouched.
Section Env.
Variable env : Env.

Lemma createMessage_apart (i : InsertMessage.t) (w : World) :
  apart w (after (createMessage env i w)).
Proof. repeat split. Qed.

Lemma upsertAnalytics_shape (i : InsertAnalytics.t) (w : World) :
  exists a,
    apart w (after (upsertAnalytics env i w)) /\
    storage (after (upsertAnalytics env i w))
    = {| MemStorage.speakers := MemStorage.speakers (storage w);
         MemStorage.messages := MemStorage.messages (storage w);
         MemStorage.sessionMemories := MemStorage.sessionMemories (storage w);
         MemStorage.aiPersonalities := MemStorage.aiPersonalities (storage w);
         MemStorage.analytics :=
           Map.set same_value_zero (InsertAnalytics.sessionId i) a
             (MemStorage.analytics (storage w)) |}.
Proof.
  unfold upsertAnalytics.
  rewrite (bind_eval get_world _ w w w []) by reflexivity. cbv zeta.
  destruct (Map.get same_value_zero _ _) as [a|]; [destruct (String.eqb _ "")|];
    eexists; repeat split.
Qed.

Lemma upsertAIPersonality_apart (i : value) (w : World) :
  apart w (after (upsertAIPersonality env i w)).
Proof.
  destruct (PersonalityFacts.upsert_personality_eval env i w)
    as (id & now & _ & _ & Hc & Hcalls & Ha & _).
  repeat split; assumption.
Qed.

(** The listeners on the accumulator touch neither the registry nor the
    repository. *)
Lemma processAudioChunk_reads (chunk : Buffer) (w : World) :
  clients (after (processAudioChunk env chunk w)) = clients w /\
  storage (after (processAudioChunk env chunk w)) = storage w.
Proof.
  set (R := fun w w1 : World => clients w1 = clients w /\ storage w1 = storage w).
  assert (R_refl : forall w, R w w) by (intros; split; reflexivity).
  assert (R_trans : forall w w1 w2, R w w1 -> R w1 w2 -> R w w2)
    by (intros ? ? ? [H1 H2] [H3 H4]; split; congruence).
  assert (Hevent : forall e, keeps R (on_audio_event env e)).
  { intros [| |level|audioData]; cbn [on_audio_event];
      try (apply (Keeps.keeps_still R R_refl); intros; reflexivity).
    apply (Keeps.keeps_try_catch R R_trans);
      [|intros e; apply (Keeps.keeps_still R R_refl); intros; reflexivity].
    apply (Keeps.keeps_bind R R_trans); [intros w0; split; reflexivity | intros transcribed].
    destruct (negb (blank (fst transcribed)));
      apply (Keeps.keeps_still R R_refl); intros; reflexivity. }
  assert (Hevents : forall events, keeps R (for_each (on_audio_event env) events)).
  { induction events as [|e events IH]; cbn [for_each].
    - apply (Keeps.keeps_still R R_refl); intros; reflexivity.
    - apply (Keeps.keeps_bind R R_trans); [apply Hevent | intros _; exact IH]. }
  change (R w (after (processAudioChunk env chunk w))).
  unfold processAudioChunk.
  rewrite (bind_eval get_world _ w w w []) by reflexivity. cbn [after].
  destruct (AudioProcessor.processAudioChunk _ chunk (audioProcessor w))
    as [returned [a events]].
  rewrite (bind_eval (put_world (with_audioProcessor a w)) _ w (with_audioProcessor a w) tt [])
    by reflexivity.
  cbn [after].
  apply (R_trans w (with_audioProcessor a w)); [split; reflexivity|].
  apply (Keeps.keeps_bind R R_trans); [apply Hevents | intros _].
  apply (Keeps.keeps_still R R_refl). intros w0. destruct returned; reflexivity.
Qed.

(** While the accumulator is not processing, a chunk changes nothing. *)
Lemma processAudioChunk_idle (chunk : Buffer) (w : World) :
  AudioProcessor.isProcessing (audioProcessor w) = false ->
  apart w (after (processAudioChunk env chunk w)) /\
  sent (processAudioChunk env chunk w) = [] /\
  ret (processAudioChunk env chunk w) = Ok tt /\
  storage (after (processAudioChunk env chunk w)) = storage w /\
  clock (after (processAudioChunk env chunk w)) = clock w /\
  uuids (after (processAudioChunk env chunk w)) = uuids w.
Proof.
  intros Hidle. unfold processAudioChunk.
  rewrite (bind_eval get_world _ w w w []) by reflexivity.
  unfold AudioProcessor.processAudioChunk. rewrite Hidle. cbn.
  repeat split.
Qed.

End Env.
End Untouched.

Module Idle.
Section Env.
Variable env : Env.

Lemma idle_refl (w : World) : stays_idle w w.
Proof. intros _. split; [reflexivity | tauto]. Qed.

Lemma idle_trans (w w1 w2 : World) : stays_idle w w1 -> stays_idle w1 w2 -> stays_idle w w2.
Proof.
  intros H1 H2 Hidle. destruct (H1 Hidle) as [Ha Hc].
  destruct H2 as [Ha2 Hc2]; [rewrite Ha; exact Hidle|].
  split; [congruence | intros b Hb; apply Hc, Hc2, Hb].
Qed.

Lemma idle_apart (w w1 : World) : apart w w1 -> stays_idle w w1.
Proof. intros (_ & Ha & Hc) _. rewrite Ha, Hc. split; [reflexivity | tauto]. Qed.

Lemma idle_call (c : call) {A} (answer : result A) :
  (forall audioBuffer, c <> TranscribeAudio audioBuffer) ->
  keeps stays_idle (call_service c answer).
Proof.
  intros Hc w _. split; [reflexivity|].
  intros b Hb. cbn in Hb. apply in_app_or in Hb as [Hb|[Hb|[]]]; [exact Hb|].
  exfalso. exact (Hc b Hb).
Qed.

Lemma idle_inputs (inputs : list input) (w : World) :
  stays_idle w (fst (handle_all env inputs w)).
Proof.
  apply (Keeps.keeps_handle_all env stays_idle idle_refl idle_trans).
  - intros w0. apply idle_apart. repeat split.
  - intros. apply idle_call. discriminate.
  - intros. apply idle_call. discriminate.
  - intros i0 _ w0. apply idle_apart, Untouched.createMessage_apart.
  - intros i0 w0. apply idle_apart.
    destruct (Untouched.upsertAnalytics_shape env i0 w0) as (a & H & _). exact H.
  - intros i0 w0. apply idle_apart, Untouched.upsertAIPersonality_apart.
  - intros chunk w0 Hidle.
    destruct (Untouched.processAudioChunk_idle env chunk w0 Hidle) as ((_ & Ha & Hc) & _).
    rewrite Ha, Hc. split; [reflexivity | tauto].
  - intros cs w0 _. split; [reflexivity | tauto].
Qed.

End Env.
End Idle.

(** X12.  Nothing that reaches the hub starts the accumulator: from a
    state in which it is not processing, after any sequence of
    connections, frames and disconnections it still is not and holds what
    it held, and no audio has been sent to transcription. *)
Theorem processor_never_started (env : Env) (inputs : list input) (w : World) :
  AudioProcessor.isProcessing (audioProcessor w) = false ->
  audioProcessor (fst (handle_all env inputs w)) = audioProcessor w /\
  forall audioBuffer,
    In (TranscribeAudio audioBuffer) (calls (fst (handle_all env inputs w))) ->
    In (TranscribeAudio audioBuffer) (calls w).
Proof. exact (Idle.idle_inputs env inputs w). Qed.

Lemma processor_never_started_witness :
  audioProcessor
    (fst (handle_all answering
            [Connection "A"; Frame "A" (Ok join_s1_frame); Frame "A" (Ok empty_audio_frame);
             Frame "A" (Ok request_frame); Close "A"]
            (boot 1762041600000)))
  = AudioProcessor.init.
Proof.
  exact (proj1 (processor_never_started answering
                  [Connection "A"; Frame "A" (Ok join_s1_frame);
                   Frame "A" (Ok empty_audio_frame); Frame "A" (Ok request_frame); Close "A"]
                  (boot 1762041600000) eq_refl)).
Defined.

Module Replies.
Section Env.
Variable env : Env.

Lemma replies_refl (w : World) : new_messages_ai_marked w w.
Proof. repeat split. intros id m H. left. exact H. Qed.

Lemma replies_trans (w w1 w2 : World) :
  new_messages_ai_marked w w1 -> new_messages_ai_marked w1 w2 -> new_messages_ai_marked w w2.
Proof.
  intros (Hs & Hm & Hmsg) (Hs2 & Hm2 & Hmsg2).
  split; [congruence|]. split; [congruence|].
  intros id m H. destruct (Hmsg2 id m H) as [H1|H1]; [apply Hmsg; exact H1 | right; exact H1].
Qed.

Lemma replies_same (w w1 : World) :
  MemStorage.speakers (storage w1) = MemStorage.speakers (storage w) ->
  MemStorage.sessionMemories (storage w1) = MemStorage.sessionMemories (storage w) ->
  MemStorage.messages (storage w1) = MemStorage.messages (storage w) ->
  new_messages_ai_marked w w1.
Proof.
  intros Hs Hm Hmsg. split; [exact Hs|]. split; [exact Hm|].
  intros id m H. left. rewrite <- Hmsg. exact H.
Qed.

Lemma replies_createMessage (i : InsertMessage.t) :
  InsertMessage.isAIGenerated i = Some true -> keeps new_messages_ai_marked (createMessage env i).
Proof.
  intros Hai w. split; [reflexivity|]. split; [reflexivity|].
  intros id m. cbn.
  destruct (String.eqb_spec id (randomUUID env (uuids w))) as [->|Hne].
  - rewrite MapFacts.get_set_same. intros [= <-]. right. cbn. rewrite Hai. reflexivity.
  - rewrite MapFacts.get_set_other by exact Hne. intros H. left. exact H.
Qed.

Lemma replies_inputs (inputs : list input) (w : World) :
  new_messages_ai_marked w (fst (handle_all env inputs w)).
Proof.
  apply (Keeps.keeps_handle_all env new_messages_ai_marked replies_refl replies_trans).
  - intros w0. apply replies_same; reflexivity.
  - intros transcript context answer w0. apply replies_same; reflexivity.
  - intros text voice answer w0. apply replies_same; reflexivity.
  - exact replies_createMessage.
  - intros i0 w0. destruct (Untouched.upsertAnalytics_shape env i0 w0) as (a & _ & Hst).
    apply replies_same; rewrite Hst; reflexivity.
  - intros i0 w0.
    destruct (PersonalityFacts.upsert_personality_eval env i0 w0)
      as (id & now & _ & _ & _ & _ & _ & Hst).
    apply replies_same; rewrite Hst; reflexivity.
  - intros chunk w0.
    destruct (Untouched.processAudioChunk_reads env chunk w0) as [_ Hst].
    apply replies_same; rewrite Hst; reflexivity.
  - intros cs w0. apply replies_same; reflexivity.
Qed.

End Env.
End Replies.

(** X13.  What the hub writes to the speakers, the session memories and
    the messages of the repository: after any sequence of connections,
    frames and disconnections the speakers and the session memories are
    as they were, and every message that was not stored before is marked
    [isAIGenerated].  Nothing is said here of the personalities, which an
    [updatePersonality] frame writes from the payload of the client, nor
    of the analytics, which the orchestrator rewrites after a reply. *)
Theorem hub_new_messages_ai_marked (env : Env) (inputs : list input) (w : World) :
  new_messages_ai_marked w (fst (handle_all env inputs w)).
Proof. exact (Replies.replies_inputs env inputs w). Qed.

(** ** The registry *)

Module Registry.

Lemma keys_set {V} (k : string) (v : V) (m : list (string * V)) :
  map fst (Map.set String.eqb k v m)
  = match Map.get String.eqb k m with
    | Some _ => map fst m
    | None => map fst m ++ [k]
    end.
Proof.
  induction m as [|[k' v'] m IH]; simpl; [reflexivity|].
  destruct (String.eqb k' k) eqn:E; simpl; [reflexivity|].
  rewrite IH. destruct (Map.get String.eqb k m); reflexivity.
Qed.

Lemma get_none_keys {V} (k : string) (m : list (string * V)) :
  Map.get String.eqb k m = None -> ~ In k (map fst m).
Proof.
  induction m as [|[k' v'] m IH]; simpl; [tauto|].
  destruct (String.eqb_spec k' k) as [->|Hne]; [discriminate|].
  intros H [Heq|Hin]; [congruence | exact (IH H Hin)].
Qed.

Lemma wf_set_any (cs : list (string * WebSocketClient.t)) (k : string) (c : WebSocketClient.t) :
  wf_registry cs -> wf_registry (Map.set String.eqb k c cs).
Proof.
  unfold wf_registry. intros Hwf. rewrite keys_set.
  destruct (Map.get String.eqb k cs) eqn:E; [exact Hwf|].
  apply NoDup_app; [exact Hwf | repeat constructor; simpl; tauto |].
  intros x Hx [Heq|[]]. subst x. exact (get_none_keys k cs E Hx).
Qed.

Lemma keys_delete {V} (k : string) (m : list (string * V)) (x : string) :
  In x (map fst (Map.delete String.eqb k m)) -> In x (map fst m).
Proof.
  induction m as [|[k' v'] m IH]; simpl; [tauto|].
  destruct (String.eqb k' k); simpl; [tauto|].
  intros [H|H]; [left; exact H | right; exact (IH H)].
Qed.

Lemma wf_delete (cs : list (string * WebSocketClient.t)) (k : string) :
  wf_registry cs -> wf_registry (Map.delete String.eqb k cs).
Proof.
  unfold wf_registry. induction cs as [|[k' c'] cs IH]; simpl; intros Hwf; [constructor|].
  inversion Hwf as [|? ? Hnotin Hnd]; subst.
  destruct (String.eqb k' k); simpl; [exact Hnd|].
  constructor; [|exact (IH Hnd)].
  intros Hin. apply Hnotin. exact (keys_delete k cs k' Hin).
Qed.

Lemma filed_set (cs : list (string * WebSocketClient.t)) (k : string) (c : WebSocketClient.t) :
  WebSocketClient.clientId c = k -> filed cs -> filed (Map.set String.eqb k c cs).
Proof.
  unfold filed. intros Hc. induction cs as [|[k' c'] cs IH]; simpl; intros Hf.
  - repeat constructor. exact Hc.
  - apply Forall_cons_iff in Hf as [Hhead Htail].
    destruct (String.eqb_spec k' k) as [->|Hne].
    + constructor; [exact Hc | exact Htail].
    + constructor; [exact Hhead | exact (IH Htail)].
Qed.

Lemma filed_delete (cs : list (string * WebSocketClient.t)) (k : string) :
  filed cs -> filed (Map.delete String.eqb k cs).
Proof.
  unfold filed. induction cs as [|[k' c'] cs IH]; simpl; intros Hf; [constructor|].
  apply Forall_cons_iff in Hf as [Hhead Htail].
  destruct (String.eqb k' k); [exact Htail|].
  constructor; [exact Hhead | exact (IH Htail)].
Qed.

Lemma filed_get (cs : list (string * WebSocketClient.t)) (k : string) (c : WebSocketClient.t) :
  filed cs -> Map.get String.eqb k cs = Some c -> WebSocketClient.clientId c = k.
Proof.
  unfold filed. induction cs as [|[k' c'] cs IH]; simpl; intros Hf; [discriminate|].
  apply Forall_cons_iff in Hf as [Hhead Htail].
  destruct (String.eqb_spec k' k) as [->|Hne].
  - intros [= <-]. exact Hhead.
  - exact (IH Htail).
Qed.

Lemma type_is_true (m : value) (t : string) : type_is m t = true -> prop m "type" = VStr t.
Proof.
  unfold type_is. destruct (prop m "type"); simpl; try discriminate.
  intros H. apply String.eqb_eq in H. congruence.
Qed.

Lemma try_catch_clients {A} (m : M A) (h : exn -> M A) (w : World) :
  (forall e w0, clients (after (h e w0)) = clients w0) ->
  clients (after (try_catch m h w)) = clients (after (m w)).
Proof.
  intros Hh. unfold try_catch. destruct (ret (m w)); cbn [after]; [reflexivity | apply Hh].
Qed.

Section Env.
Variable env : Env.

Lemma same_registry_routed (cid : string) (client : WebSocketClient.t) (m : value) :
  type_is m "joinSession" = false ->
  type_is m "desktop_connect" = false ->
  keeps same_registry (dispatch env cid client m).
Proof.
  apply (Keeps.keeps_routed env same_registry).
  - intros w. reflexivity.
  - unfold same_registry. intros w w1 w2 H1 H2. congruence.
  - intros w. reflexivity.
  - intros transcript context answer w. reflexivity.
  - intros text voice answer w. reflexivity.
  - intros i _ w. reflexivity.
  - intros i w. destruct (Untouched.upsertAnalytics_shape env i w) as (a & (H & _) & _). exact H.
  - intros i w. destruct (Untouched.upsertAIPersonality_apart env i w) as (H & _). exact H.
  - intros chunk w. destruct (Untouched.processAudioChunk_reads env chunk w) as [H _]. exact H.
Qed.

(** What the switch does to the registry. *)
Lemma dispatch_registry (cid : string) (client : WebSocketClient.t) (m : value) (w : World) :
  clients (after (dispatch env cid client m w)) = clients w \/
  exists sessionId isHost clientType,
    clients (after (dispatch env cid client m w))
    = Map.set String.eqb cid (with_join sessionId isHost clientType client) (clients w).
Proof.
  destruct (type_is m "joinSession") eqn:Hjoin.
  - right. apply type_is_true in Hjoin.
    destruct (Join.dispatch_joinSession env cid client m w Hjoin)
      as (now & w2 & _ & (Hc & _) & ->).
    eexists _, _, _. exact Hc.
  - destruct (type_is m "desktop_connect") eqn:Hdesktop.
    + right. apply type_is_true in Hdesktop.
      destruct (Join.dispatch_desktop_connect env cid client m w Hdesktop)
        as (now & w2 & _ & (Hc & _) & ->).
      eexists _, _, _. exact Hc.
    + left. apply same_registry_routed; assumption.
Qed.

(** What a frame does to the registry. *)
Lemma frame_registry (cid : string) (data : result value) (w : World) :
  clients (after (on_message env cid data w)) = clients w \/
  exists client sessionId isHost clientType,
    Map.get String.eqb cid (clients w) = Some client /\
    clients (after (on_message env cid data w))
    = Map.set String.eqb cid (with_join sessionId isHost clientType client) (clients w).
Proof.
  unfold on_message. rewrite try_catch_clients by reflexivity.
  destruct data as [frame|e]; [|left; reflexivity].
  change ((message <- lift (Ok frame) ;; handleWebSocketMessage env cid message) w)
    with (handleWebSocketMessage env cid frame w).
  destruct (Map.get String.eqb cid (clients w)) as [client|] eqn:Hget.
  - destruct (WebSocketClient.ws client) eqn:Hws;
      try (left; unfold handleWebSocketMessage, bind at 1, get_world; cbn;
           rewrite Hget, Hws; reflexivity).
    destruct (nullish frame) eqn:Hnull.
    + left. unfold handleWebSocketMessage, bind at 1, get_world. cbn.
      rewrite Hget, Hws, Hnull. reflexivity.
    + destruct (Ingress.handle_dispatch env cid client frame w Hget Hws Hnull)
        as (now & w1 & _ & (Hc & _) & ->).
      destruct (dispatch_registry cid client (normalized client frame now) w1)
        as [Hsame|(sid & host & kind & Hset)].
      * left. congruence.
      * right. exists client, sid, host, kind. split; [reflexivity|].
        rewrite Hset, Hc. reflexivity.
  - left. unfold handleWebSocketMessage, bind at 1, get_world. cbn.
    rewrite Hget. reflexivity.
Qed.

Lemma connection_registry (cid : string) (w : World) :
  clients (after (on_connection env cid w)) = Map.set String.eqb cid (unjoined cid) (clients w).
Proof. reflexivity. Qed.

Lemma close_registry (cid : string) (w : World) :
  clients (after (on_close env cid w)) = Map.delete String.eqb cid (clients w).
Proof.
  unfold on_close. rewrite (bind_eval get_world _ w w w []) by reflexivity.
  destruct (Map.get String.eqb cid (clients w)) as [client|];
    [destruct (truthy (WebSocketClient.sessionId client))|]; reflexivity.
Qed.

Lemma step_invariant (i : input) (w : World) :
  wf_registry (clients w) /\ filed (clients w) ->
  wf_registry (clients (after (step env i w))) /\ filed (clients (after (step env i w))).
Proof.
  intros [Hwf Hfiled]. destruct i as [cid|cid data|cid]; cbn [step].
  - rewrite connection_registry. split; [apply wf_set_any | apply filed_set]; auto.
  - destruct (frame_registry cid data w) as [->|(client & sid & host & kind & Hget & ->)];
      [split; assumption|].
    split; [apply wf_set_any; exact Hwf|].
    apply filed_set; [|exact Hfiled].
    cbn. exact (filed_get _ _ _ Hfiled Hget).
  - rewrite close_registry. split; [apply wf_delete | apply filed_delete]; assumption.
Qed.

Lemma inputs_invariant (inputs : list input) (w : World) :
  wf_registry (clients w) /\ filed (clients w) ->
  wf_registry (clients (fst (handle_all env inputs w))) /\
  filed (clients (fst (handle_all env inputs w))).
Proof.
  revert w. induction inputs as [|i inputs IH]; intros w H; cbn [handle_all]; [exact H|].
  specialize (IH (after (step env i w)) (step_invariant i w H)).
  destruct (handle_all env inputs (after (step env i w))) as [w' later]. exact IH.
Qed.

End Env.
End Registry.

(** X14.  A frame changes at most the registry entry of the connection it
    arrived on, and of that entry only what a join records: it adds no
    connection and removes none, it leaves every other connection's
    entry as it was, and the sender's entry keeps its socket and its
    [clientId].  This holds for every frame, parsed or not. *)
Theorem frame_changes_only_sender (env : Env) (cid : string) (data : result value)
    (w : World) :
  let w1 := after (on_message env cid data w) in
  map fst (clients w1) = map fst (clients w) /\
  (forall k, k <> cid ->
     Map.get String.eqb k (clients w1) = Map.get String.eqb k (clients w)) /\
  match Map.get String.eqb cid (clients w), Map.get String.eqb cid (clients w1) with
  | Some client, Some client1 =>
      WebSocketClient.ws client1 = WebSocketClient.ws client /\
      WebSocketClient.clientId client1 = WebSocketClient.clientId client
  | None, None => True
  | _, _ => False
  end.
Proof.
  cbv zeta.
  destruct (Registry.frame_registry env cid data w)
    as [->|(client & sid & host & kind & Hget & ->)].
  - split; [reflexivity|]. split; [reflexivity|].
    destruct (Map.get String.eqb cid (clients w)); [split; reflexivity | exact I].
  - split; [exact (MapFacts.keys_set_present cid _ client (clients w) Hget)|].
    split; [intros k Hk; apply MapFacts.get_set_other; exact Hk|].
    rewrite Hget, MapFacts.get_set_same. split; reflexivity.
Qed.

(** X15.  The registry stays a map of connections filed under their own
    ids: if no id has two entries and every entry is filed under its
    [clientId], the same holds after any sequence of connections, frames
    and disconnections, in particular in every state reached from the
    start of the process. *)
Theorem registry_invariant (env : Env) (inputs : list input) (w : World) :
  wf_registry (clients w) ->
  filed (clients w) ->
  wf_registry (clients (fst (handle_all env inputs w))) /\
  filed (clients (fst (handle_all env inputs w))).
Proof.
  intros Hwf Hfiled. apply Registry.inputs_invariant. split; assumption.
Qed.

Lemma registry_invariant_witness :
  wf_registry
    (clients (fst (handle_all answering
                     [Connection "A"; Connection "B"; Frame "A" (Ok join_s1_frame);
                      Frame "B" (Ok desktop_connect_frame); Close "A"]
                     (boot 1762041600000)))).
Proof.
  exact (proj1 (registry_invariant answering
                  [Connection "A"; Connection "B"; Frame "A" (Ok join_s1_frame);
                   Frame "B" (Ok desktop_connect_frame); Close "A"]
                  (boot 1762041600000) (NoDup_nil _) (Forall_nil _))).
Defined.

(** ** Frames that fail and frames that are ignored *)

Module Failure.
Section Env.
Variable env : Env.

Lemma try_catch_returns (m : M unit) (h : exn -> M unit) (w : World) :
  (forall e w0, ret (h e w0) = Ok tt) -> ret (try_catch m h w) = Ok tt.
Proof.
  intros Hh. unfold try_catch. destruct (ret (m w)) as [[]|e] eqn:E; [exact E | apply Hh].
Qed.

(** The reply of the listener to a failure. *)
Lemma handler_throws (cid : string) (frame : value) (w w1 : World) (e : exn)
    (s1 : list delivery) :
  handleWebSocketMessage env cid frame w = {| ret := Throw e; after := w1; sent := s1 |} ->
  on_message env cid (Ok frame) w
  = {| ret := Ok tt;
       after := after (Date_now env w1);
       sent := s1 ++ [(cid, JSON.stringify (error_envelope (error_message e)
                                              (clock (after (Date_now env w1)))))] |}.
Proof.
  intros H. rewrite Eval.on_message_parsed. unfold try_catch. rewrite H. reflexivity.
Qed.

Lemma dispatch_audioData (cid : string) (client : WebSocketClient.t) (m : value) :
  prop m "type" = VStr "audioData" ->
  dispatch env cid client m
  = (if truthy (prop m "data") then
       audioBuffer <- lift (Buffer_from_base64 env (prop m "data")) ;;
       processAudioChunk env audioBuffer
     else pure tt).
Proof. intros H. unfold dispatch, type_is. rewrite H. reflexivity. Qed.

Lemma dispatch_unhandled (cid : string) (client : WebSocketClient.t) (m : value) :
  (forall t, In t handled_types -> type_is m t = false) ->
  dispatch env cid client m = pure tt.
Proof.
  intros H. unfold dispatch.
  rewrite !H by (simpl; tauto). reflexivity.
Qed.

End Env.
End Failure.

(** X16.  No frame makes the message listener throw, and a failure is
    answered on the socket the frame came from, to nobody else, by one
    [error] envelope from "server" that carries the message of the
    exception: for a frame that does not parse, for a frame that parses
    to [null] (the read of its [source] fails) and for an [audioData]
    frame whose payload does not decode.  Nothing but the clock changes. *)
Theorem frame_failure_reported (env : Env) (cid : string) (client : WebSocketClient.t)
    (w : World) :
  Map.get String.eqb cid (clients w) = Some client ->
  WebSocketClient.ws client = OPEN ->
  (forall data, ret (on_message env cid data w) = Ok tt) /\
  (forall e, exists now,
     (clock w <= now)%Z /\
     sent (on_message env cid (Throw e) w)
     = [(cid, JSON.stringify (error_envelope (error_message e) now))] /\
     ticked w (after (on_message env cid (Throw e) w))) /\
  (forall frame, nullish frame = true ->
   exists now,
     (clock w <= now)%Z /\
     sent (on_message env cid (Ok frame) w)
     = [(cid, JSON.stringify
                (error_envelope "Cannot read properties of null (reading 'source')" now))] /\
     ticked w (after (on_message env cid (Ok frame) w))) /\
  (forall frame e,
     prop frame "type" = VStr "audioData" ->
     truthy (payload frame) = true ->
     Buffer_from_base64 env (payload frame) = Throw e ->
     exists now,
       (clock w <= now)%Z /\
       sent (on_message env cid (Ok frame) w)
       = [(cid, JSON.stringify (error_envelope (error_message e) now))] /\
       ticked w (after (on_message env cid (Ok frame) w))).
Proof.
  intros Hget Hopen. split; [|split; [|split]].
  - intros data. unfold on_message. apply Failure.try_catch_returns. reflexivity.
  - intros e. eexists. split; [|split; [reflexivity|]].
    + cbn. lia.
    + apply Eval.Date_now_ticked.
  - intros frame Hnull.
    assert (Hthrow : handleWebSocketMessage env cid frame w
              = {| ret := Throw (Error "Cannot read properties of null (reading 'source')");
                   after := w; sent := [] |}).
    { unfold handleWebSocketMessage, bind at 1, get_world. cbn.
      rewrite Hget, Hopen, Hnull. reflexivity. }
    rewrite (Failure.handler_throws env cid frame w w _ [] Hthrow).
    eexists. split; [|split; [reflexivity|]].
    + cbn. lia.
    + apply Eval.Date_now_ticked.
  - intros frame e Htype Hdata Hdecode.
    destruct (Ingress.handle_dispatch env cid client frame w Hget Hopen
                (Ingress.typed_frame_not_nullish frame _ Htype))
      as (now0 & w1 & _ & Hticked & Heq).
    assert (Htype' : prop (normalized client frame now0) "type" = VStr "audioData")
      by (rewrite Eval.normalized_type; exact Htype).
    rewrite (Failure.dispatch_audioData env cid client _ Htype') in Heq.
    rewrite Eval.normalized_data, Hdata in Heq.
    assert (Hthrow : handleWebSocketMessage env cid frame w
              = {| ret := Throw e; after := w1; sent := [] |}).
    { rewrite Heq. unfold bind, lift. cbn [ret after sent]. rewrite Hdecode. reflexivity. }
    rewrite (Failure.handler_throws env cid frame w w1 e [] Hthrow).
    eexists. split; [|split; [reflexivity|]].
    + destruct Hticked as (_ & _ & _ & _ & _ & Hclock). cbn. lia.
    + cbn [after]. eapply ticked_trans; [exact Hticked | apply Eval.Date_now_ticked].
Qed.

Lemma frame_failure_reported_witness :
  exists now,
    sent (on_message answering "B" (Ok VNull) studio)
    = [("B", JSON.stringify
               (error_envelope "Cannot read properties of null (reading 'source')" now))].
Proof.
  destruct (frame_failure_reported answering "B" (joined "B" "browser" "s1") studio
              eq_refl eq_refl) as (_ & _ & Hnull & _).
  destruct (Hnull VNull eq_refl) as (now & _ & Hsent & _).
  exists now. exact Hsent.
Defined.

(** X17.  A frame is dropped without a trace when the connection it
    arrived on is no longer registered, when its socket is not open, or
    when its [type] is none of those the switch has a case for, which
    includes every frame that is a number, a string, a boolean or an
    array: nothing is sent, not even an error, and nothing but the clock
    changes. *)
Theorem ignored_frames_silent (env : Env) (cid : string) (frame : value) (w : World) :
  (Map.get String.eqb cid (clients w) = None \/
   (exists client,
      Map.get String.eqb cid (clients w) = Some client /\
      is_OPEN (WebSocketClient.ws client) = false) \/
   (nullish frame = false /\ forall t, In t handled_types -> type_is frame t = false)) ->
  sent (on_message env cid (Ok frame) w) = [] /\
  ret (on_message env cid (Ok frame) w) = Ok tt /\
  ticked w (after (on_message env cid (Ok frame) w)).
Proof.
  assert (Hquiet : handleWebSocketMessage env cid frame w
                   = {| ret := Ok tt; after := w; sent := [] |} ->
                   sent (on_message env cid (Ok frame) w) = [] /\
                   ret (on_message env cid (Ok frame) w) = Ok tt /\
                   ticked w (after (on_message env cid (Ok frame) w))).
  { intros H. rewrite Ingress.on_message_returns by (rewrite H; reflexivity).
    rewrite H. split; [reflexivity|]. split; [reflexivity | apply ticked_refl]. }
  intros [Hnone|[(client & Hget & Hclosed)|[Hnull Htypes]]].
  - apply Hquiet. unfold handleWebSocketMessage, bind at 1, get_world. cbn.
    rewrite Hnone. reflexivity.
  - apply Hquiet. unfold handleWebSocketMessage, bind at 1, get_world. cbn.
    rewrite Hget, Hclosed. reflexivity.
  - destruct (Map.get String.eqb cid (clients w)) as [client|] eqn:Hget.
    + destruct (is_OPEN (WebSocketClient.ws client)) eqn:Hopen.
      * assert (Hws : WebSocketClient.ws client = OPEN)
          by (destruct (WebSocketClient.ws client); try discriminate; reflexivity).
        destruct (Ingress.on_message_dispatch env cid client frame w Hget Hws Hnull)
          as (now0 & w1 & _ & Hticked & Hrun).
        assert (Hun : dispatch env cid client (normalized client frame now0) = pure tt).
        { apply Failure.dispatch_unhandled. intros t Ht.
          unfold type_is. rewrite Eval.normalized_type. apply (Htypes t Ht). }
        rewrite Hun in Hrun. rewrite Hrun by reflexivity.
        split; [reflexivity|]. split; [reflexivity | exact Hticked].
      * apply Hquiet. unfold handleWebSocketMessage, bind at 1, get_world. cbn.
        rewrite Hget, Hopen. reflexivity.
    + apply Hquiet. unfold handleWebSocketMessage, bind at 1, get_world. cbn.
      rewrite Hget. reflexivity.
Qed.

Lemma ignored_frames_silent_witness :
  sent (on_message answering "B" (Ok (VObj 1 [("type", VStr "ping")])) studio) = [] /\
  sent (on_message answering "B" (Ok (VNum 42)) studio) = [] /\
  sent (on_message answering "Z" (Ok request_frame) studio) = [].
Proof.
  split; [|split].
  - apply (ignored_frames_silent answering "B" (VObj 1 [("type", VStr "ping")]) studio).
    right. right. split; [reflexivity|].
    intros t Ht. simpl in Ht.
    repeat (destruct Ht as [<-|Ht]; [reflexivity|]). destruct Ht.
  - apply (ignored_frames_silent answering "B" (VNum 42) studio).
    right. right. split; [reflexivity|]. intros t _. reflexivity.
  - apply (ignored_frames_silent answering "Z" request_frame studio).
    left. reflexivity.
Defined.

(** X18.  Audio that reaches the hub is decoded and dropped.  Nothing
    starts the accumulator, and while it is not processing an
    [audioData] frame whose payload decodes (or is falsy, and is then not
    decoded at all) leads to no message, no level, no transcription and
    no change but the clock. *)
Theorem audio_frames_dropped (env : Env) (cid : string) (client : WebSocketClient.t)
    (frame : value) (w : World) :
  Map.get String.eqb cid (clients w) = Some client ->
  WebSocketClient.ws client = OPEN ->
  prop frame "type" = VStr "audioData" ->
  AudioProcessor.isProcessing (audioProcessor w) = false ->
  (truthy (payload frame) = true ->
   exists chunk, Buffer_from_base64 env (payload frame) = Ok chunk) ->
  sent (on_message env cid (Ok frame) w) = [] /\
  ticked w (after (on_message env cid (Ok frame) w)).
Proof.
  intros Hget Hopen Htype Hidle Hdecode.
  destruct (Ingress.on_message_dispatch env cid client frame w Hget Hopen
              (Ingress.typed_frame_not_nullish frame _ Htype))
    as (now0 & w1 & _ & Hticked & Hrun).
  assert (Htype' : prop (normalized client frame now0) "type" = VStr "audioData")
    by (rewrite Eval.normalized_type; exact Htype).
  rewrite (Failure.dispatch_audioData env cid client _ Htype') in Hrun.
  rewrite Eval.normalized_data in Hrun.
  destruct (truthy (payload frame)) eqn:Hdata.
  - destruct (Hdecode eq_refl) as (chunk & Hchunk). rewrite Hchunk in Hrun.
    change ((audioBuffer <- lift (Ok chunk) ;; processAudioChunk env audioBuffer) w1)
      with (processAudioChunk env chunk w1) in Hrun.
    assert (Hidle1 : AudioProcessor.isProcessing (audioProcessor w1) = false).
    { destruct Hticked as (_ & _ & Ha & _). rewrite Ha. exact Hidle. }
    destruct (Untouched.processAudioChunk_idle env chunk w1 Hidle1)
      as ((Hc & Ha & Hcalls) & Hsent & Hret & Hst & Hclock & Huuids).
    rewrite Hrun by exact Hret. split; [exact Hsent|].
    eapply ticked_trans; [exact Hticked|].
    unfold ticked. repeat split; try assumption. lia.
  - rewrite Hrun by reflexivity. split; [reflexivity | exact Hticked].
Qed.

Lemma audio_frames_dropped_witness :
  sent (on_message answering "A"
          (Ok (VObj 1 [("type", VStr "audioData"); ("data", VStr "UklGRg==")])) studio) = [].
Proof.
  apply (audio_frames_dropped answering "A" (joined "A" "desktop" "s1")
           (VObj 1 [("type", VStr "audioData"); ("data", VStr "UklGRg==")]) studio
           eq_refl eq_refl eq_refl eq_refl).
  intros _. exists {| byteOffset := 0; bytes := [] |}. reflexivity.
Defined.

(** ** Connections that come and go *)

Module Lifecycle.

Lemma delete_set_absent {V} (k : string) (v : V) (m : list (string * V)) :
  Map.get String.eqb k m = None ->
  Map.delete String.eqb k (Map.set String.eqb k v m) = m.
Proof.
  induction m as [|[k' v'] m IH]; simpl.
  - rewrite String.eqb_refl. reflexivity.
  - destruct (String.eqb k' k) eqn:E; [discriminate|]. simpl. rewrite E.
    intros H. rewrite IH by exact H. reflexivity.
Qed.

Lemma get_delete_same (cs : list (string * WebSocketClient.t)) (k : string) :
  wf_registry cs -> Map.get String.eqb k (Map.delete String.eqb k cs) = None.
Proof.
  unfold wf_registry. induction cs as [|[k' c'] cs IH]; simpl; intros Hwf; [reflexivity|].
  inversion Hwf as [|? ? Hnotin Hnd]; subst.
  destruct (String.eqb_spec k' k) as [->|Hne]; simpl.
  - destruct (Map.get String.eqb k cs) eqn:E; [|reflexivity].
    exfalso. apply Hnotin. clear -E.
    induction cs as [|[k0 c0] cs IH]; simpl in *; [discriminate|].
    destruct (String.eqb_spec k0 k); [left; assumption | right; exact (IH E)].
  - destruct (String.eqb_spec k' k); [contradiction | exact (IH Hnd)].
Qed.

Lemma get_delete_other {V} (k k' : string) (m : list (string * V)) :
  k' <> k -> Map.get String.eqb k' (Map.delete String.eqb k m) = Map.get String.eqb k' m.
Proof.
  intros Hne. induction m as [|[k0 v0] m IH]; simpl; [reflexivity|].
  destruct (String.eqb_spec k0 k) as [->|E]; simpl.
  - destruct (String.eqb_spec k k'); [congruence | reflexivity].
  - destruct (String.eqb k0 k'); [reflexivity | exact IH].
Qed.

End Lifecycle.

(** X19.  When a connection closes, its entry leaves the registry and,
    if it had joined a session, every other open connection recorded in
    that session is told once, by a [status] envelope from "server" that
    names the closed connection; the closed connection itself and the
    members of other sessions receive nothing.  A connection that had not
    joined leaves without any message. *)
Theorem close_notifies_session (env : Env) (cid : string) (client : WebSocketClient.t)
    (w : World) :
  wf_registry (clients w) ->
  Map.get String.eqb cid (clients w) = Some client ->
  let S := WebSocketClient.sessionId client in
  let r := on_close env cid w in
  Map.get String.eqb cid (clients (after r)) = None /\
  (forall k, k <> cid ->
     Map.get String.eqb k (clients (after r)) = Map.get String.eqb k (clients w)) /\
  storage (after r) = storage w /\
  (truthy S = false -> sent r = []) /\
  (truthy S = true ->
   exists now,
     (clock w <= now)%Z /\
     forall k,
       deliveries_to k (sent r)
       = if registered (clients w) (in_session S) k && negb (String.eqb k cid)
         then [JSON.stringify
                 (obj [("type", VStr "status"); ("source", VStr "server");
                       ("data", obj [("status", VStr "client_disconnected");
                                     ("clientType", WebSocketClient.clientType client);
                                     ("clientId", VStr cid)]);
                       ("timestamp", VStr (Date.toISOString now))])]
         else []).
Proof.
  intros Hwf Hget. cbv zeta.
  rewrite Registry.close_registry.
  split; [apply Lifecycle.get_delete_same; exact Hwf|].
  split; [intros k Hk; apply Lifecycle.get_delete_other; exact Hk|].
  unfold on_close. rewrite (bind_eval get_world _ w w w []) by reflexivity.
  rewrite Hget.
  destruct (truthy (WebSocketClient.sessionId client)) eqn:Hjoined.
  - split; [reflexivity|]. split; [discriminate|]. intros _.
    eexists. split; [|intros k].
    2:{ cbn [sent ret after bind Date_now get_world put_world broadcastToSession send_all
             app clients].
        rewrite app_nil_r.
        rewrite HubFacts.deliveries_to_fanout by exact Hwf.
        apply f_equal with (f := fun b : bool => if b then _ else _).
        unfold registered. destruct (Map.get String.eqb k (clients w)); reflexivity. }
    cbn. lia.
  - split; [reflexivity|]. split; [reflexivity | discriminate].
Qed.

Lemma close_notifies_session_witness :
  Map.get String.eqb "A" (clients (after (on_close answering "A" studio))) = None /\
  (exists envelope,
     deliveries_to "B" (sent (on_close answering "A" studio)) = [envelope] /\
     prop (prop envelope "data") "status" = VStr "client_disconnected") /\
  deliveries_to "C" (sent (on_close answering "A" studio)) = [].
Proof.
  assert (Hwf : wf_registry (clients studio)).
  { unfold wf_registry. simpl.
    repeat (constructor; [simpl; intuition discriminate|]). constructor. }
  destruct (close_notifies_session answering "A" (joined "A" "desktop" "s1") studio
              Hwf eq_refl) as (Hgone & _ & _ & _ & Htold).
  destruct (Htold eq_refl) as (now & _ & Hall).
  split; [exact Hgone|]. split.
  - eexists. split; [rewrite (Hall "B"); reflexivity | reflexivity].
  - rewrite (Hall "C"). reflexivity.
Defined.

(** X20.  A connection that is opened and closed without joining leaves
    no trace: the registry and the repository are as before, and the
    only message sent is the [connected] envelope from "server" that
    tells the new connection its id. *)
Theorem connect_close_round_trip (env : Env) (cid : string) (w : World) :
  Map.get String.eqb cid (clients w) = None ->
  clients (fst (handle_all env [Connection cid; Close cid] w)) = clients w /\
  storage (fst (handle_all env [Connection cid; Close cid] w)) = storage w /\
  exists now,
    (clock w <= now)%Z /\
    snd (handle_all env [Connection cid; Close cid] w)
    = [(cid, JSON.stringify
               (obj [("type", VStr "connected"); ("source", VStr "server");
                     ("data", obj [("clientId", VStr cid)]);
                     ("timestamp", VStr (Date.toISOString now))]))].
Proof.
  intros Hnew.
  cbn [handle_all step fst snd].
  set (w1 := after (on_connection env cid w)).
  assert (Hc1 : clients w1 = Map.set String.eqb cid (unjoined cid) (clients w)) by reflexivity.
  assert (Hclose : on_close env cid w1
                   = {| ret := Ok tt;
                        after := with_clients (Map.delete String.eqb cid (clients w1)) w1;
                        sent := [] |}).
  { unfold on_close. rewrite (bind_eval get_world _ w1 w1 w1 []) by reflexivity.
    rewrite Hc1, MapFacts.get_set_same. reflexivity. }
  rewrite Hclose. cbn [after sent fst snd with_clients clients storage].
  rewrite Hc1, Lifecycle.delete_set_absent by exact Hnew.
  split; [reflexivity|]. split; [reflexivity|].
  eexists. split; [|reflexivity]. cbn. lia.
Qed.

Lemma connect_close_round_trip_witness :
  clients (fst (handle_all answering [Connection "E"; Close "E"] studio)) = clients studio.
Proof.
  exact (proj1 (connect_close_round_trip answering "E" studio eq_refl)).
Defined.

(** ** The other forwarders *)

Module Routes.

Lemma strict_eq_string (v : value) (s : string) : strict_eq v (VStr s) = true <-> v = VStr s.
Proof.
  split.
  - destruct v; simpl; try discriminate. intros H. apply String.eqb_eq in H. congruence.
  - intros ->. simpl. apply String.eqb_refl.
Qed.

Section Env.
Variable env : Env.

(** The three cases of the switch that forward from one kind to the
    other, besides [transcript]. *)
Lemma dispatch_forwarder (type from to : string) (cid : string) (client : WebSocketClient.t)
    (m : value) :
  In (type, from, to) forwarders ->
  prop m "type" = VStr type ->
  dispatch env cid client m
  = (if strict_eq (WebSocketClient.clientType client) (VStr from)
        && truthy (WebSocketClient.sessionId client)
     then (forwardedMessage <- forwarded env type (VStr from) m ;;
           w <- get_world ;;
           send_all
             (map fst (filter (fun entry =>
                                 strict_eq (WebSocketClient.sessionId (snd entry))
                                           (WebSocketClient.sessionId client) &&
                                 of_kind to entry && is_OPEN (WebSocketClient.ws (snd entry)))
                              (clients w)))
             forwardedMessage)
     else pure tt).
Proof.
  intros Hin Htype. unfold dispatch, type_is. rewrite Htype.
  destruct Hin as [[= <- <- <-]|[[= <- <- <-]|[[= <- <- <-]|[]]]]; reflexivity.
Qed.

End Env.
End Routes.

(** X21.  [ai_response] and [control_command] frames go from browsers to
    desktops and [audio_levels] frames from desktops to browsers: a frame
    of such a type from an open connection recorded with the sending kind
    in session S reaches every open connection recorded with the
    receiving kind in S exactly once, as an envelope of the same type
    whose [source] is the sending kind and whose [data] is the frame's
    payload, and reaches nobody else.  From a connection of another kind,
    or one that has not joined, it is dropped.  Nothing but the clock
    changes. *)
Theorem forwarders_route_by_kind (env : Env) (w : World) (cid : string)
    (client : WebSocketClient.t) (frame : value) (type from to : string) :
  In (type, from, to) forwarders ->
  wf_registry (clients w) ->
  Map.get String.eqb cid (clients w) = Some client ->
  WebSocketClient.ws client = OPEN ->
  prop frame "type" = VStr type ->
  let r := on_message env cid (Ok frame) w in
  let S := WebSocketClient.sessionId client in
  (WebSocketClient.clientType client = VStr from ->
   truthy S = true ->
   exists stamp,
     truthy stamp = true /\
     forall k,
       deliveries_to k (sent r)
       = if registered (clients w) (fun entry => in_session S entry && of_kind to entry) k
         then [JSON.stringify
                 (obj [("type", VStr type); ("source", VStr from);
                       ("data", payload frame); ("timestamp", stamp)])]
         else []) /\
  (WebSocketClient.clientType client <> VStr from \/ truthy S = false -> sent r = []) /\
  ticked w (after r).
Proof.
  intros Hin Hwf Hget Hopen Htype. cbv zeta.
  destruct (Ingress.on_message_dispatch env cid client frame w Hget Hopen
              (Ingress.typed_frame_not_nullish frame _ Htype))
    as (now0 & w1 & _ & Hticked & Hrun).
  assert (Htype' : prop (normalized client frame now0) "type" = VStr type)
    by (rewrite Eval.normalized_type; exact Htype).
  rewrite (Routes.dispatch_forwarder env type from to cid client _ Hin Htype') in Hrun.
  destruct (strict_eq (WebSocketClient.clientType client) (VStr from)
            && truthy (WebSocketClient.sessionId client)) eqn:Hgate.
  - apply andb_true_iff in Hgate as [Hkind Hjoined].
    apply Routes.strict_eq_string in Hkind.
    destruct (Eval.forwarded_eval env type (VStr from) (normalized client frame now0) w1)
      as (stamp & w2 & Heq & Hticked2 & Hstamp).
    rewrite (bind_eval _ _ _ _ _ _ Heq) in Hrun.
    rewrite Hrun by reflexivity. clear Hrun.
    cbn [sent ret after bind get_world send_all app].
    split; [|split].
    + intros _ _. exists stamp. split; [exact Hstamp|]. intros k.
      destruct Hticked as (Hc & _). destruct Hticked2 as (Hc2 & _).
      rewrite Hc2, Hc, Eval.normalized_data.
      rewrite HubFacts.deliveries_to_fanout by exact Hwf.
      apply f_equal with (f := fun b : bool => if b then _ else _).
      apply Recipients.registered_ext. intros c. unfold in_session.
      rewrite <- !andb_assoc. f_equal. apply andb_comm.
    + intros [Hne|Hno]; [contradiction | congruence].
    + eapply ticked_trans; [exact Hticked | exact Hticked2].
  - rewrite Hrun by reflexivity. split; [|split].
    + intros Hkind Hjoined. rewrite Hkind, Hjoined in Hgate.
      cbn in Hgate. rewrite String.eqb_refl in Hgate. discriminate.
    + intros _. reflexivity.
    + exact Hticked.
Qed.

Lemma forwarders_route_by_kind_witness :
  exists envelope,
    deliveries_to "A"
      (sent (on_message answering "B"
               (Ok (VObj 1 [("type", VStr "control_command"); ("source", VStr "browser");
                            ("data", VObj 2 [("command", VStr "mute")]);
                            ("timestamp", VStr "2025-11-02T00:00:00.000Z")])) studio))
    = [envelope] /\
    prop envelope "source" = VStr "browser" /\
    prop (prop envelope "data") "command" = VStr "mute".
Proof.
  assert (Hwf : wf_registry (clients studio)).
  { unfold wf_registry. simpl.
    repeat (constructor; [simpl; intuition discriminate|]). constructor. }
  destruct (forwarders_route_by_kind answering studio "B" (joined "B" "browser" "s1")
              (VObj 1 [("type", VStr "control_command"); ("source", VStr "browser");
                       ("data", VObj 2 [("command", VStr "mute")]);
                       ("timestamp", VStr "2025-11-02T00:00:00.000Z")])
              "control_command" "browser" "desktop"
              (or_intror (or_introl eq_refl)) Hwf eq_refl eq_refl eq_refl)
    as (Hroute & _ & _).
  destruct (Hroute eq_refl eq_refl) as (stamp & Hstamp & Hall).
  eexists. split; [rewrite (Hall "A"); reflexivity|].
  split; reflexivity.
Defined.

(** ** The orchestrator after the generation *)

Module Reply.
Section Env.
Variable env : Env.

Lemma session_speakers_eval (S : value) (w : World) :
  getSessionSpeakers S w
  = {| ret := Ok (session_speakers (storage w) S); after := w; sent := [] |}.
Proof. reflexivity. Qed.

(** Without an AI speaker in the session the reply goes nowhere. *)
Lemma respond_without_speaker (S : value) (context : ConversationContext.t)
    (generated : string * float) (w : World) :
  find is_ai (session_speakers (storage w) S) = None ->
  respond_with env S context generated w = {| ret := Ok tt; after := w; sent := [] |}.
Proof.
  intros Hfind. unfold respond_with.
  rewrite (bind_eval _ _ _ _ _ _ (session_speakers_eval S w)).
  fold is_ai. rewrite Hfind. reflexivity.
Qed.

(** With one, the reply is stored first and synthesized next. *)
Lemma respond_stores_first (S : value) (context : ConversationContext.t)
    (response : string) (confidence : float) (aiSpeaker : Speaker.t) (w : World) :
  find is_ai (session_speakers (storage w) S) = Some aiSpeaker ->
  let aiMessage := reply_message env w S aiSpeaker response confidence in
  let voice := ConversationContext.voiceType (ConversationContext.personality context) in
  let w1 := after (createMessage env
                     {| InsertMessage.sessionId := S;
                        InsertMessage.speakerId := Speaker.id aiSpeaker;
                        InsertMessage.content := response;
                        InsertMessage.confidence := Some confidence;
                        InsertMessage.isAIGenerated := Some true;
                        InsertMessage.metadata := VUndefined |} w) in
  respond_with env S context (response, confidence) w
  = (audioBuffer <- call_service (SynthesizeSpeech response voice)
                      (synthesizeSpeech env response voice) ;;
     broadcastToSession S
       (obj [("type", VStr "aiResponse");
             ("data", obj [("message", Message.to_value aiMessage);
                           ("audio", VStr (Buffer_to_base64 env audioBuffer))])])
       None ;;;
     analytics <- getAnalytics S ;;
     match analytics with
     | Some a =>
         upsertAnalytics env
           {| InsertAnalytics.sessionId := S;
              InsertAnalytics.totalResponses :=
                Some (num_or (Analytics.totalResponses a) 0 + 1)%float;
              InsertAnalytics.avgResponseTime := Some (confidence * 2)%float;
              InsertAnalytics.aiSpeakingTime := Analytics.aiSpeakingTime a;
              InsertAnalytics.interrupts := Analytics.interrupts a;
              InsertAnalytics.jokeSuccessRate := Analytics.jokeSuccessRate a |} ;;;
         pure tt
     | None => pure tt
     end) w1 /\
  Map.get String.eqb (Message.id aiMessage) (MemStorage.messages (storage w1)) = Some aiMessage /\
  clients w1 = clients w /\ calls w1 = calls w /\
  MemStorage.analytics (storage w1) = MemStorage.analytics (storage w).
Proof.
  intros Hfind. cbv zeta. split.
  - unfold respond_with.
    rewrite (bind_eval _ _ _ _ _ _ (session_speakers_eval S w)).
    fold is_ai. rewrite Hfind. cbn [fst snd].
    erewrite bind_eval by reflexivity. reflexivity.
  - split; [|repeat split].
    cbn. apply MapFacts.get_set_same.
Qed.

End Env.
End Reply.

Module Request.
Section Env.
Variable env : Env.

(** A request from a joined connection, once the generator has answered. *)
Lemma request_generated (cid : string) (client : WebSocketClient.t) (frame : value)
    (w : World) (generated : string * float) :
  Map.get String.eqb cid (clients w) = Some client ->
  WebSocketClient.ws client = OPEN ->
  prop frame "type" = VStr "requestAIResponse" ->
  truthy (WebSocketClient.sessionId client) = true ->
  generateAIResponse env (requested_transcript frame)
    (context_at (storage w) (WebSocketClient.sessionId client)) = Ok generated ->
  exists w1,
    ticked w w1 /\
    on_message env cid (Ok frame) w
    = try_catch
        (respond_with env (WebSocketClient.sessionId client)
           (context_at (storage w) (WebSocketClient.sessionId client)) generated)
        (fun error =>
           send (WebSocketClient.clientId client)
                (obj [("type", VStr "error"); ("message", VStr (error_message error))]))
        (logged (GenerateAIResponse (requested_transcript frame)
                   (context_at (storage w) (WebSocketClient.sessionId client))) w1).
Proof.
  intros Hget Hopen Htype Hjoined Hgen.
  destruct (Ingress.on_message_dispatch env cid client frame w Hget Hopen
              (Ingress.typed_frame_not_nullish frame _ Htype))
    as (now0 & w1 & _ & Hticked & Hrun).
  assert (Htype' : prop (normalized client frame now0) "type" = VStr "requestAIResponse")
    by (rewrite Eval.normalized_type; exact Htype).
  rewrite (Orchestrator.dispatch_requestAIResponse env cid client _ Htype') in Hrun.
  rewrite Hrun by apply Orchestrator.request_returns. clear Hrun.
  exists w1. split; [exact Hticked|].
  rewrite Orchestrator.starts_with_generation by exact Hjoined.
  rewrite Orchestrator.transcript_of_normalized.
  destruct Hticked as (_ & Hst & _). rewrite Hst.
  unfold try_catch, bind, call_service. cbn [ret after sent]. rewrite Hgen.
  reflexivity.
Qed.

End Env.
End Request.

(** X22.  When the generator answers a request from a connection joined
    to session S, S has an AI speaker and the synthesis succeeds: the
    reply is stored as a message of S by that speaker, marked
    [isAIGenerated], under a newly drawn id; every open connection
    recorded in S, the requester included, receives exactly one
    [aiResponse] envelope with that message and the audio, and nobody
    else receives anything; the services called are the generator and
    then the synthesizer, once each; and the analytics record of S, when
    there is one, has its [totalResponses] raised by one and keeps its id,
    while none is created when there is none. *)
Theorem reply_stored_and_broadcast (env : Env) (w : World) (cid : string)
    (client : WebSocketClient.t) (frame : value) (response : string) (confidence : float)
    (aiSpeaker : Speaker.t) (audio : Buffer) :
  let S := WebSocketClient.sessionId client in
  let context := context_at (storage w) S in
  let voice := ConversationContext.voiceType (ConversationContext.personality context) in
  let r := on_message env cid (Ok frame) w in
  wf_registry (clients w) ->
  Map.get String.eqb cid (clients w) = Some client ->
  WebSocketClient.ws client = OPEN ->
  prop frame "type" = VStr "requestAIResponse" ->
  truthy S = true ->
  generateAIResponse env (requested_transcript frame) context = Ok (response, confidence) ->
  find is_ai (session_speakers (storage w) S) = Some aiSpeaker ->
  synthesizeSpeech env response voice = Ok audio ->
  exists aiMessage,
    Map.get String.eqb (randomUUID env (uuids w)) (MemStorage.messages (storage (after r)))
    = Some aiMessage /\
    Message.id aiMessage = randomUUID env (uuids w) /\
    Message.sessionId aiMessage = S /\
    Message.speakerId aiMessage = Speaker.id aiSpeaker /\
    Message.content aiMessage = response /\
    Message.isAIGenerated aiMessage = Some true /\
    Message.confidence aiMessage = num_or_null (Some confidence) /\
    (clock w <= Message.timestamp aiMessage)%Z /\
    (forall k,
       deliveries_to k (sent r)
       = if registered (clients w) (in_session S) k
         then [JSON.stringify
                 (obj [("type", VStr "aiResponse");
                       ("data", obj [("message", Message.to_value aiMessage);
                                     ("audio", VStr (Buffer_to_base64 env audio))])])]
         else []) /\
    calls (after r)
    = calls w ++ [GenerateAIResponse (requested_transcript frame) context;
                  SynthesizeSpeech response voice] /\
    match Map.get same_value_zero S (MemStorage.analytics (storage w)) with
    | Some before =>
        exists analytics,
          Map.get same_value_zero S (MemStorage.analytics (storage (after r)))
          = Some analytics /\
          Analytics.totalResponses analytics
          = Some (num_or (Some (num_or (Analytics.totalResponses before) 0 + 1)%float) 0) /\
          (Analytics.id before <> "" -> Analytics.id analytics = Analytics.id before)
    | None =>
        Map.get same_value_zero S (MemStorage.analytics (storage (after r))) = None
    end.
Proof.
  cbv zeta. intros Hwf Hget Hopen Htype Hjoined Hgen Hfind Hsynth.
  destruct (Request.request_generated env cid client frame w (response, confidence)
              Hget Hopen Htype Hjoined Hgen) as (w1 & Hticked & ->).
  destruct Hticked as (Hc & Hst & _ & Hu & Hcalls & Hclock).
  set (S := WebSocketClient.sessionId client) in *.
  set (context := context_at (storage w) S) in *.
  set (c := GenerateAIResponse _ _).
  assert (Hfind1 : find is_ai (session_speakers (storage (logged c w1)) S) = Some aiSpeaker)
    by (cbn [logged storage]; rewrite Hst; exact Hfind).
  destruct (Reply.respond_stores_first env S context response confidence aiSpeaker
              (logged c w1) Hfind1) as (Heq & Hstored & Hc2 & Hcalls2 & Han).
  set (aiMessage := reply_message env (logged c w1) S aiSpeaker response confidence) in *.
  set (w2 := after (createMessage env _ (logged c w1))) in *.
  assert (Hrun : exists w3,
    respond_with env S context (response, confidence) (logged c w1)
    = {| ret := Ok tt; after := w3;
         sent := map (fun to =>
                        (to, JSON.stringify
                               (obj [("type", VStr "aiResponse");
                                     ("data", obj [("message", Message.to_value aiMessage);
                                                   ("audio", VStr (Buffer_to_base64 env audio))])])))
                     (map fst (filter (fun entry => in_session S entry
                                                    && not_excluded None entry)
                                      (clients w2))) |} /\
    calls w3 = calls w2 ++ [SynthesizeSpeech response
                              (ConversationContext.voiceType
                                 (ConversationContext.personality context))] /\
    MemStorage.messages (storage w3) = MemStorage.messages (storage w2) /\
    match Map.get same_value_zero S (MemStorage.analytics (storage w2)) with
    | Some before =>
        exists analytics,
          Map.get same_value_zero S (MemStorage.analytics (storage w3)) = Some analytics /\
          Analytics.totalResponses analytics
          = Some (num_or (Some (num_or (Analytics.totalResponses before) 0 + 1)%float) 0) /\
          (Analytics.id before <> "" -> Analytics.id analytics = Analytics.id before)
    | None => Map.get same_value_zero S (MemStorage.analytics (storage w3)) = None
    end).
  { rewrite Heq. clear Heq.
    set (voice := ConversationContext.voiceType (ConversationContext.personality context)).
    assert (Hcall : call_service (SynthesizeSpeech response voice)
                      (synthesizeSpeech env response voice) w2
                    = {| ret := Ok audio; after := logged (SynthesizeSpeech response voice) w2;
                         sent := [] |})
      by (unfold call_service, voice; rewrite Hsynth; reflexivity).
    rewrite (bind_eval _ _ _ _ _ _ Hcall). cbn [app].
    set (w2s := logged (SynthesizeSpeech response voice) w2).
    set (message := obj [("type", VStr "aiResponse"); _]).
    rewrite (bind_eval (broadcastToSession S message None) _ w2s w2s tt
               (map (fun to => (to, JSON.stringify message))
                  (map fst (filter (fun entry => in_session S entry
                                                 && not_excluded None entry)
                                   (clients w2))))) by reflexivity.
    rewrite (bind_eval (getAnalytics S) _ w2s w2s
               (Map.get same_value_zero S (MemStorage.analytics (storage w2))) [])
      by reflexivity.
    cbn [app].
    destruct (Map.get same_value_zero S (MemStorage.analytics (storage w2))) as [before|] eqn:E.
    - set (ins := {| InsertAnalytics.sessionId := S |}).
      assert (Hup : exists analytics w3,
                upsertAnalytics env ins w2s
                = {| ret := Ok analytics; after := w3; sent := [] |} /\
                calls w3 = calls w2s /\
                MemStorage.messages (storage w3) = MemStorage.messages (storage w2s) /\
                Map.get same_value_zero S (MemStorage.analytics (storage w3)) = Some analytics /\
                Analytics.totalResponses analytics
                = Some (num_or (InsertAnalytics.totalResponses ins) 0) /\
                (Analytics.id before <> "" -> Analytics.id analytics = Analytics.id before)).
      { unfold upsertAnalytics.
        rewrite (bind_eval get_world _ w2s w2s w2s []) by reflexivity. cbv zeta.
        change (Map.get same_value_zero (InsertAnalytics.sessionId ins)
                  (MemStorage.analytics (storage w2s)))
          with (Map.get same_value_zero S (MemStorage.analytics (storage w2))).
        rewrite E.
        destruct (String.eqb_spec (Analytics.id before) "") as [Hid|Hid];
          eexists _, _; (split; [reflexivity|]); (split; [reflexivity|]);
          (split; [reflexivity|]);
          (split; [cbn; apply StorageFacts.keyed_get_set_same|]);
          (split; [reflexivity|]).
        - intros Hne. contradiction.
        - intros _. reflexivity. }
      destruct Hup as (analytics & w3 & Hup & Hcalls3 & Hmsg3 & Hget3 & Htot & Hid).
      rewrite (bind_eval _ _ _ _ _ _ Hup). cbn [ret after sent pure app].
      rewrite app_nil_r.
      exists w3. split; [reflexivity|]. split; [exact Hcalls3|]. split; [exact Hmsg3|].
      exists analytics. split; [exact Hget3|]. split; [exact Htot | exact Hid].
    - cbn [ret after sent pure app]. rewrite app_nil_r.
      eexists. split; [reflexivity|]. split; [reflexivity|]. split; [reflexivity|].
      exact E. }
  destruct Hrun as (w3 & Hrun & Hcalls3 & Hmsg3 & Han3).
  rewrite (try_catch_ok _ _ _ tt) by (rewrite Hrun; reflexivity).
  rewrite Hrun. cbn [after sent].
  exists aiMessage.
  split; [rewrite Hmsg3; cbn [logged uuids] in Hstored; rewrite <- Hu; exact Hstored|].
  split; [cbn; rewrite Hu; reflexivity|].
  repeat (split; [reflexivity|]).
  split; [cbn; lia|].
  split.
  { intros k. rewrite Hc2. cbn [logged clients]. rewrite Hc.
    rewrite HubFacts.deliveries_to_fanout by exact Hwf.
    apply f_equal with (f := fun b : bool => if b then _ else _).
    apply Recipients.registered_ext. intros c0. apply andb_true_r. }
  split.
  { rewrite Hcalls3, Hcalls2. cbn [logged calls]. rewrite Hcalls, <- app_assoc. reflexivity. }
  rewrite Han in Han3. cbn [logged storage] in Han3. rewrite Hst in Han3. exact Han3.
Qed.

Lemma reply_stored_and_broadcast_witness :
  exists aiMessage envelope,
    Map.get String.eqb "uuid-0"
      (MemStorage.messages
         (storage (after (on_message answering "B" (Ok request_frame) with_analytics))))
    = Some aiMessage /\
    Message.content aiMessage = "I see what you mean!" /\
    deliveries_to "A" (sent (on_message answering "B" (Ok request_frame) with_analytics))
    = [envelope] /\
    deliveries_to "B" (sent (on_message answering "B" (Ok request_frame) with_analytics))
    = [envelope] /\
    deliveries_to "C" (sent (on_message answering "B" (Ok request_frame) with_analytics)) = [].
Proof.
  assert (Hwf : wf_registry (clients with_analytics)).
  { unfold wf_registry. simpl.
    repeat (constructor; [simpl; intuition discriminate|]). constructor. }
  destruct (reply_stored_and_broadcast answering with_analytics "B"
              (joined "B" "browser" "s1") request_frame "I see what you mean!" 0.8%float
              ai_cohost
              {| byteOffset := 0; bytes := [Byte.x52; Byte.x49; Byte.x46; Byte.x46] |}
              Hwf eq_refl eq_refl eq_refl eq_refl eq_refl eq_refl eq_refl)
    as (aiMessage & Hstored & _ & _ & _ & Hcontent & _ & _ & _ & Hall & _).
  exists aiMessage. eexists.
  split; [exact Hstored|]. split; [exact Hcontent|].
  split; [rewrite (Hall "A"); reflexivity|].
  split; [rewrite (Hall "B"); reflexivity|].
  rewrite (Hall "C"). reflexivity.
Defined.

(** X23.  When session S has no AI speaker, the reply the generator
    returned is dropped: the generator has been called, but nothing is
    stored, no speech is synthesized, nobody receives a message, not even
    an error, and the repository is as it was. *)
Theorem reply_without_speaker_dropped (env : Env) (w : World) (cid : string)
    (client : WebSocketClient.t) (frame : value) (generated : string * float) :
  let S := WebSocketClient.sessionId client in
  let context := context_at (storage w) S in
  let r := on_message env cid (Ok frame) w in
  Map.get String.eqb cid (clients w) = Some client ->
  WebSocketClient.ws client = OPEN ->
  prop frame "type" = VStr "requestAIResponse" ->
  truthy S = true ->
  generateAIResponse env (requested_transcript frame) context = Ok generated ->
  find is_ai (session_speakers (storage w) S) = None ->
  sent r = [] /\
  storage (after r) = storage w /\
  clients (after r) = clients w /\
  calls (after r) = calls w ++ [GenerateAIResponse (requested_transcript frame) context].
Proof.
  cbv zeta. intros Hget Hopen Htype Hjoined Hgen Hfind.
  destruct (Request.request_generated env cid client frame w generated
              Hget Hopen Htype Hjoined Hgen) as (w1 & Hticked & ->).
  destruct Hticked as (Hc & Hst & _ & _ & Hcalls & _).
  set (c := GenerateAIResponse _ _).
  assert (Hnone : respond_with env (WebSocketClient.sessionId client)
                    (context_at (storage w) (WebSocketClient.sessionId client)) generated
                    (logged c w1)
                  = {| ret := Ok tt; after := logged c w1; sent := [] |}).
  { apply Reply.respond_without_speaker. cbn [logged storage]. rewrite Hst. exact Hfind. }
  rewrite (try_catch_ok _ _ _ tt) by (rewrite Hnone; reflexivity).
  rewrite Hnone. cbn [sent after logged storage clients calls].
  rewrite Hst, Hc, Hcalls. repeat split.
Qed.

Lemma reply_without_speaker_dropped_witness :
  sent (on_message answering "C" (Ok request_frame) studio) = [] /\
  storage (after (on_message answering "C" (Ok request_frame) studio)) = storage studio.
Proof.
  destruct (reply_without_speaker_dropped answering studio "C" (joined "C" "browser" "s2")
              request_frame ("I see what you mean!", 0.8%float)
              eq_refl eq_refl eq_refl eq_refl eq_refl eq_refl) as (Hsent & Hst & _).
  split; [exact Hsent | exact Hst].
Defined.

(** X24.  When the synthesis fails after the generator answered, the
    reply has already been stored: the message stays in the repository,
    nobody receives an [aiResponse], the requester alone receives one
    [error] message with the message of the exception, and the analytics
    are not updated. *)
Theorem synthesis_failure_after_store (env : Env) (w : World) (cid : string)
    (client : WebSocketClient.t) (frame : value) (response : string) (confidence : float)
    (aiSpeaker : Speaker.t) (e : exn) :
  let S := WebSocketClient.sessionId client in
  let context := context_at (storage w) S in
  let voice := ConversationContext.voiceType (ConversationContext.personality context) in
  let r := on_message env cid (Ok frame) w in
  Map.get String.eqb cid (clients w) = Some client ->
  WebSocketClient.ws client = OPEN ->
  prop frame "type" = VStr "requestAIResponse" ->
  truthy S = true ->
  generateAIResponse env (requested_transcript frame) context = Ok (response, confidence) ->
  find is_ai (session_speakers (storage w) S) = Some aiSpeaker ->
  synthesizeSpeech env response voice = Throw e ->
  (exists aiMessage,
     Map.get String.eqb (randomUUID env (uuids w)) (MemStorage.messages (storage (after r)))
     = Some aiMessage /\
     Message.content aiMessage = response /\
     Message.isAIGenerated aiMessage = Some true) /\
  sent r = [(WebSocketClient.clientId client,
             JSON.stringify
               (obj [("type", VStr "error"); ("message", VStr (error_message e))]))] /\
  MemStorage.analytics (storage (after r)) = MemStorage.analytics (storage w) /\
  ret r = Ok tt.
Proof.
  cbv zeta. intros Hget Hopen Htype Hjoined Hgen Hfind Hsynth.
  destruct (Request.request_generated env cid client frame w (response, confidence)
              Hget Hopen Htype Hjoined Hgen) as (w1 & Hticked & ->).
  destruct Hticked as (Hc & Hst & _ & Hu & Hcalls & Hclock).
  set (S := WebSocketClient.sessionId client) in *.
  set (context := context_at (storage w) S) in *.
  set (c := GenerateAIResponse _ _).
  assert (Hfind1 : find is_ai (session_speakers (storage (logged c w1)) S) = Some aiSpeaker)
    by (cbn [logged storage]; rewrite Hst; exact Hfind).
  destruct (Reply.respond_stores_first env S context response confidence aiSpeaker
              (logged c w1) Hfind1) as (Heq & Hstored & Hc2 & Hcalls2 & Han).
  set (aiMessage := reply_message env (logged c w1) S aiSpeaker response confidence) in *.
  set (w2 := after (createMessage env _ (logged c w1))) in *.
  set (voice := ConversationContext.voiceType (ConversationContext.personality context)) in *.
  assert (Hcall : call_service (SynthesizeSpeech response voice)
                    (synthesizeSpeech env response voice) w2
                  = {| ret := Throw e; after := logged (SynthesizeSpeech response voice) w2;
                       sent := [] |})
    by (unfold call_service; rewrite Hsynth; reflexivity).
  rewrite (bind_throw _ _ _ _ _ _ Hcall) in Heq.
  unfold try_catch. rewrite Heq. cbn [ret after sent send app logged storage].
  split; [|split; [reflexivity|]; split; [|reflexivity]].
  - exists aiMessage. split; [|split; reflexivity].
    cbn [logged uuids] in Hstored. rewrite <- Hu. exact Hstored.
  - rewrite Han. cbn [logged storage]. rewrite Hst. reflexivity.
Qed.

Lemma synthesis_failure_after_store_witness :
  sent (on_message voiceless "B" (Ok request_frame) studio)
  = [("B", JSON.stringify
             (obj [("type", VStr "error");
                   ("message", VStr "Failed to synthesize speech: Connection error.")]))] /\
  exists aiMessage,
    Map.get String.eqb "uuid-0"
      (MemStorage.messages (storage (after (on_message voiceless "B" (Ok request_frame) studio))))
    = Some aiMessage.
Proof.
  destruct (synthesis_failure_after_store voiceless studio "B" (joined "B" "browser" "s1")
              request_frame "I see what you mean!" 0.8%float
              ai_cohost
              (Error "Failed to synthesize speech: Connection error.")
              eq_refl eq_refl eq_refl eq_refl eq_refl eq_refl eq_refl)
    as ((aiMessage & Hstored & _) & Hsent & _).
  split; [exact Hsent|]. exists aiMessage. exact Hstored.
Defined.

(** ** Hotkey commands and personality updates *)

Module Commands.
Section Env.
Variable env : Env.

Lemma normalized_top_level (client : WebSocketClient.t) (frame : value) (now : Z) (k : string) :
  In k ["key"; "command"; "personality"] ->
  prop (normalized client frame now) k = top_level frame k.
Proof.
  intros Hk. unfold normalized, top_level.
  destruct (is_legacy frame); [|reflexivity].
  destruct Hk as [<-|[<-|[<-|[]]]]; reflexivity.
Qed.

Lemma broadcast_then {A} (S message : value) (exclude : option string) (k : M A) (w : World) :
  after ((broadcastToSession S message exclude ;;; k) w) = after (k w).
Proof. reflexivity. Qed.

(** The calls a hotkey leads to. *)
Lemma hotkey_calls (client : WebSocketClient.t) (m : value) (w : World) :
  truthy (WebSocketClient.sessionId client) = true ->
  match hotkey_prompt (prop m "command") with
  | Some prompt =>
      exists rest,
        calls (after (handleHotkey env client m w))
        = calls w ++ GenerateAIResponse (VStr prompt)
                       (context_at (storage w) (WebSocketClient.sessionId client)) :: rest
  | None =>
      calls (after (handleHotkey env client m w)) = calls w /\
      storage (after (handleHotkey env client m w)) = storage w
  end.
Proof.
  intros Hjoined. unfold handleHotkey, hotkey_prompt. rewrite Hjoined. cbn [negb].
  rewrite broadcast_then.
  destruct (strict_eq (prop m "command") (VStr "riff"));
    [exact (Calls.generator_called env client _ w Hjoined)|].
  destruct (strict_eq (prop m "command") (VStr "oneLiner"));
    [exact (Calls.generator_called env client _ w Hjoined)|].
  destruct (strict_eq (prop m "command") (VStr "wrap"));
    [exact (Calls.generator_called env client _ w Hjoined)|].
  split; reflexivity.
Qed.

Lemma dispatch_updatePersonality (cid : string) (client : WebSocketClient.t) (m : value) :
  prop m "type" = VStr "updatePersonality" ->
  dispatch env cid client m = handlePersonalityUpdate env client m.
Proof. intros H. unfold dispatch, type_is. rewrite H. reflexivity. Qed.

Lemma personality_update_eval (client : WebSocketClient.t) (m : value) (w : World) :
  truthy (WebSocketClient.sessionId client) = true ->
  let S := WebSocketClient.sessionId client in
  let insertPersonality := personality_insert S (prop m "personality") in
  exists id now w1,
    handlePersonalityUpdate env client m w
    = {| ret := Ok tt; after := w1;
         sent := map (fun to =>
                        (to, JSON.stringify
                               (obj [("type", VStr "personalityUpdated");
                                     ("data", personality_record id now insertPersonality)])))
                     (map fst (filter (fun entry => in_session S entry
                                                    && not_excluded None entry)
                                      (clients w))) |} /\
    storage w1
    = {| MemStorage.speakers := MemStorage.speakers (storage w);
         MemStorage.messages := MemStorage.messages (storage w);
         MemStorage.sessionMemories := MemStorage.sessionMemories (storage w);
         MemStorage.aiPersonalities :=
           Map.set same_value_zero (prop insertPersonality "sessionId")
             (personality_record id now insertPersonality)
             (MemStorage.aiPersonalities (storage w));
         MemStorage.analytics := MemStorage.analytics (storage w) |}.
Proof.
  intros Hjoined. cbv zeta.
  unfold handlePersonalityUpdate. rewrite Hjoined. cbn [negb].
  fold (personality_insert (WebSocketClient.sessionId client) (prop m "personality")).
  set (insertPersonality := personality_insert _ _).
  destruct (PersonalityFacts.upsert_personality_eval env insertPersonality w)
    as (id & now & Hret & Hsent & Hc & _ & _ & Hst).
  exists id, now, (after (upsertAIPersonality env insertPersonality w)).
  split; [|exact Hst].
  assert (Hup : upsertAIPersonality env insertPersonality w
                = {| ret := Ok (personality_record id now insertPersonality);
                     after := after (upsertAIPersonality env insertPersonality w);
                     sent := [] |})
    by (rewrite <- Hret, <- Hsent; reflexivity).
  unfold try_catch. rewrite (bind_eval _ _ _ _ _ _ Hup).
  cbn [ret after sent broadcastToSession bind get_world send_all app]. rewrite Hc.
  reflexivity.
Qed.

End Env.
End Commands.

(** X25.  A hotkey whose [command] is "riff", "oneLiner" or "wrap" asks
    the generator for a reply to a fixed prompt, in the context of the
    sender's session; any other command calls no service and leaves the
    repository as it was.  The command is the frame's top-level field, so
    in the legacy dialect, where the frame is replaced by its envelope
    before the switch, no hotkey ever prompts the generator. *)
Theorem hotkey_commands_prompt (env : Env) (w : World) (cid : string)
    (client : WebSocketClient.t) (frame : value) :
  let S := WebSocketClient.sessionId client in
  let r := on_message env cid (Ok frame) w in
  Map.get String.eqb cid (clients w) = Some client ->
  WebSocketClient.ws client = OPEN ->
  prop frame "type" = VStr "hotkey" ->
  truthy S = true ->
  match hotkey_prompt (top_level frame "command") with
  | Some prompt =>
      exists rest,
        calls (after r)
        = calls w ++ GenerateAIResponse (VStr prompt) (context_at (storage w) S) :: rest
  | None => calls (after r) = calls w /\ storage (after r) = storage w
  end /\
  (is_legacy frame = true -> calls (after r) = calls w /\ storage (after r) = storage w).
Proof.
  cbv zeta. intros Hget Hopen Htype Hjoined.
  destruct (Ingress.on_message_dispatch env cid client frame w Hget Hopen
              (Ingress.typed_frame_not_nullish frame _ Htype))
    as (now0 & w1 & _ & (_ & Hst & _ & _ & Hcalls & _) & Hrun).
  assert (Htype' : prop (normalized client frame now0) "type" = VStr "hotkey")
    by (rewrite Eval.normalized_type; exact Htype).
  rewrite (Hotkey.dispatch_hotkey env cid client _ Htype') in Hrun.
  rewrite Hrun by apply Hotkey.hotkey_returns. clear Hrun.
  pose proof (Commands.hotkey_calls env client (normalized client frame now0) w1 Hjoined)
    as Hcmd.
  rewrite (Commands.normalized_top_level client frame now0 "command") in Hcmd
    by (simpl; tauto).
  rewrite Hst, Hcalls in Hcmd.
  split; [exact Hcmd|].
  intros Hleg. unfold top_level in Hcmd. rewrite Hleg in Hcmd. exact Hcmd.
Qed.

Lemma hotkey_commands_prompt_witness :
  (exists rest,
     calls (after (on_message answering "B" (Ok riff_frame) studio))
     = GenerateAIResponse (VStr "Continue with a creative riff on the current topic")
         (context_at (storage studio) (VStr "s1")) :: rest) /\
  calls (after (on_message answering "B" (Ok legacy_riff_frame) studio)) = [].
Proof.
  split.
  - exact (proj1 (hotkey_commands_prompt answering studio "B" (joined "B" "browser" "s1")
                    riff_frame eq_refl eq_refl eq_refl eq_refl)).
  - exact (proj1 (proj2 (hotkey_commands_prompt answering studio "B"
                           (joined "B" "browser" "s1") legacy_riff_frame
                           eq_refl eq_refl eq_refl eq_refl) eq_refl)).
Defined.

(** X26.  An [updatePersonality] frame from a connection joined to
    session S stores a personality and tells every open connection
    recorded in S, the sender included, and nobody else.  The record is
    filed under the [sessionId] of the frame's [personality] object when
    that has one, and only otherwise under S: a member of one session can
    thus write the personality of another, whose members are not told,
    while the record of S stays as it was.  In the legacy dialect the
    [personality] object is lost with the frame, and the defaults are
    stored under S. *)
Theorem personality_update_follows_payload (env : Env) (w : World) (cid : string)
    (client : WebSocketClient.t) (frame : value) :
  let S := WebSocketClient.sessionId client in
  let T := prop (personality_insert S (top_level frame "personality")) "sessionId" in
  let r := on_message env cid (Ok frame) w in
  wf_registry (clients w) ->
  Map.get String.eqb cid (clients w) = Some client ->
  WebSocketClient.ws client = OPEN ->
  prop frame "type" = VStr "updatePersonality" ->
  truthy S = true ->
  exists personality,
    Map.get same_value_zero T (MemStorage.aiPersonalities (storage (after r)))
    = Some personality /\
    prop personality "sessionId" = T /\
    Forall (fun k => truthy (prop personality k) = true)
      ["voiceType"; "comedyLevel"; "researchLevel"; "energyLevel"; "responseStyle"] /\
    (forall k,
       deliveries_to k (sent r)
       = if registered (clients w) (in_session S) k
         then [JSON.stringify
                 (obj [("type", VStr "personalityUpdated"); ("data", personality)])]
         else []) /\
    (forall s t, S = VStr s -> T = VStr t -> t <> s ->
       Map.get same_value_zero S (MemStorage.aiPersonalities (storage (after r)))
       = Map.get same_value_zero S (MemStorage.aiPersonalities (storage w))) /\
    (is_legacy frame = true ->
     T = S /\
     prop personality "voiceType" = VStr "energetic-podcaster" /\
     prop personality "comedyLevel" = VNum 60 /\
     prop personality "researchLevel" = VNum 40 /\
     prop personality "energyLevel" = VNum 75 /\
     prop personality "responseStyle" = VStr "conversational").
Proof.
  cbv zeta. intros Hwf Hget Hopen Htype Hjoined.
  destruct (Ingress.on_message_dispatch env cid client frame w Hget Hopen
              (Ingress.typed_frame_not_nullish frame _ Htype))
    as (now0 & w1 & _ & (Hc & Hst & _) & Hrun).
  assert (Htype' : prop (normalized client frame now0) "type" = VStr "updatePersonality")
    by (rewrite Eval.normalized_type; exact Htype).
  rewrite (Commands.dispatch_updatePersonality env cid client _ Htype') in Hrun.
  destruct (Commands.personality_update_eval env client (normalized client frame now0) w1
              Hjoined) as (id & now & w2 & Heq & Hst2).
  rewrite (Commands.normalized_top_level client frame now0 "personality") in Heq, Hst2
    by (simpl; tauto).
  rewrite Hrun by (rewrite Heq; reflexivity). clear Hrun.
  rewrite Heq. cbn [after sent]. rewrite Hst2. cbn [MemStorage.aiPersonalities].
  set (S := WebSocketClient.sessionId client) in *.
  set (insertPersonality := personality_insert S (top_level frame "personality")) in *.
  set (personality := personality_record id now insertPersonality).
  destruct (PersonalityFacts.record_fields id now 0
              (set_fields (own_props (top_level frame "personality")) [("sessionId", S)]))
    as (Hsid & Hv & Hcl & Hr & He & Hs).
  exists personality.
  split; [apply StorageFacts.keyed_get_set_same|].
  split; [exact Hsid|].
  split; [apply PersonalityFacts.record_truthy|].
  split.
  { intros k. rewrite Hc.
    rewrite HubFacts.deliveries_to_fanout by exact Hwf.
    apply f_equal with (f := fun b : bool => if b then _ else _).
    apply Recipients.registered_ext. intros c0. apply andb_true_r. }
  split.
  { intros s t HS HT Hne. rewrite HS, HT, Hst.
    apply StorageFacts.keyed_get_set_other. congruence. }
  intros Hleg.
  subst personality insertPersonality. unfold top_level in *. rewrite Hleg in *.
  split; [reflexivity|].
  split; [exact Hv|]. split; [exact Hcl|]. split; [exact Hr|]. split; [exact He | exact Hs].
Qed.

Lemma personality_update_follows_payload_witness :
  exists personality,
    Map.get same_value_zero (VStr "s2")
      (MemStorage.aiPersonalities
         (storage (after (on_message answering "B" (Ok foreign_personality_frame) studio))))
    = Some personality /\
    truthy (prop personality "comedyLevel") = true /\
    deliveries_to "C" (sent (on_message answering "B" (Ok foreign_personality_frame) studio))
    = [] /\
    deliveries_to "A" (sent (on_message answering "B" (Ok foreign_personality_frame) studio))
    = [JSON.stringify (obj [("type", VStr "personalityUpdated"); ("data", personality)])].
Proof.
  assert (Hwf : wf_registry (clients studio)).
  { unfold wf_registry. simpl.
    repeat (constructor; [simpl; intuition discriminate|]). constructor. }
  destruct (personality_update_follows_payload answering studio "B"
              (joined "B" "browser" "s1") foreign_personality_frame
              Hwf eq_refl eq_refl eq_refl eq_refl)
    as (personality & Hstored & _ & Htruthy & Hall & _).
  exists personality. split; [exact Hstored|].
  split.
  { apply Forall_cons_iff in Htruthy as [_ Htruthy].
    apply Forall_cons_iff in Htruthy as [Hcomedy _]. exact Hcomedy. }
  split; [rewrite (Hall "C"); reflexivity | rewrite (Hall "A"); reflexivity].
Defined.

(** ** The listeners on the accumulator *)

(** X27.  What the accumulator emits goes to everybody: an "audioLevel"
    event puts one [audioLevel] message on every open socket, whatever
    session its connection has joined, if any.  An "audioReady" event is
    sent to transcription; a transcript that is not blank then goes to
    every open socket in a [transcription] message, a blank one to
    nobody, and a failure of the transcription is swallowed: nothing is
    sent and the listener returns.  The repository is not touched. *)
Theorem audio_events_reach_everyone (env : Env) (w : World) :
  wf_registry (clients w) ->
  (forall level k,
     deliveries_to k (sent (on_audio_event env (AudioProcessor.audioLevel level) w))
     = if registered (clients w) (fun entry => is_OPEN (WebSocketClient.ws (snd entry))) k
       then [JSON.stringify (obj [("type", VStr "audioLevel"); ("data", VNum level)])]
       else []) /\
  (forall audioData,
     let r := on_audio_event env (AudioProcessor.audioReady audioData) w in
     ret r = Ok tt /\
     calls (after r) = calls w ++ [TranscribeAudio audioData] /\
     storage (after r) = storage w /\
     match transcribeAudio env audioData with
     | Ok (text, confidence) =>
         forall k,
           deliveries_to k (sent r)
           = if registered (clients w) (fun entry => is_OPEN (WebSocketClient.ws (snd entry))) k
                && negb (blank text)
             then [JSON.stringify
                     (obj [("type", VStr "transcription");
                           ("data", obj [("text", VStr text);
                                         ("confidence",
                                          match confidence with
                                          | Some c => VNum c
                                          | None => VUndefined
                                          end)])])]
             else []
     | Throw _ => sent r = []
     end).
Proof.
  intros Hwf. split.
  - intros level k.
    cbn [on_audio_event broadcast bind get_world send_all ret after sent app].
    apply HubFacts.deliveries_to_fanout. exact Hwf.
  - intros audioData. cbv zeta. unfold on_audio_event.
    set (c := TranscribeAudio audioData).
    destruct (transcribeAudio env audioData) as [[text confidence]|e].
    + unfold try_catch.
      rewrite (bind_eval _ _ w (logged c w) (text, confidence) []) by reflexivity.
      cbn [fst snd app].
      destruct (blank text);
        cbn [negb ret after sent pure broadcast bind get_world send_all logged clients calls
             storage app].
      * split; [reflexivity|]. split; [reflexivity|]. split; [reflexivity|].
        intros k. rewrite andb_false_r. reflexivity.
      * split; [reflexivity|]. split; [reflexivity|]. split; [reflexivity|].
        intros k. rewrite andb_true_r.
        apply HubFacts.deliveries_to_fanout. exact Hwf.
    + unfold try_catch.
      rewrite (bind_throw _ _ w (logged c w) e []) by reflexivity.
      split; [reflexivity|]. split; [reflexivity|]. split; reflexivity.
Qed.

Lemma audio_events_reach_everyone_witness :
  deliveries_to "D" (sent (on_audio_event answering (AudioProcessor.audioLevel (-12)%float) studio))
  = [JSON.stringify (obj [("type", VStr "audioLevel"); ("data", VNum (-12)%float)])].
Proof.
  assert (Hwf : wf_registry (clients studio)).
  { unfold wf_registry. simpl.
    repeat (constructor; [simpl; intuition discriminate|]). constructor. }
  rewrite (proj1 (audio_events_reach_everyone answering studio Hwf) (-12)%float "D").
  reflexivity.
Defined.

(** ** The context of a reply *)

Module Recent.

Lemma sorted_app_le (l1 l2 : list Message.t) :
  StronglySorted by_timestamp (l1 ++ l2) ->
  forall a b, In a l1 -> In b l2 -> by_timestamp a b.
Proof.
  induction l1 as [|x l1 IH]; simpl; intros Hs a b Ha Hb; [destruct Ha|].
  inversion Hs as [|? ? Hs' Hall]; subst.
  destruct Ha as [<-|Ha].
  - rewrite Forall_forall in Hall. apply Hall. apply in_or_app. right. exact Hb.
  - exact (IH Hs' a b Ha Hb).
Qed.

Lemma sorted_skipn (n : nat) (l : list Message.t) :
  StronglySorted by_timestamp l -> StronglySorted by_timestamp (skipn n l).
Proof.
  revert l. induction n as [|n IH]; intros l Hs; [exact Hs|].
  destruct l as [|x l]; [constructor|]. simpl.
  inversion Hs; subst. apply IH. assumption.
Qed.

Lemma sorted_map_recent (l : list Message.t) :
  StronglySorted by_timestamp l ->
  StronglySorted
    (fun a b => (ConversationContext.timestamp a <= ConversationContext.timestamp b)%Z)
    (map (fun m => {| ConversationContext.speaker := Message.speakerId m;
                      ConversationContext.content := Message.content m;
                      ConversationContext.timestamp := Message.timestamp m |}) l).
Proof.
  induction 1 as [|x l Hs IH Hall]; simpl; constructor; [exact IH|].
  apply Forall_forall. intros y Hy. apply in_map_iff in Hy as (m & <- & Hm).
  rewrite Forall_forall in Hall. exact (Hall m Hm).
Qed.

End Recent.

(** X28.  The recent messages the orchestrator hands to the generator for
    session S are at most ten, all of them messages stored for S, in the
    order of their timestamps, and they are the latest: any message of S
    that is left out is no later than every one that is included. *)
Theorem context_recent_messages (s : MemStorage.t) (S : value) :
  let stored :=
    filter (fun m => strict_eq (Message.sessionId m) S) (map snd (MemStorage.messages s)) in
  let recent := slice_last 10 (sort_by_timestamp stored) in
  ConversationContext.recentMessages (context_at s S)
  = map (fun m => {| ConversationContext.speaker := Message.speakerId m;
                     ConversationContext.content := Message.content m;
                     ConversationContext.timestamp := Message.timestamp m |}) recent /\
  (length (ConversationContext.recentMessages (context_at s S)) <= 10)%nat /\
  StronglySorted
    (fun a b => (ConversationContext.timestamp a <= ConversationContext.timestamp b)%Z)
    (ConversationContext.recentMessages (context_at s S)) /\
  (forall m, In m recent -> In m stored) /\
  (forall m, In m stored -> In m recent \/ forall m', In m' recent -> by_timestamp m m').
Proof.
  cbv zeta. set (stored := filter _ _).
  assert (Hsorted : StronglySorted by_timestamp (sort_by_timestamp stored))
    by apply StorageFacts.sort_sorted.
  assert (Hperm : Permutation (sort_by_timestamp stored) stored)
    by apply StorageFacts.sort_permutation.
  split; [reflexivity|]. split; [|split; [|split]].
  - unfold context_at. cbn [conversation_context ConversationContext.recentMessages].
    rewrite length_map. apply VoiceFacts.slice_last_length.
  - unfold context_at. cbn [conversation_context ConversationContext.recentMessages].
    apply Recent.sorted_map_recent. unfold slice_last. apply Recent.sorted_skipn. exact Hsorted.
  - intros m Hm. eapply Permutation_in; [exact Hperm|].
    unfold slice_last in Hm.
    rewrite <- (firstn_skipn (length (sort_by_timestamp stored) - 10)).
    apply in_or_app. right. exact Hm.
  - intros m Hm. apply (Permutation_in _ (Permutation_sym Hperm)) in Hm.
    unfold slice_last.
    rewrite <- (firstn_skipn (length (sort_by_timestamp stored) - 10)) in Hm, Hsorted.
    apply in_app_or in Hm as [Hm|Hm]; [right | left; exact Hm].
    intros m' Hm'. exact (Recent.sorted_app_le _ _ Hsorted m m' Hm Hm').
Qed.

(** ** The demo data *)

Module Seed.
Section Env.
Variable env : Env.

Lemma createSpeaker_eval (i : InsertSpeaker.t) (w : World) :
  exists speaker w1,
    createSpeaker env i w = {| ret := Ok speaker; after := w1; sent := [] |} /\
    Speaker.isAI speaker = Some (bool_or_false (InsertSpeaker.isAI i)) /\
    Speaker.sessionId speaker = InsertSpeaker.sessionId i /\
    MemStorage.speakers (storage w1)
    = Map.set String.eqb (Speaker.id speaker) speaker (MemStorage.speakers (storage w)) /\
    MemStorage.analytics (storage w1) = MemStorage.analytics (storage w) /\
    apart w w1.
Proof. eexists _, _. repeat split. Qed.

Lemma createMessage_eval (i : InsertMessage.t) (w : World) :
  exists message w1,
    createMessage env i w = {| ret := Ok message; after := w1; sent := [] |} /\
    MemStorage.speakers (storage w1) = MemStorage.speakers (storage w) /\
    MemStorage.analytics (storage w1) = MemStorage.analytics (storage w) /\
    apart w w1.
Proof. eexists _, _. repeat split. Qed.

Lemma upsertAIPersonality_eval (i : value) (w : World) :
  exists personality w1,
    upsertAIPersonality env i w = {| ret := Ok personality; after := w1; sent := [] |} /\
    MemStorage.speakers (storage w1) = MemStorage.speakers (storage w) /\
    MemStorage.analytics (storage w1) = MemStorage.analytics (storage w) /\
    apart w w1.
Proof.
  destruct (PersonalityFacts.upsert_personality_eval env i w)
    as (id & now & Hret & Hsent & Hc & Hcalls & Ha & Hst).
  exists (personality_record id now i), (after (upsertAIPersonality env i w)).
  split; [rewrite <- Hret, <- Hsent; reflexivity|].
  rewrite Hst. repeat split; assumption.
Qed.

Lemma upsertAnalytics_eval (i : InsertAnalytics.t) (w : World) :
  exists analytics w1,
    upsertAnalytics env i w = {| ret := Ok analytics; after := w1; sent := [] |} /\
    Analytics.totalResponses analytics
    = Some (num_or (InsertAnalytics.totalResponses i) 0) /\
    MemStorage.speakers (storage w1) = MemStorage.speakers (storage w) /\
    MemStorage.analytics (storage w1)
    = Map.set same_value_zero (InsertAnalytics.sessionId i) analytics
        (MemStorage.analytics (storage w)) /\
    apart w w1.
Proof.
  unfold upsertAnalytics.
  rewrite (bind_eval get_world _ w w w []) by reflexivity. cbv zeta.
  destruct (Map.get same_value_zero _ _) as [a|]; [destruct (String.eqb _ "")|];
    eexists _, _; repeat split.
Qed.

Lemma upsertSessionMemory_eval (i : InsertSessionMemory.t) (w : World) :
  exists memory w1,
    upsertSessionMemory env i w = {| ret := Ok memory; after := w1; sent := [] |} /\
    MemStorage.speakers (storage w1) = MemStorage.speakers (storage w) /\
    MemStorage.analytics (storage w1) = MemStorage.analytics (storage w) /\
    apart w w1.
Proof.
  unfold upsertSessionMemory.
  rewrite (bind_eval get_world _ w w w []) by reflexivity. cbv zeta.
  destruct (Map.get same_value_zero _ _) as [m|]; [destruct (String.eqb _ "")|];
    eexists _, _; repeat split.
Qed.

(** A step that sends nothing hands the world over to what follows. *)
Lemma bind_silent {A B} (m : M A) (f : A -> M B) (w w1 : World) (a : A) :
  m w = {| ret := Ok a; after := w1; sent := [] |} -> bind m f w = f a w1.
Proof. intros H. unfold bind. rewrite H. reflexivity. Qed.

Lemma apart_trans (w w1 w2 : World) : apart w w1 -> apart w1 w2 -> apart w w2.
Proof. intros (H1 & H2 & H3) (G1 & G2 & G3). repeat split; congruence. Qed.

(** The run from a map of sessions without the demo session. *)
Lemma seeds_fresh (sessions : Sessions.t) (w : World) :
  truthy (Sessions.getSession demoSessionId sessions) = false ->
  exists now w7 aiSpeaker analytics,
    initializeDemoData env sessions w
    = {| ret := Ok (Map.set String.eqb demoSessionId (demo_session now) sessions);
         after := w7; sent := [] |} /\
    apart w w7 /\
    In aiSpeaker (session_speakers (storage w7) (VStr demoSessionId)) /\
    Speaker.isAI aiSpeaker = Some true /\
    Map.get same_value_zero (VStr demoSessionId) (MemStorage.analytics (storage w7))
    = Some analytics /\
    Analytics.totalResponses analytics = Some 5%float.
Proof.
  intros Hexists.
  unfold initializeDemoData. rewrite Hexists. cbn [negb].
  rewrite (bind_silent (Date_now env) _ w (after (Date_now env w))
             (clock (after (Date_now env w)))) by reflexivity.
  set (w0 := after (Date_now env w)).
  assert (H0 : apart w w0) by (repeat split).
  fold (demo_session (clock w0)).
  set (sessions1 := Map.set String.eqb demoSessionId (demo_session (clock w0)) sessions).
  destruct (createSpeaker_eval
              {| InsertSpeaker.sessionId := demoSessionId;
                 InsertSpeaker.name := "Demo Host";
                 InsertSpeaker.handle := Some "@demohost";
                 InsertSpeaker.isHost := Some true;
                 InsertSpeaker.isGuest := Some false;
                 InsertSpeaker.isAI := Some false;
                 InsertSpeaker.avatar := None |} w0)
    as (hostSpeaker & w1 & E1 & _ & _ & _ & _ & H1).
  destruct (createSpeaker_eval
              {| InsertSpeaker.sessionId := demoSessionId;
                 InsertSpeaker.name := "AI Cohost";
                 InsertSpeaker.handle := Some "@aicohost";
                 InsertSpeaker.isHost := Some false;
                 InsertSpeaker.isGuest := Some false;
                 InsertSpeaker.isAI := Some true;
                 InsertSpeaker.avatar := None |} w1)
    as (aiSpeaker & w2 & E2 & Hai & Hsid & Hsp2 & _ & H2).
  unfold try_catch.
  rewrite (bind_silent _ _ _ _ _ E1), (bind_silent _ _ _ _ _ E2).
  match goal with
  | |- context [bind (upsertAIPersonality env ?i) _ w2] =>
      destruct (upsertAIPersonality_eval i w2) as (p & w3 & E3 & Hsp3 & Han3 & H3)
  end.
  rewrite (bind_silent _ _ _ _ _ E3).
  match goal with
  | |- context [bind (upsertAnalytics env ?i) _ w3] =>
      destruct (upsertAnalytics_eval i w3) as (analytics & w4 & E4 & Htotal & Hsp4 & Han4 & H4)
  end.
  rewrite (bind_silent _ _ _ _ _ E4).
  match goal with
  | |- context [bind (upsertSessionMemory env ?i) _ w4] =>
      destruct (upsertSessionMemory_eval i w4) as (m & w5 & E5 & Hsp5 & Han5 & H5)
  end.
  rewrite (bind_silent _ _ _ _ _ E5).
  match goal with
  | |- context [bind (createMessage env ?i) _ w5] =>
      destruct (createMessage_eval i w5) as (m1 & w6 & E6 & Hsp6 & Han6 & H6)
  end.
  rewrite (bind_silent _ _ _ _ _ E6).
  match goal with
  | |- context [bind (createMessage env ?i) _ w6] =>
      destruct (createMessage_eval i w6) as (m2 & w7 & E7 & Hsp7 & Han7 & H7)
  end.
  rewrite (bind_silent _ _ _ _ _ E7).
  cbn [ret after sent pure app].
  exists (clock w0), w7, aiSpeaker, analytics.
  split; [reflexivity|].
  split.
  { apply (apart_trans w w0); [exact H0|].
    apply (apart_trans w0 w1); [exact H1|].
    apply (apart_trans w1 w2); [exact H2|].
    apply (apart_trans w2 w3); [exact H3|].
    apply (apart_trans w3 w4); [exact H4|].
    apply (apart_trans w4 w5); [exact H5|].
    apply (apart_trans w5 w6); [exact H6 | exact H7]. }
  split.
  { unfold session_speakers. apply filter_In. split.
    - rewrite Hsp7, Hsp6, Hsp5, Hsp4, Hsp3, Hsp2. apply StorageFacts.in_map_set.
    - rewrite Hsid. reflexivity. }
  split; [exact Hai|].
  split; [|exact Htotal].
  rewrite Han7, Han6, Han5, Han4. apply StorageFacts.keyed_get_set_same.
Qed.

End Env.
End Seed.

(** X30.  [initializeDemoData] seeds once.  When the demo session exists
    it changes nothing; otherwise it registers the session and fills the
    repository so that the orchestrator can serve it: the session then has
    an AI speaker and an analytics record that counts five responses.  In
    both cases nothing is sent, no service is called, no connection is
    touched, the session exists afterwards, and a second run changes
    nothing more. *)
Theorem demo_data_seeded_once (env : Env) (sessions : Sessions.t) (w : World) :
  let r := initializeDemoData env sessions w in
  exists sessions1,
    ret r = Ok sessions1 /\
    sent r = [] /\
    apart w (after r) /\
    truthy (Sessions.getSession demoSessionId sessions1) = true /\
    (truthy (Sessions.getSession demoSessionId sessions) = true ->
     sessions1 = sessions /\ after r = w) /\
    (truthy (Sessions.getSession demoSessionId sessions) = false ->
     prop (Sessions.getSession demoSessionId sessions1) "status" = VStr "live" /\
     find is_ai (session_speakers (storage (after r)) (VStr demoSessionId)) <> None /\
     exists analytics,
       Map.get same_value_zero (VStr demoSessionId) (MemStorage.analytics (storage (after r)))
       = Some analytics /\
       Analytics.totalResponses analytics = Some 5%float) /\
    initializeDemoData env sessions1 (after r)
    = {| ret := Ok sessions1; after := after r; sent := [] |}.
Proof.
  cbv zeta.
  assert (Hskip : forall s w0,
            truthy (Sessions.getSession demoSessionId s) = true ->
            initializeDemoData env s w0 = {| ret := Ok s; after := w0; sent := [] |}).
  { intros s w0 H. unfold initializeDemoData. rewrite H. reflexivity. }
  destruct (truthy (Sessions.getSession demoSessionId sessions)) eqn:Hexists.
  - rewrite (Hskip sessions w Hexists). exists sessions. cbn [ret after sent].
    split; [reflexivity|]. split; [reflexivity|]. split; [repeat split|].
    split; [exact Hexists|]. split; [intros _; split; reflexivity|].
    split; [discriminate|]. apply Hskip. exact Hexists.
  - destruct (Seed.seeds_fresh env sessions w Hexists)
      as (now & w7 & aiSpeaker & analytics & Hrun & Hapart & Hin & Hai & Hget & Htotal).
    rewrite Hrun. cbn [ret after sent].
    set (sessions1 := Map.set String.eqb demoSessionId (demo_session now) sessions).
    assert (Hsession : Sessions.getSession demoSessionId sessions1 = demo_session now)
      by (unfold Sessions.getSession, sessions1; rewrite MapFacts.get_set_same; reflexivity).
    exists sessions1.
    split; [reflexivity|]. split; [reflexivity|]. split; [exact Hapart|].
    split; [rewrite Hsession; reflexivity|].
    split; [discriminate|].
    split.
    + intros _. split; [rewrite Hsession; reflexivity|]. split.
      * intros Hnone. pose proof (find_none _ _ Hnone aiSpeaker Hin) as Hno.
        unfold is_ai in Hno. rewrite Hai in Hno. discriminate.
      * exists analytics. split; [exact Hget | exact Htotal].
    + apply Hskip. rewrite Hsession. reflexivity.
Qed.

Lemma demo_data_seeded_once_witness :
  exists sessions1,
    ret (initializeDemoData answering [] (boot 1762041600000)) = Ok sessions1 /\
    find is_ai
      (session_speakers
         (storage (after (initializeDemoData answering [] (boot 1762041600000))))
         (VStr demoSessionId)) <> None.
Proof.
  destruct (demo_data_seeded_once answering [] (boot 1762041600000))
    as (sessions1 & Hret & _ & _ & _ & _ & Hseeded & _).
  exists sessions1. split; [exact Hret|].
  exact (proj1 (proj2 (Hseeded eq_refl))).
Defined.
